(** * benepass-form-builder: the schema interpretation core

    A shallow embedding of the form renderer of the repository
    ([src/components/FormRenderer.tsx]), of the schema types
    ([src/types/schema.ts]), of the JSON export/import and of the saving and
    loading of [src/App.tsx], and of the handlers of the three editors
    ([FieldEditor.tsx], [ValidationEditor.tsx], [ConditionalEditor.tsx]),
    together with the parts of the JavaScript runtime, of the Zod 4
    validation library and of [@dnd-kit/sortable] that this code calls.

    Conventions.
    - A JavaScript string is a [string]; one character of the model is one
      UTF-16 code unit (the model covers the code units below 256).
    - A JavaScript number is a [number]: NaN, the two infinities and the
      integers.  Negative zero is identified with zero (the program never
      distinguishes them: it only compares, prints and tests truthiness).
    - A JavaScript object used as a dictionary ([formData], [errors], the
      shape given to [z.object]) is a [gmap string _]; keys are assumed not
      to collide with the properties of [Object.prototype].
    - Code that can throw returns a [result]. *)

From Stdlib Require Import ZArith String Ascii List Bool Lia Decimal DecimalPos DecimalN.
From stdpp Require Import base option list gmap strings.

Local Open Scope string_scope.
Local Open Scope Z_scope.

(* ===================================================================== *)
(** * The JavaScript runtime, as far as the program uses it               *)
(* ===================================================================== *)

Module JS.

(** ** Values *)

Inductive number : Type :=
| NaN
| Infinity (negative : bool)
| Fin (z : Z).

Inductive JsValue : Type :=
| JUndefined
| JNull
| JBool (b : bool)
| JNum (n : number)
| JStr (s : string).

#[export] Instance number_eq_dec : EqDecision number.
Proof. solve_decision. Defined.

#[export] Instance JsValue_eq_dec : EqDecision JsValue.
Proof. solve_decision. Defined.

(** [typeof v], as the string the operator returns. *)
Definition typeof (v : JsValue) : string :=
  match v with
  | JUndefined => "undefined"
  | JNull => "object"
  | JBool _ => "boolean"
  | JNum _ => "number"
  | JStr _ => "string"
  end.

(** ** Numbers: comparison *)

(** [a < b]; every comparison with NaN is false. *)
Definition number_lt (a b : number) : bool :=
  match a, b with
  | NaN, _ | _, NaN => false
  | Infinity na, Infinity nb => na && negb nb
  | Infinity na, Fin _ => na
  | Fin _, Infinity nb => negb nb
  | Fin x, Fin y => x <? y
  end.

(** [a === b] on numbers; NaN is different from itself. *)
Definition number_eq (a b : number) : bool :=
  match a, b with
  | NaN, _ | _, NaN => false
  | Infinity na, Infinity nb => Bool.eqb na nb
  | Fin x, Fin y => x =? y
  | _, _ => false
  end.

Definition number_gt (a b : number) : bool := number_lt b a.
Definition number_le (a b : number) : bool := number_lt a b || number_eq a b.
Definition number_ge (a b : number) : bool := number_le b a.

Definition isNaN (n : number) : bool :=
  match n with NaN => true | _ => false end.

Definition isFinite (n : number) : bool :=
  match n with Fin _ => true | _ => false end.

(** The double quote. *)
Definition DQUOTE : ascii := ascii_of_nat 34.

(** ** Decimal digits *)

#[export] Instance uint_eq_dec : EqDecision uint.
Proof. solve_decision. Defined.

Fixpoint string_of_uint (d : uint) : string :=
  match d with
  | Nil => ""
  | D0 d => String "0" (string_of_uint d)
  | D1 d => String "1" (string_of_uint d)
  | D2 d => String "2" (string_of_uint d)
  | D3 d => String "3" (string_of_uint d)
  | D4 d => String "4" (string_of_uint d)
  | D5 d => String "5" (string_of_uint d)
  | D6 d => String "6" (string_of_uint d)
  | D7 d => String "7" (string_of_uint d)
  | D8 d => String "8" (string_of_uint d)
  | D9 d => String "9" (string_of_uint d)
  end.

(** The digit [c] put in front of the digits [d]; [None] when [c] is not a
    decimal digit. *)
Definition cons_digit (c : ascii) (d : uint) : option uint :=
  if Ascii.eqb c "0" then Some (D0 d)
  else if Ascii.eqb c "1" then Some (D1 d)
  else if Ascii.eqb c "2" then Some (D2 d)
  else if Ascii.eqb c "3" then Some (D3 d)
  else if Ascii.eqb c "4" then Some (D4 d)
  else if Ascii.eqb c "5" then Some (D5 d)
  else if Ascii.eqb c "6" then Some (D6 d)
  else if Ascii.eqb c "7" then Some (D7 d)
  else if Ascii.eqb c "8" then Some (D8 d)
  else if Ascii.eqb c "9" then Some (D9 d)
  else None.

Definition is_digit (c : ascii) : bool :=
  match cons_digit c Nil with Some _ => true | None => false end.

(** The whole string as a sequence of digits. *)
Fixpoint uint_of_string (s : string) : option uint :=
  match s with
  | "" => Some Nil
  | String c s' =>
      match uint_of_string s' with
      | Some d => cons_digit c d
      | None => None
      end
  end.

Definition string_of_N (n : N) : string := string_of_uint (N.to_uint n).

Definition string_of_Z (z : Z) : string :=
  match z with
  | Z0 => "0"
  | Zpos p => string_of_N (Npos p)
  | Zneg p => String "-" (string_of_N (Npos p))
  end.

(** ** Conversions *)

(** [String(v)]: the abstract operation ToString.  (JavaScript prints an
    integer of magnitude [10^21] or more with an exponent; the model prints
    all its digits.) *)
Definition number_to_string (n : number) : string :=
  match n with
  | NaN => "NaN"
  | Infinity false => "Infinity"
  | Infinity true => "-Infinity"
  | Fin z => string_of_Z z
  end.

Definition ToString (v : JsValue) : string :=
  match v with
  | JUndefined => "undefined"
  | JNull => "null"
  | JBool true => "true"
  | JBool false => "false"
  | JNum n => number_to_string n
  | JStr s => s
  end.

(** White space and line terminators that [Number] strips from both ends of
    a string (TAB, LF, VT, FF, CR, SP, NBSP). *)
Definition is_white_space (c : ascii) : bool :=
  let n := nat_of_ascii c in
  ((9 <=? n) && (n <=? 13) || (n =? 32) || (n =? 160))%nat.

Fixpoint trim_start (s : string) : string :=
  match s with
  | String c s' => if is_white_space c then trim_start s' else s
  | "" => ""
  end.

Fixpoint trim_end (s : string) : string :=
  match s with
  | "" => ""
  | String c s' =>
      match trim_end s' with
      | "" => if is_white_space c then "" else String c ""
      | t => String c t
      end
  end.

Definition trim (s : string) : string := trim_end (trim_start s).

(** An unsigned decimal integer literal or [Infinity]. *)
Definition unsigned_literal (s : string) : option number :=
  if String.eqb s "Infinity" then Some (Infinity false)
  else match s with
       | "" => None
       | _ => match uint_of_string s with
              | Some d => Some (Fin (Z.of_N (N.of_uint d)))
              | None => None
              end
       end.

Definition number_neg (n : number) : number :=
  match n with
  | NaN => NaN
  | Infinity b => Infinity (negb b)
  | Fin z => Fin (- z)
  end.

(** [Number(s)] on a string: the empty (or blank) string is 0, a signed
    decimal integer is its value, a signed [Infinity] is infinite and text
    that is not a numeric literal is NaN.  Literals with a fraction, an
    exponent or a radix prefix denote numbers outside [number]; they are not
    part of the model. *)
Definition StringToNumber (s : string) : number :=
  match trim s with
  | "" => Fin 0
  | String c t as u =>
      let r := if Ascii.eqb c "-" then option_map number_neg (unsigned_literal t)
               else if Ascii.eqb c "+" then unsigned_literal t
               else unsigned_literal u in
      match r with Some n => n | None => NaN end
  end.

(** [Number(v)]: the abstract operation ToNumber. *)
Definition ToNumber (v : JsValue) : number :=
  match v with
  | JUndefined => NaN
  | JNull => Fin 0
  | JBool true => Fin 1
  | JBool false => Fin 0
  | JNum n => n
  | JStr s => StringToNumber s
  end.

(** Truthiness: ToBoolean. *)
Definition ToBoolean (v : JsValue) : bool :=
  match v with
  | JUndefined | JNull => false
  | JBool b => b
  | JNum NaN => false
  | JNum (Fin z) => negb (z =? 0)
  | JNum (Infinity _) => true
  | JStr s => negb (String.eqb s "")
  end.

(** [a || b] and [a ?? b]. *)
Definition or_else (a b : JsValue) : JsValue := if ToBoolean a then a else b.

Definition nullish (v : JsValue) : bool :=
  match v with JUndefined | JNull => true | _ => false end.

Definition coalesce (a b : JsValue) : JsValue := if nullish a then b else a.

(** [a === b]. *)
Definition strict_equals (a b : JsValue) : bool :=
  match a, b with
  | JUndefined, JUndefined => true
  | JNull, JNull => true
  | JBool x, JBool y => Bool.eqb x y
  | JNum x, JNum y => number_eq x y
  | JStr x, JStr y => String.eqb x y
  | _, _ => false
  end.

(** [s.includes(t)]: [t] occurs in [s] at some position. *)
Fixpoint includes (s t : string) : bool :=
  String.prefix t s ||
  match s with
  | "" => false
  | String _ s' => includes s' t
  end.

(** [s.length]. *)
Definition str_length (s : string) : number := Fin (Z.of_nat (String.length s)).

(** ** Exceptions *)

Inductive Exception : Type :=
| SyntaxError (what : string).

Inductive result (A : Type) : Type :=
| Ok (a : A)
| Throw (e : Exception).
Arguments Ok {A} a.
Arguments Throw {A} e.

#[export] Instance result_ret : MRet result := fun A a => Ok a.

#[export] Instance result_bind : MBind result := fun A B k r =>
  match r with
  | Ok a => k a
  | Throw e => Throw e
  end.

End JS.

Export JS.

(** ** Regular expressions

    The program hands the patterns of [regex] rules to the runtime's
    [RegExp].  The engine is an interface: [RegExp_new p] is [new RegExp(p)],
    which throws a [SyntaxError] when the pattern is malformed, and
    [RegExp_test r s] is [r.test(s)]. *)

Class RegExpEngine : Type := {
  RegExp : Type;
  RegExp_new : string -> result RegExp;
  RegExp_test : RegExp -> string -> bool
}.

(** A small engine for a fragment of the pattern syntax: characters, [.],
    the escapes [\d \w \s \D \W \S \n \t \r] and escaped punctuation,
    classes [[...]] with ranges and negation, groups [(...)], alternation
    [|], the quantifiers [* + ?] and the assertions [^ $].  It runs the
    examples of this file; the theorems hold for every engine.  A pattern
    outside the fragment (a brace quantifier, a lookahead, a back-reference)
    is refused here although a browser compiles it. *)
Module MiniRegExp.

Inductive re : Type :=
| REmpty
| RChar (c : ascii)
| RAny
| RSet (negated : bool) (ranges : list (ascii * ascii))
| RBol
| REol
| RSeq (a b : re)
| RAlt (a b : re)
| RStar (a : re).

Definition in_range (c : ascii) (r : ascii * ascii) : bool :=
  ((nat_of_ascii r.1 <=? nat_of_ascii c) && (nat_of_ascii c <=? nat_of_ascii r.2))%nat.

Definition in_set (negated : bool) (ranges : list (ascii * ascii)) (c : ascii) : bool :=
  xorb negated (existsb (in_range c) ranges).

Definition digits : list (ascii * ascii) := [("0", "9")]%char.
Definition word : list (ascii * ascii) :=
  [("a", "z"); ("A", "Z"); ("0", "9"); ("_", "_")]%char.
Definition space : list (ascii * ascii) :=
  [(ascii_of_nat 9, ascii_of_nat 13); (" ", " ")%char; (ascii_of_nat 160, ascii_of_nat 160)].

(** Backtracking match of [r] at the head of [s]; [bol] tells whether [s] is
    the whole input, and [k] is what must match afterwards. *)
Fixpoint matches (r : re) (bol : bool) (s : string) (k : bool -> string -> bool) : bool :=
  match r with
  | REmpty => k bol s
  | RChar c =>
      match s with
      | String c' s' => Ascii.eqb c c' && k false s'
      | "" => false
      end
  | RAny =>
      match s with
      | String c' s' =>
          negb (Ascii.eqb c' (ascii_of_nat 10)) && negb (Ascii.eqb c' (ascii_of_nat 13))
          && k false s'
      | "" => false
      end
  | RSet negated ranges =>
      match s with
      | String c' s' => in_set negated ranges c' && k false s'
      | "" => false
      end
  | RBol => bol && k bol s
  | REol => match s with "" => k bol s | _ => false end
  | RSeq a b => matches a bol s (fun bol' s' => matches b bol' s' k)
  | RAlt a b => matches a bol s k || matches b bol s k
  | RStar a =>
      (fix star (n : nat) (bol : bool) (s : string) : bool :=
         k bol s ||
         match n with
         | O => false
         | S n' =>
             matches a bol s (fun bol' s' =>
               (String.length s' <? String.length s)%nat && star n' bol' s')
         end) (String.length s) bol s
  end.

(** [r.test(s)]: a match starting at some position of [s]. *)
Fixpoint search (r : re) (bol : bool) (s : string) : bool :=
  matches r bol s (fun _ _ => true) ||
  match s with
  | String _ s' => search r false s'
  | "" => false
  end.

Definition is_syntax_char (c : ascii) : bool :=
  existsb (Ascii.eqb c) (list_ascii_of_string "()[]{}|*+?.^$\/-").

Definition parse_escape (p : string) : option (re * string) :=
  match p with
  | "" => None
  | String c p' =>
      if Ascii.eqb c "d" then Some (RSet false digits, p')
      else if Ascii.eqb c "D" then Some (RSet true digits, p')
      else if Ascii.eqb c "w" then Some (RSet false word, p')
      else if Ascii.eqb c "W" then Some (RSet true word, p')
      else if Ascii.eqb c "s" then Some (RSet false space, p')
      else if Ascii.eqb c "S" then Some (RSet true space, p')
      else if Ascii.eqb c "n" then Some (RChar (ascii_of_nat 10), p')
      else if Ascii.eqb c "t" then Some (RChar (ascii_of_nat 9), p')
      else if Ascii.eqb c "r" then Some (RChar (ascii_of_nat 13), p')
      else if is_syntax_char c then Some (RChar c, p')
      else None
  end.

(** One class atom: a character or an escaped punctuation character. *)
Definition parse_class_atom (p : string) : option (ascii * string) :=
  match p with
  | "" => None
  | String c p' =>
      if Ascii.eqb c "\" then
        match p' with
        | String e q => if is_syntax_char e then Some (e, q) else None
        | "" => None
        end
      else Some (c, p')
  end.

(** The items of a class up to its closing bracket. *)
Fixpoint parse_class (fuel : nat) (p : string) : option (list (ascii * ascii) * string) :=
  match fuel with
  | O => None
  | S fuel' =>
      match p with
      | "" => None
      | String c p' =>
          if Ascii.eqb c "]" then Some ([], p')
          else
            match parse_class_atom p with
            | None => None
            | Some (lo, q) =>
                match q with
                | String "-" (String hi q' as q1) =>
                    if Ascii.eqb hi "]" then
                      item ← Some (lo, lo); rest ← parse_class fuel' q;
                      Some (item :: rest.1, rest.2)
                    else
                      match parse_class_atom q1 with
                      | None => None
                      | Some (hi', q'') =>
                          if (nat_of_ascii lo <=? nat_of_ascii hi')%nat then
                            rest ← parse_class fuel' q'';
                            Some ((lo, hi') :: rest.1, rest.2)
                          else None
                      end
                | _ =>
                    rest ← parse_class fuel' q;
                    Some ((lo, lo) :: rest.1, rest.2)
                end
            end
      end
  end.

(** A quantifier after the atom [a], if there is one. *)
Definition parse_quantifier (a : re) (p : string) : re * string :=
  match p with
  | String "*" p' => (RStar a, p')
  | String "+" p' => (RSeq a (RStar a), p')
  | String "?" p' => (RAlt a REmpty, p')
  | _ => (a, p)
  end.

Fixpoint parse_disjunction (fuel : nat) (p : string) : option (re * string) :=
  match fuel with
  | O => None
  | S fuel' =>
      match parse_alternative fuel' p with
      | Some (a, String "|" p') =>
          b ← parse_disjunction fuel' p'; Some (RAlt a b.1, b.2)
      | other => other
      end
  end
with parse_alternative (fuel : nat) (p : string) : option (re * string) :=
  match fuel with
  | O => None
  | S fuel' =>
      match p with
      | "" => Some (REmpty, p)
      | String c p' =>
          if Ascii.eqb c "|" || Ascii.eqb c ")" then Some (REmpty, p)
          else if Ascii.eqb c "^" then
            rest ← parse_alternative fuel' p'; Some (RSeq RBol rest.1, rest.2)
          else if Ascii.eqb c "$" then
            rest ← parse_alternative fuel' p'; Some (RSeq REol rest.1, rest.2)
          else
            atom ← parse_atom fuel' p;
            let q := parse_quantifier atom.1 atom.2 in
            rest ← parse_alternative fuel' q.2;
            Some (RSeq q.1 rest.1, rest.2)
      end
  end
with parse_atom (fuel : nat) (p : string) : option (re * string) :=
  match fuel with
  | O => None
  | S fuel' =>
      match p with
      | "" => None
      | String c p' =>
          if Ascii.eqb c "(" then
            match parse_disjunction fuel' p' with
            | Some (r, String ")" rest) => Some (r, rest)
            | _ => None
            end
          else if Ascii.eqb c "[" then
            match p' with
            | String "^" q =>
                items ← parse_class (String.length p) q; Some (RSet true items.1, items.2)
            | _ =>
                items ← parse_class (String.length p) p'; Some (RSet false items.1, items.2)
            end
          else if Ascii.eqb c "\" then parse_escape p'
          else if Ascii.eqb c "." then Some (RAny, p')
          else if existsb (Ascii.eqb c) (list_ascii_of_string "*+?{") then None
          else Some (RChar c, p')
      end
  end.

(** [new RegExp(pattern)] *)
Definition compile (pattern : string) : result re :=
  match parse_disjunction (4 * String.length pattern + 4) pattern with
  | Some (r, "") => Ok r
  | _ => Throw (SyntaxError ("Invalid regular expression: /" +:+ pattern +:+ "/"))
  end.

Definition test (r : re) (s : string) : bool := search r true s.

End MiniRegExp.

#[export] Instance mini_engine : RegExpEngine := {|
  RegExp := MiniRegExp.re;
  RegExp_new := MiniRegExp.compile;
  RegExp_test := MiniRegExp.test
|}.

(* ===================================================================== *)
(** * Zod 4: the schemas the program builds and how they parse            *)
(* ===================================================================== *)

(** The repository validates with Zod 4.1 (its README).  This module follows
    the part of the library that [buildZodSchema] and [handleSubmit] reach:
    the [run] of a schema (the parse of its type, then [runChecks]), the
    checks behind [.min], [.max], [.regex] and [.refine], [ZodOptional],
    [z.object] on the keys of its shape, and the messages of the English
    locale. *)
Module Zod.

(** An issue raised while parsing.  [continue_] is the issue's [continue]
    flag: an issue without it aborts the checks that follow. *)
Record Issue : Type := mkIssue {
  code : string;
  message : string;
  continue_ : bool
}.

#[export] Instance Issue_eq_dec : EqDecision Issue.
Proof. solve_decision. Defined.

(** The checks attached to a schema by [.min], [.max], [.regex] and
    [.refine]; [error] is the message given at the call. *)
Inductive ZodCheck : Type :=
| CheckGreaterThan (value : number) (inclusive : bool) (error : string)
| CheckLessThan (value : number) (inclusive : bool) (error : string)
| CheckMinLength (minimum : number) (error : string)
| CheckMaxLength (maximum : number) (error : string)
| CheckRegex (test : string -> bool) (error : string)
| CheckCustom (fn : JsValue -> bool) (error : string).

Inductive ZodType : Type :=
| mkZod (def : ZodDef) (checks : list ZodCheck)
with ZodDef : Type :=
| DefString
| DefNumber (coerce : bool) (error : option string)
| DefBoolean
| DefOptional (innerType : ZodType).

Definition def_of (s : ZodType) : ZodDef := let 'mkZod d _ := s in d.
Definition checks_of (s : ZodType) : list ZodCheck := let 'mkZod _ cs := s in cs.

(** *** Constructors and methods *)

Definition z_string : ZodType := mkZod DefString [].
Definition z_boolean : ZodType := mkZod DefBoolean [].
(** [z.coerce.number({ message })] *)
Definition z_coerce_number (message : string) : ZodType :=
  mkZod (DefNumber true (Some message)) [].

(** [schema.check(c)]: a copy of the schema with one more check. *)
Definition check (c : ZodCheck) (schema : ZodType) : ZodType :=
  let 'mkZod d cs := schema in mkZod d (cs ++ [c]).

(** [ZodNumber.min] and [.max] are the inclusive bounds [gte] and [lte]. *)
Definition number_min (value : number) (message : string) : ZodType -> ZodType :=
  check (CheckGreaterThan value true message).
Definition number_max (value : number) (message : string) : ZodType -> ZodType :=
  check (CheckLessThan value true message).
(** [ZodString.min], [.max] and [.regex]. *)
Definition string_min (minimum : number) (message : string) : ZodType -> ZodType :=
  check (CheckMinLength minimum message).
Definition string_max (maximum : number) (message : string) : ZodType -> ZodType :=
  check (CheckMaxLength maximum message).
Definition regex (test : string -> bool) (message : string) : ZodType -> ZodType :=
  check (CheckRegex test message).
(** [schema.refine(fn, { message })] *)
Definition refine (fn : JsValue -> bool) (message : string) : ZodType -> ZodType :=
  check (CheckCustom fn message).
Definition optional (schema : ZodType) : ZodType := mkZod (DefOptional schema) [].

(** *** Parsing *)

Record Payload : Type := mkPayload {
  value : JsValue;
  issues : list Issue
}.

(** The name of a value's type in the messages of the English locale. *)
Definition parsedType (v : JsValue) : string :=
  match v with
  | JNum NaN => "NaN"
  | JNull => "null"
  | _ => typeof v
  end.

Definition invalid_type (expected : string) (error : option string) (input : JsValue)
  : Issue :=
  mkIssue "invalid_type"
    (match error with
     | Some m => m
     | None => "Invalid input: expected " +:+ expected +:+ ", received "
                 +:+ parsedType input
     end)
    false.

(** [util.aborted]: some issue does not carry [continue: true]. *)
Definition aborted (iss : list Issue) : bool :=
  existsb (fun i => negb (continue_ i)) iss.

(** [ch._zod.def.when]: the length checks run whenever the value has a
    length, the others run unless the parse is aborted. *)
Definition when (c : ZodCheck) : option (JsValue -> bool) :=
  match c with
  | CheckMinLength _ _ | CheckMaxLength _ _ =>
      Some (fun v => match v with JStr _ => true | _ => false end)
  | _ => None
  end.

(** [ch._zod.check(payload)]: the issues the check adds. *)
Definition run_check (c : ZodCheck) (v : JsValue) : list Issue :=
  match c with
  | CheckGreaterThan bound inclusive error =>
      if (if inclusive then number_le bound (ToNumber v) else number_lt bound (ToNumber v))
      then [] else [mkIssue "too_small" error true]
  | CheckLessThan bound inclusive error =>
      if (if inclusive then number_le (ToNumber v) bound else number_lt (ToNumber v) bound)
      then [] else [mkIssue "too_big" error true]
  | CheckMinLength minimum error =>
      match v with
      | JStr s => if number_ge (str_length s) minimum then []
                  else [mkIssue "too_small" error true]
      | _ => []
      end
  | CheckMaxLength maximum error =>
      match v with
      | JStr s => if number_le (str_length s) maximum then []
                  else [mkIssue "too_big" error true]
      | _ => []
      end
  | CheckRegex test error =>
      if test (ToString v) then [] else [mkIssue "invalid_format" error true]
  | CheckCustom fn error =>
      if fn v then [] else [mkIssue "custom" error true]
  end.

Fixpoint runChecks (checks : list ZodCheck) (payload : Payload) (isAborted : bool)
  : Payload :=
  match checks with
  | [] => payload
  | ch :: rest =>
      let shouldRun :=
        match when ch with
        | Some w => w (value payload)
        | None => negb isAborted
        end in
      if shouldRun then
        let new := run_check ch (value payload) in
        runChecks rest
          (mkPayload (value payload) (issues payload ++ new))
          (match new with [] => isAborted | _ => isAborted || aborted new end)
      else runChecks rest payload isAborted
  end.

(** [schema._zod.run(payload)]: the type's own parse, then its checks. *)
Fixpoint run (schema : ZodType) (input : JsValue) : Payload :=
  let 'mkZod def checks := schema in
  let parsed :=
    match def with
    | DefString =>
        match input with
        | JStr _ => mkPayload input []
        | _ => mkPayload input [invalid_type "string" None input]
        end
    | DefNumber coerce error =>
        let v := if coerce then JNum (ToNumber input) else input in
        match v with
        | JNum (Fin _) => mkPayload v []
        | _ => mkPayload v [invalid_type "number" error v]
        end
    | DefBoolean =>
        match input with
        | JBool _ => mkPayload input []
        | _ => mkPayload input [invalid_type "boolean" None input]
        end
    | DefOptional innerType =>
        match input with
        | JUndefined => mkPayload input []
        | _ => run innerType input
        end
    end in
  runChecks checks parsed (aborted (issues parsed)).

(** [z.object(shape).parse(data)] runs the schema of every key of the shape
    on [data[key]] and prefixes the issues with the key.  The result is the
    list of the issues of the [ZodError], each with the first element of its
    [path]; no issue means that [parse] returns.  The keys are visited in the
    order in which the map enumerates them: the issues of one key stay in
    their order, and the program treats the keys independently of each
    other. *)
Definition key_issues (data : gmap string JsValue) (entry : string * ZodType)
  : list (string * Issue) :=
  (fun i => (entry.1, i)) <$> issues (run entry.2 (default JUndefined (data !! entry.1))).

Definition object_parse (shape : gmap string ZodType) (data : gmap string JsValue)
  : list (string * Issue) :=
  mbind (M := list) (key_issues data) (map_to_list shape).

End Zod.

(* ===================================================================== *)
(** * The schema types ([src/types/schema.ts])                            *)
(* ===================================================================== *)

Inductive FieldType : Type :=
| Text | Textarea | Number | Select | Radio | Checkbox | Date.

#[export] Instance FieldType_eq_dec : EqDecision FieldType.
Proof. solve_decision. Defined.

Module ValidationRule.
Inductive RuleType : Type := Required | Min | Max | Regex | Custom.
(** [value] is a string, a number or [JUndefined] when absent. *)
Record t : Type := mk {
  type : RuleType;
  value : JsValue;
  message : option string
}.
End ValidationRule.

#[export] Instance RuleType_eq_dec : EqDecision ValidationRule.RuleType.
Proof. solve_decision. Defined.
#[export] Instance ValidationRule_eq_dec : EqDecision ValidationRule.t.
Proof. solve_decision. Defined.

Module ConditionalRule.
Inductive Operator : Type :=
| Equals | NotEquals | Contains | GreaterThan | LessThan.
Record t : Type := mk {
  field : string;
  operator : Operator;
  value : JsValue
}.
End ConditionalRule.

#[export] Instance Operator_eq_dec : EqDecision ConditionalRule.Operator.
Proof. solve_decision. Defined.
#[export] Instance ConditionalRule_eq_dec : EqDecision ConditionalRule.t.
Proof. solve_decision. Defined.

Module FieldOption.
Record t : Type := mk {
  label : string;
  value : string
}.
End FieldOption.

#[export] Instance FieldOption_eq_dec : EqDecision FieldOption.t.
Proof. solve_decision. Defined.

(** The union of the seven field interfaces as one record: the optional
  properties are [None] (or [JUndefined] for [defaultValue]) when absent. *)
Module FormField.
Record t : Type := mk {
  id : string;
  name : string;
  label : string;
  type : FieldType;
  helpText : option string;
  placeholder : option string;
  required : option bool;
  defaultValue : JsValue;
  validation : option (list ValidationRule.t);
  conditional : option ConditionalRule.t;
  options : option (list FieldOption.t)
}.
End FormField.

#[export] Instance FormField_eq_dec : EqDecision FormField.t.
Proof. solve_decision. Defined.

Module FormSchema.
Record t : Type := mk {
  title : string;
  description : option string;
  fields : list FormField.t
}.
End FormSchema.

#[export] Instance FormSchema_eq_dec : EqDecision FormSchema.t.
Proof. solve_decision. Defined.

(* ===================================================================== *)
(** * The form renderer ([src/components/FormRenderer.tsx])               *)
(* ===================================================================== *)

Section FormRenderer.

Context {engine : RegExpEngine}.

Import Zod.

(** ** buildZodSchema *)

(** [rule.message || fallback]: the fallback replaces a missing or empty
    message. *)
Definition message_or (rule : ValidationRule.t) (fallback : string) : string :=
  match ValidationRule.message rule with
  | Some m => if String.eqb m "" then fallback else m
  | None => fallback
  end.

(** The pattern of the date case, [/^\d{4}-\d{2}-\d{2}$/], as its [test]. *)
Definition date_pattern_test (s : string) : bool :=
  match list_ascii_of_string s with
  | [y1; y2; y3; y4; h1; m1; m2; h2; d1; d2] =>
      forallb is_digit [y1; y2; y3; y4; m1; m2; d1; d2]
      && Ascii.eqb h1 "-" && Ascii.eqb h2 "-"
  | _ => false
  end.

(** [array?.forEach(f)] where [f] updates [schema] and may throw. *)
Fixpoint forEach {A B : Type} (f : A -> B -> result A) (l : list B) (acc : A)
  : result A :=
  match l with
  | [] => Ok acc
  | x :: l' => acc' ← f acc x; forEach f l' acc'
  end.

(** The body of the [forEach] of the number case. *)
Definition number_rule (schema : ZodType) (rule : ValidationRule.t) : result ZodType :=
  match ValidationRule.value rule with
  | JNum n => (* typeof rule.value === "number" *)
      let schema :=
        if decide (ValidationRule.type rule = ValidationRule.Min)
        then number_min n (message_or rule ("Minimum value is " +:+ ToString (JNum n))) schema
        else schema in
      let schema :=
        if decide (ValidationRule.type rule = ValidationRule.Max)
        then number_max n (message_or rule ("Maximum value is " +:+ ToString (JNum n))) schema
        else schema in
      Ok schema
  | _ => Ok schema
  end.

(** The body of the [forEach] of the default case; [new RegExp] may throw. *)
Definition string_rule (schema : ZodType) (rule : ValidationRule.t) : result ZodType :=
  schema ←
    match ValidationRule.type rule, ValidationRule.value rule with
    | ValidationRule.Regex, JStr pattern => (* typeof rule.value === "string" *)
        r ← RegExp_new pattern;
        Ok (regex (RegExp_test r) (message_or rule "Invalid format") schema)
    | _, _ => Ok schema
    end;
  match ValidationRule.value rule with
  | JNum n =>
      let schema :=
        if decide (ValidationRule.type rule = ValidationRule.Min)
        then string_min n (message_or rule ("Minimum length is " +:+ ToString (JNum n))) schema
        else schema in
      let schema :=
        if decide (ValidationRule.type rule = ValidationRule.Max)
        then string_max n (message_or rule ("Maximum length is " +:+ ToString (JNum n))) schema
        else schema in
      Ok schema
  | _ => Ok schema
  end.

(** The predicates given to [refine]. *)
Definition is_true (val : JsValue) : bool := strict_equals val (JBool true).

Definition is_present (val : JsValue) : bool :=
  negb (strict_equals val (JStr "")) && negb (strict_equals val JNull)
  && negb (strict_equals val JUndefined).

Definition required_message (field : FormField.t) : string :=
  FormField.label field +:+ " is required".

Definition rules_of (field : FormField.t) : list ValidationRule.t :=
  default [] (FormField.validation field).

(** [field.required] as a condition. *)
Definition is_required (field : FormField.t) : bool :=
  default false (FormField.required field).

Definition buildZodSchema (field : FormField.t) : result ZodType :=
  schema ←
    match FormField.type field with
    | Number =>
        forEach number_rule (rules_of field)
          (z_coerce_number (FormField.label field +:+ " must be a number"))
    | Checkbox => Ok z_boolean
    | Date => Ok (regex date_pattern_test "Invalid date format" z_string)
    | _ => forEach string_rule (rules_of field) z_string
    end;
  if is_required field then
    if decide (FormField.type field = Checkbox)
    then Ok (refine is_true (required_message field) schema)
    else Ok (refine is_present (required_message field) schema)
  else Ok (optional schema).

(** ** getDefaultValues *)

Definition getDefaultValues (fields : list FormField.t) : gmap string JsValue :=
  fold_left
    (fun values field =>
       if decide (FormField.defaultValue field = JUndefined) then values
       else <[FormField.name field := FormField.defaultValue field]> values)
    fields ∅.

(** ** The component state *)

Record SubmitResult : Type := mkResult {
  success : bool;
  result_message : string
}.

Record State : Type := mkState {
  formData : gmap string JsValue;
  errors : gmap string string;
  isSubmitting : bool;
  submitResult : option SubmitResult
}.

Definition setFormData (f : gmap string JsValue -> gmap string JsValue) (st : State) : State :=
  mkState (f (formData st)) (errors st) (isSubmitting st) (submitResult st).
Definition setErrors (e : gmap string string) (st : State) : State :=
  mkState (formData st) e (isSubmitting st) (submitResult st).
Definition setIsSubmitting (b : bool) (st : State) : State :=
  mkState (formData st) (errors st) b (submitResult st).
Definition setSubmitResult (r : option SubmitResult) (st : State) : State :=
  mkState (formData st) (errors st) (isSubmitting st) r.

(** [formData[key]] *)
Definition get (data : gmap string JsValue) (key : string) : JsValue :=
  default JUndefined (data !! key).

(** [useState(() => getDefaultValues(schema.fields))] and the other initial
    states. *)
Definition initial (schema : FormSchema.t) : State :=
  mkState (getDefaultValues (FormSchema.fields schema)) ∅ false None.

(** The effect that runs after mounting and whenever [schema] changes:
    [{ ...prevData, ...getDefaultValues(schema.fields) }]. *)
Definition schema_effect (schema : FormSchema.t) (st : State) : State :=
  setFormData (fun prevData => getDefaultValues (FormSchema.fields schema) ∪ prevData) st.

Definition mount (schema : FormSchema.t) : State :=
  schema_effect schema (initial schema).

(** ** isFieldVisible *)

Definition isFieldVisible (data : gmap string JsValue) (field : FormField.t) : bool :=
  match FormField.conditional field with
  | None => true
  | Some rule =>
      let targetValue := get data (ConditionalRule.field rule) in
      let value := ConditionalRule.value rule in
      match ConditionalRule.operator rule with
      | ConditionalRule.Equals => strict_equals targetValue value
      | ConditionalRule.NotEquals => negb (strict_equals targetValue value)
      | ConditionalRule.Contains =>
          includes (ToString (or_else targetValue (JStr ""))) (ToString value)
      | ConditionalRule.GreaterThan =>
          number_gt (ToNumber targetValue) (ToNumber value)
      | ConditionalRule.LessThan =>
          number_lt (ToNumber targetValue) (ToNumber value)
      end
  end.

(** ** handleChange *)

Definition handleChange (name : string) (value : JsValue) (st : State) : State :=
  let st := setFormData (fun prev => <[name := value]> prev) st in
  let st :=
    match errors st !! name with
    | Some e => if String.eqb e "" then st else setErrors (delete name (errors st)) st
    | None => st
    end in
  setSubmitResult None st.

(** [renderField]: the value shown by an input, [formData[field.name] ?? ""]
    passed through [String]. *)
Definition displayed_value (st : State) (field : FormField.t) : string :=
  ToString (coalesce (get (formData st) (FormField.name field)) (JStr "")).

(** ** handleSubmit *)

(** The loop that fills [schemaShape]: the validator of every visible field
    under its name, a later field replacing an earlier one of the same name. *)
Definition add_field (data : gmap string JsValue) (schemaShape : gmap string ZodType)
  (field : FormField.t) : result (gmap string ZodType) :=
  if isFieldVisible data field then
    schema ← buildZodSchema field;
    Ok (<[FormField.name field := schema]> schemaShape)
  else Ok schemaShape.

Definition build_shape (data : gmap string JsValue) (fields : list FormField.t)
  : result (gmap string ZodType) :=
  forEach (add_field data) fields ∅.

(** The [catch] branch: [newErrors[err.path[0]] = err.message] for every
    issue whose first path element is truthy. *)
Definition collect_errors (issues : list (string * Issue)) : gmap string string :=
  fold_left
    (fun newErrors err =>
       if String.eqb err.1 "" then newErrors
       else <[err.1 := message err.2]> newErrors)
    issues ∅.

(** How a call of [handleSubmit] goes on up to its [await]. *)
Inductive Outcome : Type :=
| Uncaught (e : Exception) (st : State)
    (** an exception left the handler: its promise is rejected *)
| Rejected (st : State)
    (** [parse] threw a [ZodError]: the errors are recorded, nothing is sent *)
| Awaiting (st : State)
    (** [submitForm()] has been called and the handler waits for it *).

Definition handleSubmit (schema : FormSchema.t) (st : State) : Outcome :=
  let st := setSubmitResult None st in
  match build_shape (formData st) (FormSchema.fields schema) with
  | Throw e => Uncaught e st
  | Ok schemaShape =>
      match object_parse schemaShape (formData st) with
      | [] =>
          let st := setErrors ∅ st in
          let st := setIsSubmitting true st in
          Awaiting st
      | issues =>
          let st := setErrors (collect_errors issues) st in
          Rejected (setIsSubmitting false st)
      end
  end.

(** The rest of [handleSubmit] once [submitForm()] has settled with
    [result]. *)
Definition handleSubmit_settled (schema : FormSchema.t) (result : SubmitResult)
  (st : State) : State :=
  let st := setSubmitResult (Some result) st in
  let st :=
    if success result
    then setFormData (fun _ => getDefaultValues (FormSchema.fields schema)) st
    else st in
  setIsSubmitting false st.

(** ** The form as a transition system

    [calls] counts the invocations of [submitForm]; [pending] holds, oldest
    first, the calls of [handleSubmit] that wait for their [submitForm()],
    each with the schema of the render it was called in. *)
Record Form : Type := mkForm {
  schema : FormSchema.t;
  state : State;
  calls : nat;
  pending : list FormSchema.t
}.

Inductive Event : Type :=
| Edit (name : string) (value : JsValue)
| Submit                           (** the form's submit handler runs *)
| ClickSubmit                      (** the user activates the submit button *)
| Settle (result : SubmitResult)   (** the oldest pending [submitForm()] resolves *)
| SetSchema (schema : FormSchema.t).

(** The submit button carries [disabled={isSubmitting}]. *)
Definition submit_disabled (st : State) : bool := isSubmitting st.

Definition on_submit (f : Form) : Form :=
  match handleSubmit (schema f) (state f) with
  | Uncaught _ st | Rejected st => mkForm (schema f) st (calls f) (pending f)
  | Awaiting st => mkForm (schema f) st (S (calls f)) (pending f ++ [schema f])
  end.

Definition step (f : Form) (ev : Event) : Form :=
  match ev with
  | Edit name value =>
      mkForm (schema f) (handleChange name value (state f)) (calls f) (pending f)
  | Submit => on_submit f
  | ClickSubmit => if submit_disabled (state f) then f else on_submit f
  | Settle result =>
      match pending f with
      | [] => f
      | captured :: rest =>
          mkForm (schema f) (handleSubmit_settled captured result (state f))
            (calls f) rest
      end
  | SetSchema schema' =>
      mkForm schema' (schema_effect schema' (state f)) (calls f) (pending f)
  end.

Definition mounted (schema : FormSchema.t) : Form :=
  mkForm schema (mount schema) 0 [].

Definition run_events (f : Form) (evs : list Event) : Form := fold_left step evs f.

(** ** What one field's validation reports

    [check field value] validates [value] with the compiled schema of
    [field] and reports as [handleSubmit] does: the message of the last issue
    is the one displayed. *)
Inductive ValidationResult : Type :=
| Valid
| Invalid (message : string).

Definition report (iss : list Issue) : ValidationResult :=
  match last iss with
  | Some i => Invalid (message i)
  | None => Valid
  end.

Definition check_with (schema : ZodType) (value : JsValue) : ValidationResult :=
  report (issues (run schema value)).

Definition check_field (field : FormField.t) (value : JsValue) : result ValidationResult :=
  schema ← buildZodSchema field; Ok (check_with schema value).

End FormRenderer.

(* ===================================================================== *)
(** * JSON text: [JSON.stringify(value, null, 2)] and [JSON.parse]        *)
(* ===================================================================== *)

Module JSON.

(** A JSON value.  Numbers are the integers of the number model; the members
    of an object are in the order of the text. *)
#[local] Unset Elimination Schemes.
Inductive json : Type :=
| Null
| Bool (b : bool)
| Num (z : Z)
| Str (s : string)
| Arr (items : list json)
| Obj (members : list (string * json)).
#[local] Set Elimination Schemes.

(** [s] followed by [k]. *)
Fixpoint prepend (s k : string) : string :=
  match s with
  | "" => k
  | String c s' => String c (prepend s' k)
  end.

(** *** Printing

    Every printer takes the text [k] that follows what it prints. *)

Definition LF : ascii := ascii_of_nat 10.

Definition hex_digit (n : nat) : ascii :=
  nth n (list_ascii_of_string "0123456789abcdef") "0"%char.

(** QuoteJSONString, one code unit. *)
Definition quote_char (c : ascii) (k : string) : string :=
  let n := nat_of_ascii c in
  if (n =? 34)%nat then String "\" (String DQUOTE k)
  else if (n =? 92)%nat then String "\" (String "\" k)
  else if (n =? 8)%nat then String "\" (String "b" k)
  else if (n =? 9)%nat then String "\" (String "t" k)
  else if (n =? 10)%nat then String "\" (String "n" k)
  else if (n =? 12)%nat then String "\" (String "f" k)
  else if (n =? 13)%nat then String "\" (String "r" k)
  else if (n <? 32)%nat then
    prepend "\u00" (String (hex_digit (n / 16)) (String (hex_digit (n mod 16)) k))
  else String c k.

Fixpoint quote_chars (s : string) (k : string) : string :=
  match s with
  | "" => k
  | String c s' => quote_char c (quote_chars s' k)
  end.

Definition quote (s : string) (k : string) : string :=
  String DQUOTE (quote_chars s (String DQUOTE k)).

Fixpoint spaces (n : nat) (k : string) : string :=
  match n with
  | O => k
  | S n' => String " " (spaces n' k)
  end.

(** A line feed and the indentation of nesting depth [level] (the gap is two
    spaces). *)
Definition newline (level : nat) (k : string) : string :=
  String LF (spaces (2 * level) k).

(** The items of an array after the first, each printed by [pr], and the
    closing bracket; likewise the members of an object. *)
Definition print_items (pr : json -> string -> string) (level : nat) (k : string)
  : list json -> string :=
  fix items (xs : list json) : string :=
    match xs with
    | [] => newline level (String "]" k)
    | y :: ys => String "," (newline (S level) (pr y (items ys)))
    end.

Definition print_members (pr : json -> string -> string) (level : nat) (k : string)
  : list (string * json) -> string :=
  fix members (ms : list (string * json)) : string :=
    match ms with
    | [] => newline level (String "}" k)
    | (key, y) :: ms' =>
        String "," (newline (S level) (quote key (prepend ": " (pr y (members ms')))))
    end.

Fixpoint print (level : nat) (j : json) (k : string) : string :=
  match j with
  | Null => prepend "null" k
  | Bool true => prepend "true" k
  | Bool false => prepend "false" k
  | Num z => prepend (string_of_Z z) k
  | Str s => quote s k
  | Arr [] => prepend "[]" k
  | Arr (x :: xs) =>
      String "[" (newline (S level)
        (print (S level) x
           (print_items (fun y k' => print (S level) y k') level k xs)))
  | Obj [] => prepend "{}" k
  | Obj ((key, x) :: ms) =>
      String "{" (newline (S level)
        (quote key (prepend ": "
          (print (S level) x
             (print_members (fun y k' => print (S level) y k') level k ms)))))
  end.

(** [JSON.stringify(value, null, 2)] *)
Definition stringify (j : json) : string := print 0 j "".

(** Without a gap the text has no white space: the items and the members
    after the first, then the value itself. *)
Definition compact_items (pr : json -> string -> string) (k : string)
  : list json -> string :=
  fix items (xs : list json) : string :=
    match xs with
    | [] => String "]" k
    | y :: ys => String "," (pr y (items ys))
    end.

Definition compact_members (pr : json -> string -> string) (k : string)
  : list (string * json) -> string :=
  fix members (ms : list (string * json)) : string :=
    match ms with
    | [] => String "}" k
    | (key, y) :: ms' => String "," (quote key (String ":" (pr y (members ms'))))
    end.

Fixpoint compact (j : json) (k : string) : string :=
  match j with
  | Null => prepend "null" k
  | Bool true => prepend "true" k
  | Bool false => prepend "false" k
  | Num z => prepend (string_of_Z z) k
  | Str s => quote s k
  | Arr [] => prepend "[]" k
  | Arr (x :: xs) =>
      String "[" (compact x (compact_items (fun y k' => compact y k') k xs))
  | Obj [] => prepend "{}" k
  | Obj ((key, x) :: ms) =>
      String "{"
        (quote key (String ":"
          (compact x (compact_members (fun y k' => compact y k') k ms))))
  end.

(** [JSON.stringify(value)] *)
Definition stringify_compact (j : json) : string := compact j "".

(** *** Parsing *)

Definition is_ws (c : ascii) : bool :=
  let n := nat_of_ascii c in
  ((n =? 32) || (n =? 9) || (n =? 10) || (n =? 13))%nat.

Fixpoint skip_ws (s : string) : string :=
  match s with
  | String c s' => if is_ws c then skip_ws s' else s
  | "" => ""
  end.

Definition hex_value (c : ascii) : option nat :=
  let n := nat_of_ascii c in
  if ((48 <=? n) && (n <=? 57))%nat then Some (n - 48)%nat
  else if ((97 <=? n) && (n <=? 102))%nat then Some (n - 87)%nat
  else if ((65 <=? n) && (n <=? 70))%nat then Some (n - 55)%nat
  else None.

(** The characters of a string literal after its opening quote, up to the
    closing quote.  An escape [\uXXXX] above [ÿ] denotes a code unit
    outside the model and is refused. *)
Fixpoint parse_chars (s : string) : option (string * string) :=
  match s with
  | "" => None
  | String c s' =>
      if (nat_of_ascii c =? 34)%nat then Some ("", s')
      else if (nat_of_ascii c =? 92)%nat then
        match s' with
        | String e s'' =>
            let simple (c' : ascii) :=
              match parse_chars s'' with
              | Some (t, r) => Some (String c' t, r)
              | None => None
              end in
            if Ascii.eqb e DQUOTE then simple DQUOTE
            else if Ascii.eqb e "\" then simple "\"%char
            else if Ascii.eqb e "/" then simple "/"%char
            else if Ascii.eqb e "b" then simple (ascii_of_nat 8)
            else if Ascii.eqb e "f" then simple (ascii_of_nat 12)
            else if Ascii.eqb e "n" then simple (ascii_of_nat 10)
            else if Ascii.eqb e "r" then simple (ascii_of_nat 13)
            else if Ascii.eqb e "t" then simple (ascii_of_nat 9)
            else if Ascii.eqb e "u" then
              match s'' with
              | String a (String b (String h (String l r)))  =>
                  match hex_value a, hex_value b, hex_value h, hex_value l with
                  | Some 0%nat, Some 0%nat, Some hi, Some lo =>
                      match parse_chars r with
                      | Some (t, r') => Some (String (ascii_of_nat (16 * hi + lo)) t, r')
                      | None => None
                      end
                  | _, _, _, _ => None
                  end
              | _ => None
              end
            else None
        | "" => None
        end
      else if (nat_of_ascii c <? 32)%nat then None
      else
        match parse_chars s' with
        | Some (t, r) => Some (String c t, r)
        | None => None
        end
  end.

(** The longest prefix of decimal digits. *)
Fixpoint parse_digits (s : string) : uint * string :=
  match s with
  | "" => (Nil, "")
  | String c s' =>
      match cons_digit c Nil with
      | Some _ =>
          let (d, r) := parse_digits s' in
          (default d (cons_digit c d), r)
      | None => (Nil, s)
      end
  end.

Definition starts_fraction (s : string) : bool :=
  match s with
  | String c _ => Ascii.eqb c "." || Ascii.eqb c "e" || Ascii.eqb c "E"
  | "" => false
  end.

(** A number: an optional minus sign and an integer without a leading zero.
    A fraction or an exponent denotes a number outside the model and is
    refused. *)
Definition parse_number (s : string) : option (Z * string) :=
  let (negative, s1) :=
    match s with
    | String c s' => if Ascii.eqb c "-" then (true, s') else (false, s)
    | "" => (false, s)
    end in
  let (d, r) := parse_digits s1 in
  if decide (unorm d = d) then
    if starts_fraction r then None
    else
      let n := Z.of_N (N.of_uint d) in
      Some (if negative then - n else n, r)
  else None.

(** [expect word s]: [s] without its prefix [word]. *)
Fixpoint expect (word s : string) : option string :=
  match word with
  | "" => Some s
  | String c word' =>
      match s with
      | String c' s' => if Ascii.eqb c c' then expect word' s' else None
      | "" => None
      end
  end.

(** Recursive descent; [fuel] bounds the nesting and the number of items. *)
Fixpoint parse_value (fuel : nat) (s : string) : option (json * string) :=
  match fuel with
  | O => None
  | S fuel' =>
      match s with
      | "" => None
      | String c s' =>
          if Ascii.eqb c "n" then r ← expect "ull" s'; Some (Null, r)
          else if Ascii.eqb c "t" then r ← expect "rue" s'; Some (Bool true, r)
          else if Ascii.eqb c "f" then r ← expect "alse" s'; Some (Bool false, r)
          else if Ascii.eqb c DQUOTE then
            str ← parse_chars s'; Some (Str str.1, str.2)
          else if Ascii.eqb c "[" then
            match skip_ws s' with
            | "" => None
            | String c1 r as s1 =>
                if Ascii.eqb c1 "]" then Some (Arr [], r)
                else items ← parse_elements fuel' s1; Some (Arr items.1, items.2)
            end
          else if Ascii.eqb c "{" then
            match skip_ws s' with
            | "" => None
            | String c1 r as s1 =>
                if Ascii.eqb c1 "}" then Some (Obj [], r)
                else members ← parse_members fuel' s1; Some (Obj members.1, members.2)
            end
          else n ← parse_number s; Some (Num n.1, n.2)
      end
  end
with parse_elements (fuel : nat) (s : string) : option (list json * string) :=
  match fuel with
  | O => None
  | S fuel' =>
      x ← parse_value fuel' s;
      match skip_ws x.2 with
      | "" => None
      | String c r =>
          if Ascii.eqb c "," then
            xs ← parse_elements fuel' (skip_ws r); Some (x.1 :: xs.1, xs.2)
          else if Ascii.eqb c "]" then Some ([x.1], r)
          else None
      end
  end
with parse_members (fuel : nat) (s : string) : option (list (string * json) * string) :=
  match fuel with
  | O => None
  | S fuel' =>
      match s with
      | "" => None
      | String q s' =>
          if Ascii.eqb q DQUOTE then
            key ← parse_chars s';
            match skip_ws key.2 with
            | "" => None
            | String c r =>
                if Ascii.eqb c ":" then
                  x ← parse_value fuel' (skip_ws r);
                  match skip_ws x.2 with
                  | "" => None
                  | String c' r' =>
                      if Ascii.eqb c' "," then
                        ms ← parse_members fuel' (skip_ws r');
                        Some ((key.1, x.1) :: ms.1, ms.2)
                      else if Ascii.eqb c' "}" then Some ([(key.1, x.1)], r')
                      else None
                  end
                else None
            end
          else None
      end
  end.

(** [JSON.parse(text)]; [None] stands for its [SyntaxError]. *)
Definition parse (text : string) : option json :=
  x ← parse_value (String.length text) (skip_ws text);
  match skip_ws x.2 with
  | "" => Some x.1
  | _ => None
  end.

(** The value of the property [key] of a parsed object: of the last member
    with that key, as [JSON.parse] keeps the last of repeated keys. *)
Fixpoint member (key : string) (members : list (string * json)) : option json :=
  match members with
  | [] => None
  | (key', x) :: members' =>
      match member key members' with
      | Some y => Some y
      | None => if String.eqb key key' then Some x else None
      end
  end.

(** What may follow a number: not a digit, and not the start of a fraction
    or of an exponent. *)
Definition ends_number (k : string) : bool :=
  match k with
  | "" => true
  | String c _ => negb (is_digit c) && negb (starts_fraction k)
  end.

(** The number of nodes of a value, which bounds the fuel its parse needs. *)
Fixpoint size (j : json) : nat :=
  match j with
  | Arr items => S (list_sum (map (fun x => S (size x)) items))
  | Obj members => S (list_sum (map (fun m => S (size m.2)) members))
  | _ => 1
  end.

(** Induction on a value, with the property for the items of an array and
    for the members of an object. *)
Section Induction.

Variable P : json -> Prop.
Hypothesis HNull : P Null.
Hypothesis HBool : forall b, P (Bool b).
Hypothesis HNum : forall z, P (Num z).
Hypothesis HStr : forall s, P (Str s).
Hypothesis HArr : forall items, Forall P items -> P (Arr items).
Hypothesis HObj : forall members, Forall (fun m => P m.2) members -> P (Obj members).

Fixpoint json_ind (j : json) : P j :=
  match j with
  | Null => HNull
  | Bool b => HBool b
  | Num z => HNum z
  | Str s => HStr s
  | Arr items =>
      HArr items
        ((fix all (l : list json) : Forall P l :=
            match l with
            | [] => @List.Forall_nil _ P
            | x :: l' => @List.Forall_cons _ P x l' (json_ind x) (all l')
            end) items)
  | Obj members =>
      HObj members
        ((fix all (l : list (string * json)) : Forall (fun m => P m.2) l :=
            match l with
            | [] => @List.Forall_nil _ (fun m => P m.2)
            | m :: l' =>
                @List.Forall_cons _ (fun m => P m.2) m l' (json_ind m.2) (all l')
            end) members)
  end.

End Induction.

End JSON.

(* ===================================================================== *)
(** * Export and import ([src/App.tsx])                                   *)
(* ===================================================================== *)

Module App.

Import JSON.

(** ** A schema as the JSON value that [JSON.stringify] serialises

    A property whose value is [undefined] is left out, and a number that is
    not finite is written as [null].  The keys are in the order of the
    declarations of [schema.ts]; nothing below depends on that order. *)

Definition json_of_value (v : JsValue) : option json :=
  match v with
  | JUndefined => None
  | JNull => Some Null
  | JBool b => Some (Bool b)
  | JNum (Fin z) => Some (Num z)
  | JNum _ => Some Null
  | JStr s => Some (Str s)
  end.

Definition prop (key : string) (value : option json) : list (string * json) :=
  match value with
  | Some x => [(key, x)]
  | None => []
  end.

Definition field_type_name (t : FieldType) : string :=
  match t with
  | Text => "text"
  | Textarea => "textarea"
  | Number => "number"
  | Select => "select"
  | Radio => "radio"
  | Checkbox => "checkbox"
  | Date => "date"
  end.

Definition rule_type_name (t : ValidationRule.RuleType) : string :=
  match t with
  | ValidationRule.Required => "required"
  | ValidationRule.Min => "min"
  | ValidationRule.Max => "max"
  | ValidationRule.Regex => "regex"
  | ValidationRule.Custom => "custom"
  end.

Definition operator_name (o : ConditionalRule.Operator) : string :=
  match o with
  | ConditionalRule.Equals => "equals"
  | ConditionalRule.NotEquals => "notEquals"
  | ConditionalRule.Contains => "contains"
  | ConditionalRule.GreaterThan => "greaterThan"
  | ConditionalRule.LessThan => "lessThan"
  end.

Definition json_of_rule (rule : ValidationRule.t) : json :=
  Obj (prop "type" (Some (Str (rule_type_name (ValidationRule.type rule))))
       ++ prop "value" (json_of_value (ValidationRule.value rule))
       ++ prop "message" (Str <$> ValidationRule.message rule)).

Definition json_of_conditional (rule : ConditionalRule.t) : json :=
  Obj (prop "field" (Some (Str (ConditionalRule.field rule)))
       ++ prop "operator" (Some (Str (operator_name (ConditionalRule.operator rule))))
       ++ prop "value" (json_of_value (ConditionalRule.value rule))).

Definition json_of_option (option : FieldOption.t) : json :=
  Obj [("label", Str (FieldOption.label option));
       ("value", Str (FieldOption.value option))].

Definition json_of_field (field : FormField.t) : json :=
  Obj (prop "id" (Some (Str (FormField.id field)))
       ++ prop "name" (Some (Str (FormField.name field)))
       ++ prop "label" (Some (Str (FormField.label field)))
       ++ prop "helpText" (Str <$> FormField.helpText field)
       ++ prop "required" (Bool <$> FormField.required field)
       ++ prop "validation"
            ((fun rules => Arr (json_of_rule <$> rules)) <$> FormField.validation field)
       ++ prop "conditional" (json_of_conditional <$> FormField.conditional field)
       ++ prop "type" (Some (Str (field_type_name (FormField.type field))))
       ++ prop "placeholder" (Str <$> FormField.placeholder field)
       ++ prop "defaultValue" (json_of_value (FormField.defaultValue field))
       ++ prop "options"
            ((fun options => Arr (json_of_option <$> options)) <$> FormField.options field)).

Definition json_of_schema (schema : FormSchema.t) : json :=
  Obj (prop "title" (Some (Str (FormSchema.title schema)))
       ++ prop "description" (Str <$> FormSchema.description schema)
       ++ prop "fields" (Some (Arr (json_of_field <$> FormSchema.fields schema)))).

(** ** A parsed value read at the types of [schema.ts]

    [handleImport] passes the parsed value to [setSchema] as it is; the
    readers give the value as the program then sees it through the
    interfaces.  They are [None] on a value that does not have the type. *)

Definition value_of_json (x : option json) : option JsValue :=
  match x with
  | None => Some JUndefined
  | Some Null => Some JNull
  | Some (Bool b) => Some (JBool b)
  | Some (Num z) => Some (JNum (Fin z))
  | Some (Str s) => Some (JStr s)
  | Some _ => None
  end.

Definition read_string (x : option json) : option string :=
  match x with
  | Some (Str s) => Some s
  | _ => None
  end.

(** An optional property: absent, or of the type read by [read]. *)
Definition read_optional {A} (read : option json -> option A) (x : option json)
  : option (option A) :=
  match x with
  | None => Some None
  | Some _ => Some <$> read x
  end.

Definition read_bool (x : option json) : option bool :=
  match x with
  | Some (Bool b) => Some b
  | _ => None
  end.

Definition read_array {A} (read : json -> option A) (x : option json)
  : option (list A) :=
  match x with
  | Some (Arr items) => mapM read items
  | _ => None
  end.

Definition read_name {A} (name_of : A -> string) (all : list A) (x : option json)
  : option A :=
  s ← read_string x;
  list_find (fun a => name_of a = s) all ≫= fun found => Some found.2.

Definition rule_of_json (x : json) : option ValidationRule.t :=
  match x with
  | Obj ms =>
      type ← read_name rule_type_name
        [ValidationRule.Required; ValidationRule.Min; ValidationRule.Max;
         ValidationRule.Regex; ValidationRule.Custom] (member "type" ms);
      value ← value_of_json (member "value" ms);
      message ← read_optional read_string (member "message" ms);
      Some (ValidationRule.mk type value message)
  | _ => None
  end.

Definition conditional_of_json (x : option json) : option ConditionalRule.t :=
  match x with
  | Some (Obj ms) =>
      field ← read_string (member "field" ms);
      operator ← read_name operator_name
        [ConditionalRule.Equals; ConditionalRule.NotEquals; ConditionalRule.Contains;
         ConditionalRule.GreaterThan; ConditionalRule.LessThan] (member "operator" ms);
      value ← value_of_json (member "value" ms);
      Some (ConditionalRule.mk field operator value)
  | _ => None
  end.

Definition option_of_json (x : json) : option FieldOption.t :=
  match x with
  | Obj ms =>
      label ← read_string (member "label" ms);
      value ← read_string (member "value" ms);
      Some (FieldOption.mk label value)
  | _ => None
  end.

Definition field_of_json (x : json) : option FormField.t :=
  match x with
  | Obj ms =>
      id ← read_string (member "id" ms);
      name ← read_string (member "name" ms);
      label ← read_string (member "label" ms);
      type ← read_name field_type_name
        [Text; Textarea; Number; Select; Radio; Checkbox; Date] (member "type" ms);
      helpText ← read_optional read_string (member "helpText" ms);
      placeholder ← read_optional read_string (member "placeholder" ms);
      required ← read_optional read_bool (member "required" ms);
      defaultValue ← value_of_json (member "defaultValue" ms);
      validation ← read_optional (read_array rule_of_json) (member "validation" ms);
      conditional ← read_optional conditional_of_json (member "conditional" ms);
      options ← read_optional (read_array option_of_json) (member "options" ms);
      Some (FormField.mk id name label type helpText placeholder required
              defaultValue validation conditional options)
  | _ => None
  end.

Definition schema_of_json (x : json) : option FormSchema.t :=
  match x with
  | Obj ms =>
      title ← read_string (member "title" ms);
      description ← read_optional read_string (member "description" ms);
      fields ← read_array field_of_json (member "fields" ms);
      Some (FormSchema.mk title description fields)
  | _ => None
  end.

(** ** handleExport and handleImport *)

(** [dataStr], the text of the downloaded file [form-schema.json]. *)
Definition handleExport (schema : FormSchema.t) : string :=
  stringify (json_of_schema schema).

(** The value given to [setSchema]; [None] when [JSON.parse] throws (the
    schema is then left as it was). *)
Definition handleImport (text : string) : option json := parse text.

(** Export followed by import, read as a schema. *)
Definition import_schema (text : string) : option FormSchema.t :=
  handleImport text ≫= schema_of_json.

(** ** Saving and loading

    [storage] is the item of [localStorage] under [STORAGE_KEY]: its text, or
    [None] when there is none. *)

Definition DEFAULT_SCHEMA : FormSchema.t :=
  FormSchema.mk "My Custom Form"
    (Some "Build your form by adding fields on the left") [].

(** What [loadSchema] returns: the value that [JSON.parse] built, or the
    object [DEFAULT_SCHEMA] itself ([handleLoad] tells them apart by
    identity). *)
Inductive Loaded : Type :=
| Parsed (value : json)
| TheDefault.

Definition loadSchema (storage : option string) : Loaded :=
  match storage with
  | Some saved =>
      if String.eqb saved "" then TheDefault
      else match parse saved with
           | Some value => Parsed value
           | None => TheDefault
           end
  | None => TheDefault
  end.

(** The item that [handleSave] stores. *)
Definition handleSave (schema : FormSchema.t) : option string :=
  Some (stringify_compact (json_of_schema schema)).

(** [handleLoad]: the value given to [setSchema], if any, and the text of
    the alert. *)
Definition handleLoad (storage : option string) : option json * string :=
  match loadSchema storage with
  | Parsed loaded => (Some loaded, "Form loaded successfully!")
  | TheDefault => (None, "No saved form found")
  end.

(** [handleReset]: the schema and the item afterwards; [confirmed] is the
    answer to the question it asks. *)
Definition handleReset (confirmed : bool) (schema : FormSchema.t)
  (storage : option string) : FormSchema.t * option string :=
  if confirmed then (DEFAULT_SCHEMA, None) else (schema, storage).

(** ** The schemas in question *)

(** Modelled from the spec: the structural check of the Schema Model, which
    the source does not implement.  It fails if required keys are missing,
    if [type] is not in the closed set, or if a select or radio field lacks
    [options]; on a [FormSchema.t] the first two hold by typing. *)
Definition schema_model_check (schema : FormSchema.t) : bool :=
  forallb
    (fun field =>
       match FormField.type field with
       | Select | Radio => bool_decide (is_Some (FormField.options field))
       | _ => true
       end)
    (FormSchema.fields schema).

(** The numbers that a schema carries are finite. *)
Definition finite_value (v : JsValue) : bool :=
  match v with
  | JNum n => isFinite n
  | _ => true
  end.

Definition finite_field (field : FormField.t) : bool :=
  finite_value (FormField.defaultValue field)
  && forallb (fun rule => finite_value (ValidationRule.value rule))
       (default [] (FormField.validation field))
  && match FormField.conditional field with
     | Some rule => finite_value (ConditionalRule.value rule)
     | None => true
     end.

Definition finite_schema (schema : FormSchema.t) : bool :=
  forallb finite_field (FormSchema.fields schema).

End App.

(* ===================================================================== *)
(** * Array and string methods used by the editors                        *)
(* ===================================================================== *)

Module Builtins.

(** [array.findIndex(p)]: the index of the first element that satisfies
    [p], or -1. *)
Fixpoint find_index {A : Type} (p : A -> bool) (array : list A) : option nat :=
  match array with
  | [] => None
  | x :: rest => if p x then Some 0%nat else S <$> find_index p rest
  end.

Definition findIndex {A : Type} (p : A -> bool) (array : list A) : Z :=
  match find_index p array with
  | Some i => Z.of_nat i
  | None => -1
  end.

(** [array.filter((x, i) => p(x, i))], the indices counted from [i]. *)
Fixpoint filter_from {A : Type} (p : A -> nat -> bool) (i : nat) (array : list A)
  : list A :=
  match array with
  | [] => []
  | x :: rest =>
      if p x i then x :: filter_from p (S i) rest else filter_from p (S i) rest
  end.

Definition filter_index {A : Type} (p : A -> nat -> bool) (array : list A) : list A :=
  filter_from p 0 array.

(** The position that [splice] makes of its [start]: counted from the end
    when negative, and clamped to the array. *)
Definition relative_start (start : Z) (len : nat) : nat :=
  if start <? 0 then Z.to_nat (Z.max (Z.of_nat len + start) 0)
  else Z.to_nat (Z.min start (Z.of_nat len)).

(** [array.splice(start, 1)]: the element removed, if there is one at the
    position, and the array that is left. *)
Definition splice_one {A : Type} (start : Z) (array : list A) : option A * list A :=
  let i := relative_start start (length array) in
  (array !! i, delete i array).

(** [array.splice(start, 0, item)]: the array with [item] put in. *)
Definition splice_insert {A : Type} (start : Z) (item : A) (array : list A) : list A :=
  let i := relative_start start (length array) in
  take i array ++ item :: drop i array.

Definition LINE_FEED : ascii := ascii_of_nat 10.

(** [s.split(sep)] for a separator of one character: the pieces between the
    separators, of which there is at least one. *)
Fixpoint split (sep : ascii) (s : string) : list string :=
  match s with
  | "" => [""]
  | String c s' =>
      if Ascii.eqb c sep then "" :: split sep s'
      else match split sep s' with
           | piece :: pieces => String c piece :: pieces
           | [] => [String c ""]
           end
  end.

(** [pieces.join(sep)] *)
Fixpoint join (sep : ascii) (pieces : list string) : string :=
  match pieces with
  | [] => ""
  | [piece] => piece
  | piece :: rest => piece +:+ String sep (join sep rest)
  end.

(** [a || b] on strings. *)
Definition or_string (a b : string) : string := if String.eqb a "" then b else a.

End Builtins.

(** [arrayMove] of [@dnd-kit/sortable]:
    [newArray.splice(to < 0 ? newArray.length + to : to, 0,
                     newArray.splice(from, 1)[0])]
    on a copy of the array.  The arguments are evaluated from the left, so
    the length is that of the whole array.  An element [None] of the result
    is [undefined]: what [splice(from, 1)[0]] is when nothing was removed. *)
Module DndKit.

Definition arrayMove {A : Type} (array : list A) (from to : Z) : list (option A) :=
  let newArray := Some <$> array in
  let start := if to <? 0 then Z.of_nat (length newArray) + to else to in
  let (removed, newArray) := Builtins.splice_one from newArray in
  Builtins.splice_insert start (mjoin removed) newArray.

End DndKit.

(* ===================================================================== *)
(** * The validation editor ([src/components/ValidationEditor.tsx])       *)
(* ===================================================================== *)

Module ValidationEditor.

Import Builtins.

(** The component works on [value = []] when the field has no rules. *)
Definition rules (value : option (list ValidationRule.t)) : list ValidationRule.t :=
  default [] value.

Definition addRule (fieldType : FieldType) (value : option (list ValidationRule.t))
  : list ValidationRule.t :=
  let newRule :=
    ValidationRule.mk
      (if decide (fieldType = Number) then ValidationRule.Min else ValidationRule.Regex)
      (JStr "") (Some "") in
  rules value ++ [newRule].

(** [Partial<ValidationRule>]: the properties that an update carries. *)
Record Updates : Type := mkUpdates {
  new_type : option ValidationRule.RuleType;
  new_value : option JsValue;
  new_message : option string
}.

(** [{ ...rule, ...updates }] *)
Definition merge (rule : ValidationRule.t) (updates : Updates) : ValidationRule.t :=
  ValidationRule.mk
    (default (ValidationRule.type rule) (new_type updates))
    (default (ValidationRule.value rule) (new_value updates))
    (match new_message updates with
     | Some m => Some m
     | None => ValidationRule.message rule
     end).

(** [updateRule] is called with the index of a rendered rule; the array is
    left as it is at any other index. *)
Definition updateRule (index : nat) (updates : Updates)
  (value : option (list ValidationRule.t)) : list ValidationRule.t :=
  match rules value !! index with
  | Some rule => <[index := merge rule updates]> (rules value)
  | None => rules value
  end.

Definition deleteRule (index : nat) (value : option (list ValidationRule.t))
  : option (list ValidationRule.t) :=
  let newRules := filter_index (fun _ i => negb (i =? index)%nat) (rules value) in
  if (0 <? length newRules)%nat then Some newRules else None.

Definition getAvailableRuleTypes (fieldType : FieldType)
  : list ValidationRule.RuleType :=
  match fieldType with
  | Number => [ValidationRule.Min; ValidationRule.Max]
  | Text | Textarea | Date =>
      [ValidationRule.Min; ValidationRule.Max; ValidationRule.Regex]
  | _ => []
  end.

(** The handlers of the controls of the rule at [index]; [text] is
    [e.target.value]. *)
Definition onTypeChange (index : nat) (type : ValidationRule.RuleType)
  (value : option (list ValidationRule.t)) : list ValidationRule.t :=
  updateRule index (mkUpdates (Some type) None None) value.

Definition entered_value (fieldType : FieldType) (rule : ValidationRule.t)
  (text : string) : JsValue :=
  if bool_decide (ValidationRule.type rule = ValidationRule.Regex)
     || bool_decide (fieldType = Text) || bool_decide (fieldType = Textarea)
  then JStr text
  else JNum (ToNumber (JStr text)).

Definition onValueChange (fieldType : FieldType) (index : nat) (text : string)
  (value : option (list ValidationRule.t)) : list ValidationRule.t :=
  match rules value !! index with
  | Some rule =>
      updateRule index (mkUpdates None (Some (entered_value fieldType rule text)) None)
        value
  | None => rules value
  end.

Definition onMessageChange (index : nat) (text : string)
  (value : option (list ValidationRule.t)) : list ValidationRule.t :=
  updateRule index (mkUpdates None None (Some text)) value.

End ValidationEditor.

(* ===================================================================== *)
(** * The conditional editor ([src/components/ConditionalEditor.tsx])     *)
(* ===================================================================== *)

Module ConditionalEditor.

Definition handleToggle (availableFields : list FormField.t)
  (value : option ConditionalRule.t) : option ConditionalRule.t :=
  match value with
  | Some _ => None
  | None =>
      Some (ConditionalRule.mk
              (Builtins.or_string (default "" (FormField.name <$> head availableFields)) "")
              ConditionalRule.Equals (JStr ""))
  end.

(** [availableFields.find((f) => f.name === value?.field)] *)
Definition selectedField (availableFields : list FormField.t) (value : ConditionalRule.t)
  : option FormField.t :=
  List.find (fun f => String.eqb (FormField.name f) (ConditionalRule.field value))
    availableFields.

Definition selectedType (availableFields : list FormField.t) (value : ConditionalRule.t)
  : option FieldType :=
  FormField.type <$> selectedField availableFields value.

(** The operators that the selector offers. *)
Definition offered_operators (availableFields : list FormField.t)
  (value : ConditionalRule.t) : list ConditionalRule.Operator :=
  [ConditionalRule.Equals; ConditionalRule.NotEquals]
  ++ match selectedType availableFields value with
     | Some (Text | Textarea) => [ConditionalRule.Contains]
     | _ => []
     end
  ++ match selectedType availableFields value with
     | Some (Number | Date) => [ConditionalRule.GreaterThan; ConditionalRule.LessThan]
     | _ => []
     end.

Definition onFieldChange (text : string) (value : ConditionalRule.t) : ConditionalRule.t :=
  ConditionalRule.mk text (ConditionalRule.operator value) (ConditionalRule.value value).

Definition onOperatorChange (operator : ConditionalRule.Operator)
  (value : ConditionalRule.t) : ConditionalRule.t :=
  ConditionalRule.mk (ConditionalRule.field value) operator (ConditionalRule.value value).

(** The control of the comparand depends on the type of the selected field:
    a choice between [true] and [false] for a checkbox, one of the options
    for a select or radio field, and an input otherwise, whose text is made a
    number for a number field. *)
Definition entered_value (availableFields : list FormField.t)
  (value : ConditionalRule.t) (text : string) : JsValue :=
  match selectedType availableFields value with
  | Some Checkbox => JBool (String.eqb text "true")
  | Some (Select | Radio) => JStr text
  | Some Number => JNum (ToNumber (JStr text))
  | _ => JStr text
  end.

Definition onValueChange (availableFields : list FormField.t) (text : string)
  (value : ConditionalRule.t) : ConditionalRule.t :=
  ConditionalRule.mk (ConditionalRule.field value) (ConditionalRule.operator value)
    (entered_value availableFields value text).

End ConditionalEditor.

(* ===================================================================== *)
(** * The field editor ([src/components/FieldEditor.tsx])                 *)
(* ===================================================================== *)

Module FieldEditor.

Import Builtins.

(** ** The list of fields *)

(** [handleDragEnd]: the array given to [onChange], or [None] when the
    handler does not call it.  [over] is the id of the item under the dragged
    one, if any. *)
Definition handleDragEnd (fields : list FormField.t) (active : string)
  (over : option string) : option (list (option FormField.t)) :=
  match over with
  | Some over_id =>
      if String.eqb active over_id then None
      else
        let oldIndex := findIndex (fun f => String.eqb (FormField.id f) active) fields in
        let newIndex := findIndex (fun f => String.eqb (FormField.id f) over_id) fields in
        Some (DndKit.arrayMove fields oldIndex newIndex)
  | None => None
  end.

(** [addField]; [now] is [Date.now()]. *)
Definition addField (now : Z) (fields : list FormField.t) : list FormField.t :=
  let n := ToString (JNum (Fin (Z.of_nat (length fields) + 1))) in
  fields ++
  [FormField.mk ("field-" +:+ ToString (JNum (Fin now))) ("field_" +:+ n)
     ("Field " +:+ n) Text None None (Some false) JUndefined None None None].

(** [updateField] is called with the index of a rendered field. *)
Definition updateField (index : nat) (updatedField : FormField.t)
  (fields : list FormField.t) : list FormField.t :=
  <[index := updatedField]> fields.

Definition deleteField (index : nat) (fields : list FormField.t) : list FormField.t :=
  filter_index (fun _ i => negb (i =? index)%nat) fields.

(** ** The controls of one field *)

Definition is_choice (t : FieldType) : bool :=
  match t with
  | Select | Radio => true
  | _ => false
  end.

(** The type selector.  [confirmed] is the answer to the question asked when
    the field stops being a select or radio field; the result is the field
    given to [onUpdate], or [None] when the handler returns before. *)
Definition onTypeChange (confirmed : bool) (newType : FieldType) (field : FormField.t)
  : option FormField.t :=
  if is_choice (FormField.type field) && negb (is_choice newType) && negb confirmed
  then None
  else
    Some (FormField.mk (FormField.id field) (FormField.name field)
            (FormField.label field) newType (FormField.helpText field) None
            (FormField.required field) JUndefined (FormField.validation field)
            (FormField.conditional field) None).

Definition set_defaultValue (defaultValue : JsValue) (field : FormField.t) : FormField.t :=
  FormField.mk (FormField.id field) (FormField.name field) (FormField.label field)
    (FormField.type field) (FormField.helpText field) (FormField.placeholder field)
    (FormField.required field) defaultValue (FormField.validation field)
    (FormField.conditional field) (FormField.options field).

Definition set_options (options : list FieldOption.t) (field : FormField.t) : FormField.t :=
  FormField.mk (FormField.id field) (FormField.name field) (FormField.label field)
    (FormField.type field) (FormField.helpText field) (FormField.placeholder field)
    (FormField.required field) (FormField.defaultValue field)
    (FormField.validation field) (FormField.conditional field) (Some options).

Definition set_validation (validation : option (list ValidationRule.t))
  (field : FormField.t) : FormField.t :=
  FormField.mk (FormField.id field) (FormField.name field) (FormField.label field)
    (FormField.type field) (FormField.helpText field) (FormField.placeholder field)
    (FormField.required field) (FormField.defaultValue field)
    validation (FormField.conditional field) (FormField.options field).

Definition set_conditional (conditional : option ConditionalRule.t)
  (field : FormField.t) : FormField.t :=
  FormField.mk (FormField.id field) (FormField.name field) (FormField.label field)
    (FormField.type field) (FormField.helpText field) (FormField.placeholder field)
    (FormField.required field) (FormField.defaultValue field)
    (FormField.validation field) conditional (FormField.options field).

(** The control of the default value: a checkbox gives [e.target.checked],
    the input of a number field gives a number or, when empty, [undefined],
    and every other control gives its text. *)
Definition onDefaultValueChange (text : string) (checked : bool) (field : FormField.t)
  : FormField.t :=
  set_defaultValue
    (match FormField.type field with
     | Checkbox => JBool checked
     | Number => if String.eqb text "" then JUndefined else JNum (ToNumber (JStr text))
     | _ => JStr text
     end)
    field.

(** The text area of the options: one option per line that is not blank,
    [label:value] or one text for both. *)
Definition option_of_line (line : string) : FieldOption.t :=
  let trimmed := trim line in
  if includes trimmed ":" then
    match split ":" trimmed with
    | label :: valueParts =>
        let value := trim (join ":" valueParts) in
        FieldOption.mk
          (or_string (trim label) (or_string value trimmed))
          (or_string value (or_string (trim label) trimmed))
    | [] => FieldOption.mk trimmed trimmed
    end
  else FieldOption.mk trimmed trimmed.

Definition parse_options (text : string) : list FieldOption.t :=
  option_of_line <$>
    List.filter (fun line => negb (String.eqb (trim line) "")) (split LINE_FEED text).

Definition onOptionsChange (text : string) (field : FormField.t) : FormField.t :=
  set_options (parse_options text) field.

(** The text that the area shows first for the options of a select or radio
    field. *)
Definition optionsText (options : list FieldOption.t) : string :=
  join LINE_FEED
    ((fun o => FieldOption.label o +:+ ":" +:+ FieldOption.value o) <$> options).

(** The rules and the condition of a field come from their editors. *)
Definition onValidationChange (validation : option (list ValidationRule.t))
  (field : FormField.t) : FormField.t :=
  set_validation validation field.

Definition onConditionalChange (conditional : option ConditionalRule.t)
  (field : FormField.t) : FormField.t :=
  set_conditional conditional field.

(** The fields offered as targets of the condition of [field]. *)
Definition availableFields (allFields : list FormField.t) (field : FormField.t)
  : list FormField.t :=
  List.filter
    (fun f => negb (String.eqb (FormField.id f) (FormField.id field))) allFields.

End FieldEditor.

Local Open Scope list_scope.

Section Notions.

Context {engine : RegExpEngine}.

Import Zod.

(** The types compiled by the [default] case of the [switch]. *)
Definition string_typed (t : FieldType) : bool :=
  match t with
  | Text | Textarea | Select | Radio => true
  | _ => false
  end.

(** The schema before the required/optional step. *)
Definition base_schema (field : FormField.t) : result ZodType :=
  match FormField.type field with
  | Number =>
      forEach number_rule (rules_of field)
        (z_coerce_number (FormField.label field +:+ " must be a number"))
  | Checkbox => Ok z_boolean
  | Date => Ok (regex date_pattern_test "Invalid date format" z_string)
  | _ => forEach string_rule (rules_of field) z_string
  end.

Definition wrap (field : FormField.t) (schema : ZodType) : ZodType :=
  if is_required field then
    if decide (FormField.type field = Checkbox)
    then refine is_true (required_message field) schema
    else refine is_present (required_message field) schema
  else optional schema.

(** A check that is a numeric bound. *)
Definition is_bound (c : ZodCheck) : Prop :=
  match c with
  | CheckGreaterThan _ _ _ | CheckLessThan _ _ _ => True
  | _ => False
  end.

(** The legal pairs, in the words of the specification. *)
Definition legal (t : FieldType) (r : ValidationRule.RuleType) : bool :=
  match t, r with
  | Number, (ValidationRule.Min | ValidationRule.Max) => true
  | (Text | Textarea | Date),
    (ValidationRule.Min | ValidationRule.Max | ValidationRule.Regex) => true
  | _, _ => false
  end.

(** The check that a declared rule adds to the validator of a field of type
    [t]: nothing when the rule is ignored. *)
Definition applied_check (t : FieldType) (rule : ValidationRule.t)
  : result (list ZodCheck) :=
  match t with
  | Number =>
      match ValidationRule.type rule, ValidationRule.value rule with
      | ValidationRule.Min, JNum n =>
          Ok [CheckGreaterThan n true
                (message_or rule ("Minimum value is " +:+ ToString (JNum n)))]
      | ValidationRule.Max, JNum n =>
          Ok [CheckLessThan n true
                (message_or rule ("Maximum value is " +:+ ToString (JNum n)))]
      | _, _ => Ok []
      end
  | Text | Textarea | Select | Radio =>
      match ValidationRule.type rule, ValidationRule.value rule with
      | ValidationRule.Regex, JStr pattern =>
          r ← RegExp_new pattern;
          Ok [CheckRegex (RegExp_test r) (message_or rule "Invalid format")]
      | ValidationRule.Min, JNum n =>
          Ok [CheckMinLength n
                (message_or rule ("Minimum length is " +:+ ToString (JNum n)))]
      | ValidationRule.Max, JNum n =>
          Ok [CheckMaxLength n
                (message_or rule ("Maximum length is " +:+ ToString (JNum n)))]
      | _, _ => Ok []
      end
  | Checkbox | Date => Ok []
  end.

Fixpoint applied_checks (t : FieldType) (rules : list ValidationRule.t)
  : result (list ZodCheck) :=
  match rules with
  | [] => Ok []
  | rule :: rules' =>
      c ← applied_check t rule;
      cs ← applied_checks t rules';
      Ok (c ++ cs)
  end.

(** The base type of the validator and the checks it starts with. *)
Definition base_def (field : FormField.t) : ZodDef :=
  match FormField.type field with
  | Number => DefNumber true (Some (FormField.label field +:+ " must be a number"))
  | Checkbox => DefBoolean
  | _ => DefString
  end.

(** The default seeded under [name]: that of the last field of that name
    whose [defaultValue] is defined. *)
Fixpoint default_of (fields : list FormField.t) (name : string) : option JsValue :=
  match fields with
  | [] => None
  | field :: fields' =>
      match default_of fields' name with
      | Some d => Some d
      | None =>
          if decide (FormField.name field = name) then
            if decide (FormField.defaultValue field = JUndefined) then None
            else Some (FormField.defaultValue field)
          else None
      end
  end.

(** The events that reach the form through its controls: every event but a
    direct call of the submit handler. *)
Definition from_controls (ev : Event) : Prop :=
  match ev with
  | Submit => False
  | _ => True
  end.

(** Driven through its controls, the form has a submission pending exactly
    while [isSubmitting] is set, and never more than one. *)
Definition one_pending (f : Form) : Prop :=
  length (pending f) = if isSubmitting (state f) then 1%nat else 0%nat.

(** One step of the loop of [collect_errors]. *)
Definition record_error (newErrors : gmap string string) (err : string * Issue)
  : gmap string string :=
  if String.eqb err.1 "" then newErrors
  else <[err.1 := message err.2]> newErrors.

(** What the rule asks of the number [z] on a number field, and of the
    string [s] on a field of a string type; a rule that is not applied asks
    nothing. *)
Definition number_rule_holds (rule : ValidationRule.t) (z : Z) : bool :=
  match ValidationRule.type rule, ValidationRule.value rule with
  | ValidationRule.Min, JNum n => number_le n (Fin z)
  | ValidationRule.Max, JNum n => number_le (Fin z) n
  | _, _ => true
  end.

Definition string_rule_holds (rule : ValidationRule.t) (s : string) : bool :=
  match ValidationRule.type rule, ValidationRule.value rule with
  | ValidationRule.Regex, JStr pattern =>
      match RegExp_new pattern with
      | Ok r => RegExp_test r s
      | Throw _ => false
      end
  | ValidationRule.Min, JNum n => number_ge (str_length s) n
  | ValidationRule.Max, JNum n => number_le (str_length s) n
  | _, _ => true
  end.

(** The message with which a rule that is applied to a field of type [t]
    reports: its own, or the default of its kind. *)
Definition rule_message (t : FieldType) (rule : ValidationRule.t) : string :=
  match ValidationRule.value rule with
  | JNum n =>
      message_or rule
        ((match t, ValidationRule.type rule with
          | Number, ValidationRule.Min => "Minimum value is "
          | Number, _ => "Maximum value is "
          | _, ValidationRule.Min => "Minimum length is "
          | _, _ => "Maximum length is "
          end) +:+ ToString (JNum n))
  | _ => message_or rule "Invalid format"
  end.

(** The name that [addField] gives to the field added to [n] fields. *)
Definition nth_name (n : nat) : string :=
  "field_" +:+ ToString (JNum (Fin (Z.of_nat n + 1))).

(** The character [c] occurs in [s]. *)
Fixpoint occurs (c : ascii) (s : string) : bool :=
  match s with
  | "" => false
  | String c' s' => Ascii.eqb c' c || occurs c s'
  end.

(** An option that the text area of the options can hold on one line: label
    and value are not empty, have no white space around them and no line
    feed, and the label has no colon. *)
Definition on_one_line (o : FieldOption.t) : Prop :=
  let l := FieldOption.label o in
  let v := FieldOption.value o in
  l <> "" /\ trim l = l /\ occurs ":" l = false /\
  occurs Builtins.LINE_FEED l = false /\
  v <> "" /\ trim v = v /\ occurs Builtins.LINE_FEED v = false.

End Notions.

(* ===================================================================== *)
(** * Example fields and schemas                                          *)
(* ===================================================================== *)

Module Examples.

Definition field (name : string) (type : FieldType) (required : bool)
  (rules : list ValidationRule.t) : FormField.t :=
  FormField.mk ("field-" +:+ name) name name type None None (Some required)
    JUndefined (Some rules) None None.

Definition rule (type : ValidationRule.RuleType) (value : JsValue)
  : ValidationRule.t :=
  ValidationRule.mk type value None.

(** Scenario 1 of the specification: a required age of at least 18. *)
Definition age : FormField.t :=
  field "age" Number true
    [ValidationRule.mk ValidationRule.Min (JNum (Fin 18)) (Some "Must be 18+")].

Definition quantity : FormField.t := field "quantity" Number true [].

Definition full_name : FormField.t :=
  field "full_name" Text true [rule ValidationRule.Min (JNum (Fin 3))].

Definition terms : FormField.t := field "terms" Checkbox true [].

Definition nickname : FormField.t :=
  field "nickname" Text false [rule ValidationRule.Min (JNum (Fin 3))].

(** A select field that kept a pattern rule (the editor keeps the rules of
    a field whose type is changed). *)
Definition choice : FormField.t :=
  field "choice" Select false [rule ValidationRule.Regex (JStr "^a")].

Definition choice_without_rules : FormField.t := field "choice" Select false [].

(** A text field whose pattern has an unterminated group. *)
Definition code : FormField.t :=
  field "code" Text false [rule ValidationRule.Regex (JStr "(")].

Definition signup : FormSchema.t :=
  FormSchema.mk "Sign up" None [full_name; code].

(** A field with a default value, and the schema before and after the
    editor adds a second field. *)
Definition city : FormField.t :=
  FormField.mk "field-city" "city" "City" Text None None None
    (JStr "Paris") None None None.

Definition street : FormField.t :=
  FormField.mk "field-street" "street" "Street" Text None None None
    JUndefined None None None.

(** Scenario 6 of the specification: a text field, a select with two
    options and a checkbox that is checked by default. *)
Definition plan : FormField.t :=
  FormField.mk "field-2" "plan" "Plan" Select None (Some "Choose") (Some true)
    (JStr "free") None None
    (Some [FieldOption.mk "Free" "free"; FieldOption.mk "Pro" "pro"]).

Definition newsletter : FormField.t :=
  FormField.mk "field-3" "newsletter" "Newsletter" Checkbox None None None
    (JBool true) None None None.

Definition survey : FormSchema.t :=
  FormSchema.mk "Survey" (Some "Three fields") [full_name; plan; newsletter].

(** A number field whose default is not a finite number. *)
Definition budget : FormField.t :=
  FormField.mk "field-budget" "budget" "Budget" Number None None None
    (JNum NaN) None None None.

Definition unbounded : FormSchema.t := FormSchema.mk "Budget" None [budget].

Definition address_v1 : FormSchema.t := FormSchema.mk "Address" None [city].
Definition address_v2 : FormSchema.t := FormSchema.mk "Address" None [city; street].

(** A field shown under a condition on the field named [target]. *)
Definition dependent (target : string) (operator : ConditionalRule.Operator)
  (value : JsValue) : FormField.t :=
  FormField.mk "field-dependent" "dependent" "Dependent" Text None None None
    JUndefined None (Some (ConditionalRule.mk target operator value)) None.

(** A required date, a name of three to eight characters and a rating from
    one to five that may be left out. *)
Definition birthday : FormField.t := field "birthday" Date true [].

Definition username : FormField.t :=
  field "username" Text true
    [rule ValidationRule.Min (JNum (Fin 3)); rule ValidationRule.Max (JNum (Fin 8))].

Definition rating : FormField.t :=
  field "rating" Number false
    [rule ValidationRule.Min (JNum (Fin 1)); rule ValidationRule.Max (JNum (Fin 5))].

(** A required name and a field that is shown for one country only. *)
Definition guarded : FormSchema.t :=
  FormSchema.mk "Guarded" None
    [full_name; dependent "country" ConditionalRule.Equals (JStr "US")].

(** The states in which the submit attempts of the freshly mounted forms
    [survey] and [guarded] end: the name is missing. *)
Definition survey_rejected : State :=
  mkState (formData (mount survey))
    {["full_name" := "Invalid input: expected string, received undefined"]} false None.

Definition guarded_rejected : State :=
  mkState ∅
    {["full_name" := "Invalid input: expected string, received undefined"]} false None.

(** The field [plan] once the editor has made it a text field. *)
Definition plan_as_text : FormField.t :=
  FormField.mk "field-2" "plan" "Plan" Text None None (Some true) JUndefined
    None None None.

End Examples.

(* ===================================================================== *)
(** * Properties                                                          *)
(* ===================================================================== *)

(** ** Parsing with checks *)

Section ZodFacts.

Import Zod.

Lemma run_check_continuable c v : aborted (run_check c v) = false.
Proof.
  destruct c; simpl; repeat case_match; reflexivity.
Qed.

Lemma runChecks_value cs : forall p a, value (runChecks cs p a) = value p.
Proof.
  induction cs as [|c cs IH]; intros p a; simpl; [reflexivity|].
  destruct (match when c with Some w => w (value p) | None => negb a end);
    rewrite IH; reflexivity.
Qed.

(** The checks of this program never abort: the flag is the one the type's
    own parse left. *)
Lemma runChecks_app cs1 : forall cs2 p a,
  runChecks (cs1 ++ cs2) p a = runChecks cs2 (runChecks cs1 p a) a.
Proof.
  induction cs1 as [|c cs1 IH]; intros cs2 p a; simpl; [reflexivity|].
  destruct (match when c with Some w => w (value p) | None => negb a end).
  - pose proof (run_check_continuable c (value p)) as Hc.
    destruct (run_check c (value p)) as [|i l] eqn:Hr.
    + apply IH.
    + rewrite Hc, orb_false_r. apply IH.
  - apply IH.
Qed.

End ZodFacts.

(** ** The result monad and [forEach] *)

Lemma bind_Ok_inv {A B} (r : result A) (k : A -> result B) b :
  r ≫= k = Ok b -> exists a, r = Ok a /\ k a = Ok b.
Proof. destruct r as [a|e]; simpl; [eauto | discriminate]. Qed.

Ltac inv_bind H :=
  let a := fresh "a" in
  let Ha := fresh "Ha" in
  apply bind_Ok_inv in H; destruct H as (a & Ha & H).

(** An invariant of the accumulator is kept by the loop. *)
Lemma forEach_invariant {A B} (P : A -> Prop) (f : A -> B -> result A) l :
  (forall a x a', P a -> f a x = Ok a' -> P a') ->
  forall acc acc', P acc -> forEach f l acc = Ok acc' -> P acc'.
Proof.
  intros Hf. induction l as [|x l IH]; intros acc acc' Hacc H; simpl in H.
  - by injection H as <-.
  - inv_bind H. eauto.
Qed.

(** The loop throws as soon as its body does. *)
Lemma forEach_throws {A B} (f : A -> B -> result A) l x :
  In x l ->
  (forall a, exists e, f a x = Throw e) ->
  forall acc, exists e, forEach f l acc = Throw e.
Proof.
  intros Hin Hx. induction l as [|y l IH]; intros acc; [destruct Hin|].
  simpl. destruct Hin as [->|Hin].
  - destruct (Hx acc) as [e ->]. by exists e.
  - destruct (f acc y) as [a|e]; simpl; [apply IH, Hin | by exists e].
Qed.

(** ** The compiler *)

Section Compiler.

Context {engine : RegExpEngine}.

Import Zod.

Lemma number_rule_total s rule : exists s', number_rule s rule = Ok s'.
Proof. unfold number_rule. destruct (ValidationRule.value rule); eauto. Qed.

Lemma forEach_number_rule_total rules : forall s,
  exists s', forEach number_rule rules s = Ok s'.
Proof.
  induction rules as [|r rules IH]; intros s; simpl; [eauto|].
  destruct (number_rule_total s r) as [s' ->]. apply IH.
Qed.

Lemma string_rule_def s rule s' :
  string_rule s rule = Ok s' -> def_of s' = def_of s.
Proof.
  unfold string_rule. intros H. inv_bind H.
  assert (def_of a = def_of s) as <-.
  { destruct (ValidationRule.type rule), (ValidationRule.value rule);
      try (by injection Ha as <-).
    inv_bind Ha. injection Ha as <-. by destruct s. }
  destruct (ValidationRule.value rule); try (by injection H as <-).
  injection H as <-. destruct a.
  by repeat case_decide.
Qed.

Lemma number_rule_def s rule s' :
  number_rule s rule = Ok s' -> def_of s' = def_of s.
Proof.
  unfold number_rule. intros H.
  destruct (ValidationRule.value rule); try (by injection H as <-).
  injection H as <-. destruct s. by repeat case_decide.
Qed.

Lemma buildZodSchema_unfold field :
  buildZodSchema field = (schema ← base_schema field; Ok (wrap field schema)).
Proof.
  unfold buildZodSchema, base_schema, wrap.
  destruct (FormField.type field), (is_required field); simpl;
    repeat case_match; try reflexivity;
    match goal with |- ?r ≫= _ = ?r ≫= _ => destruct r; reflexivity end.
Qed.

Lemma buildZodSchema_Ok_inv field schema :
  buildZodSchema field = Ok schema ->
  exists inner, base_schema field = Ok inner /\ schema = wrap field inner.
Proof.
  rewrite buildZodSchema_unfold. intros H. inv_bind H.
  injection H as <-. eauto.
Qed.

Lemma base_schema_def field inner :
  base_schema field = Ok inner ->
  def_of inner =
    match FormField.type field with
    | Number => DefNumber true (Some (FormField.label field +:+ " must be a number"))
    | Checkbox => DefBoolean
    | _ => DefString
    end.
Proof.
  unfold base_schema.
  destruct (FormField.type field) eqn:Ht; intros H;
    try (by injection H as <-);
    (eapply (forEach_invariant (fun s => def_of s = _)); [ | | exact H ];
     [ intros a x a' Ha Hx;
       first [ apply string_rule_def in Hx | apply number_rule_def in Hx ];
       congruence
     | reflexivity ]).
Qed.

End Compiler.

(** ** Presence and absence *)

Section Presence.

Context {engine : RegExpEngine}.

Import Zod.

(** A required field of a string base type reports the required message on
    the empty string, whatever its rules report before. *)
Lemma required_string_empty field schema :
  is_required field = true ->
  FormField.type field <> Number ->
  FormField.type field <> Checkbox ->
  buildZodSchema field = Ok schema ->
  check_with schema (JStr "") = Invalid (required_message field).
Proof.
  intros Hreq Hnum Hcb H.
  apply buildZodSchema_Ok_inv in H as (inner & Hinner & ->).
  apply base_schema_def in Hinner.
  unfold wrap. rewrite Hreq. rewrite decide_False by done.
  destruct inner as [def cs]. simpl in Hinner.
  assert (def = DefString) as -> by (destruct (FormField.type field); congruence).
  unfold check_with, refine, check. cbn [run].
  rewrite runChecks_app. cbn [runChecks when issues aborted existsb].
  rewrite runChecks_value. cbn.
  unfold report. by rewrite last_snoc.
Qed.

(** A required checkbox reports the required message when unchecked. *)
Lemma required_checkbox_false field schema :
  is_required field = true ->
  FormField.type field = Checkbox ->
  buildZodSchema field = Ok schema ->
  check_with schema (JBool false) = Invalid (required_message field).
Proof.
  intros Hreq Hcb H.
  apply buildZodSchema_Ok_inv in H as (inner & Hinner & ->).
  unfold base_schema in Hinner. rewrite Hcb in Hinner. injection Hinner as <-.
  unfold wrap. rewrite Hreq. rewrite decide_True by done. reflexivity.
Qed.

(** On a number field the value reaches the checks as a number, so the
    required refinement never raises an issue. *)
Lemma number_input_is_present n : is_present (JNum n) = true.
Proof. by destruct n. Qed.

Lemma runChecks_aborted cs : forall p,
  Forall (fun c => when c = None) cs -> runChecks cs p true = p.
Proof.
  induction cs as [|c cs IH]; intros p Hcs; simpl; [reflexivity|].
  inversion Hcs as [|? ? Hc Hcs']; subst. rewrite Hc. simpl. by apply IH.
Qed.

Lemma number_rule_bounds s rule s' :
  number_rule s rule = Ok s' ->
  Forall is_bound (checks_of s) -> Forall is_bound (checks_of s').
Proof.
  unfold number_rule. intros H Hs.
  destruct (ValidationRule.value rule); try (by injection H as <-).
  injection H as <-. destruct s as [d cs]. simpl in Hs.
  repeat case_decide; simpl; repeat (apply Forall_app; split);
    try done; by repeat constructor.
Qed.

Lemma bound_issue_code c v i :
  is_bound c -> In i (run_check c v) -> code i <> "custom".
Proof.
  destruct c; simpl; try done; intros _; repeat case_match; simpl;
    intros Hin; try done; destruct Hin as [<-|[]]; done.
Qed.

Lemma runChecks_bounds_codes cs : forall p a,
  Forall is_bound cs ->
  (forall i, In i (issues p) -> code i <> "custom") ->
  forall i, In i (issues (runChecks cs p a)) -> code i <> "custom".
Proof.
  induction cs as [|c cs IH]; intros p a Hcs Hp; simpl; [done|].
  inversion Hcs as [|? ? Hc Hcs']; subst.
  destruct (match when c with Some w => w (value p) | None => negb a end).
  - apply IH; [done|]. simpl. intros i Hi. apply in_app_or in Hi as [Hi|Hi].
    + by apply Hp.
    + by eapply bound_issue_code.
  - by apply IH.
Qed.

(** X9: the required refinement of a number field never raises an issue.
    The value reaches the checks as a number, which is never the empty
    string, [null] or [undefined]: whatever the input, no issue of the
    validator has the code [custom], so the message "<label> is required" is
    never the one of the refinement. *)
Lemma required_never_reports_on_number field schema input :
  FormField.type field = Number ->
  buildZodSchema field = Ok schema ->
  forall i, In i (issues (run schema input)) -> code i <> "custom".
Proof.
  intros Hnum H.
  apply buildZodSchema_Ok_inv in H as (inner & Hinner & ->).
  pose proof (base_schema_def _ _ Hinner) as Hdef. rewrite Hnum in Hdef.
  assert (Forall is_bound (checks_of inner)) as Hcs.
  { unfold base_schema in Hinner. rewrite Hnum in Hinner.
    eapply (forEach_invariant (fun s => Forall is_bound (checks_of s)));
      [ | | exact Hinner ]; [ | by constructor ].
    intros a x a' Ha Hx. by eapply number_rule_bounds. }
  destruct inner as [def cs]. simpl in Hdef, Hcs. subst def.
  set (msg := FormField.label field +:+ " must be a number") in *.
  assert (forall a i,
    In i (issues (runChecks cs (mkPayload (JNum (ToNumber input)) []) a)) ->
    code i <> "custom") as Hinner_ok.
  { intros a. apply runChecks_bounds_codes; [done | by intros i []]. }
  unfold wrap. destruct (is_required field).
  - rewrite decide_False by (rewrite Hnum; done).
    unfold refine, check. cbn [run].
    destruct (ToNumber input) as [| neg | z] eqn:Hn; cbn [issues aborted existsb
      invalid_type continue_ negb orb].
    + rewrite runChecks_aborted.
      * simpl. by intros i [<-|[]].
      * apply Forall_app. split; [|by repeat constructor].
        eapply Forall_impl; [exact Hcs|]. by intros [].
    + rewrite runChecks_aborted.
      * simpl. by intros i [<-|[]].
      * apply Forall_app. split; [|by repeat constructor].
        eapply Forall_impl; [exact Hcs|]. by intros [].
    + rewrite runChecks_app. cbn [runChecks when].
      rewrite runChecks_value. cbn [value negb run_check is_present].
      simpl. rewrite app_nil_r.
      replace (mkPayload (JNum (Fin z)) (issues (runChecks cs (mkPayload (JNum (Fin z)) []) false)))
        with (runChecks cs (mkPayload (JNum (Fin z)) []) false).
      * apply Hinner_ok.
      * pose proof (runChecks_value cs (mkPayload (JNum (Fin z)) []) false) as Hv.
        destruct (runChecks cs _ false) as [v iss]. simpl in Hv. by subst v.
  - unfold optional. cbn [run]. destruct input; cbn [runChecks issues];
      try (by intros i []);
      match goal with
      | |- context [ToNumber ?v] =>
          destruct (ToNumber v) as [| neg | z] eqn:Hn;
          cbn [issues aborted existsb invalid_type continue_ negb orb];
          [ rewrite runChecks_aborted;
            [ simpl; by intros i [<-|[]]
            | eapply Forall_impl; [exact Hcs|]; by intros [] ]
          | rewrite runChecks_aborted;
            [ simpl; by intros i [<-|[]]
            | eapply Forall_impl; [exact Hcs|]; by intros [] ]
          | apply Hinner_ok ]
      end.
Qed.

(** C3, as amended: for every field that is not required and whose
    validator compiles, checking the value [undefined] returns Valid,
    whatever shape rules the field declares.  (Only [undefined] counts as
    absent; an empty string goes through the declared rules.) *)
Theorem optional_undefined_is_valid field schema :
  is_required field = false ->
  buildZodSchema field = Ok schema ->
  check_with schema JUndefined = Valid.
Proof.
  intros Hreq H.
  apply buildZodSchema_Ok_inv in H as (inner & _ & ->).
  unfold wrap. by rewrite Hreq.
Qed.

End Presence.

Lemma optional_undefined_is_valid_witness :
  is_required Examples.nickname = false /\
  check_with
    (Zod.optional
       (Zod.string_min (Fin 3) "Minimum length is 3" Zod.z_string)) JUndefined
  = Valid.
Proof.
  split; [reflexivity|].
  apply (optional_undefined_is_valid Examples.nickname); reflexivity.
Defined.

(** C3, as stated, fails: a field that is not required and declares a
    minimum length rejects the empty string with the message of that rule. *)
Lemma optional_empty_string_is_checked :
  is_required Examples.nickname = false /\
  check_field Examples.nickname (JStr "") = Ok (Invalid "Minimum length is 3") /\
  check_field Examples.nickname (JStr "") <> Ok Valid.
Proof. split; [reflexivity|]. split; [reflexivity | discriminate]. Qed.

(** C1, at the failing inputs: the required age of scenario 1 reports its
    minimum rule on the empty string (coerced to 0) and on [null], a required
    number without rules accepts the empty string, [undefined] is reported as
    a coercion failure, and a required text field or checkbox that was never
    edited reports the type mismatch of the library. *)
Theorem required_empty_number_not_reported :
  check_field Examples.age (JStr "") = Ok (Invalid "Must be 18+") /\
  check_field Examples.age JNull = Ok (Invalid "Must be 18+") /\
  check_field Examples.quantity (JStr "") = Ok Valid /\
  check_field Examples.age JUndefined = Ok (Invalid "age must be a number") /\
  check_field Examples.full_name JUndefined
    = Ok (Invalid "Invalid input: expected string, received undefined") /\
  check_field Examples.terms JUndefined
    = Ok (Invalid "Invalid input: expected boolean, received undefined").
Proof. repeat split; reflexivity. Qed.

(** ** Which declared rules are applied *)

Section AppliedRules.

Context {engine : RegExpEngine}.

Import Zod.

Lemma string_rule_applied t d cs rule :
  string_typed t = true ->
  string_rule (mkZod d cs) rule
  = (c ← applied_check t rule; Ok (mkZod d (cs ++ c))).
Proof.
  intros Ht. unfold string_rule, applied_check.
  destruct t; try discriminate;
    destruct (ValidationRule.type rule), (ValidationRule.value rule); simpl;
    rewrite ?app_nil_r; try reflexivity;
    by destruct (RegExp_new _).
Qed.

Lemma number_rule_applied d cs rule :
  number_rule (mkZod d cs) rule
  = (c ← applied_check Number rule; Ok (mkZod d (cs ++ c))).
Proof.
  unfold number_rule, applied_check.
  destruct (ValidationRule.type rule), (ValidationRule.value rule); simpl;
    rewrite ?app_nil_r; reflexivity.
Qed.

Lemma forEach_applied f t rules d :
  (forall d cs rule,
     f (mkZod d cs) rule = (c ← applied_check t rule; Ok (mkZod d (cs ++ c)))) ->
  forall cs,
  forEach f rules (mkZod d cs)
  = (checks ← applied_checks t rules; Ok (mkZod d (cs ++ checks))).
Proof.
  intros Hf. induction rules as [|rule rules IH]; intros cs; simpl.
  - by rewrite app_nil_r.
  - rewrite Hf. destruct (applied_check t rule) as [c|e]; simpl; [|done].
    rewrite IH. destruct (applied_checks t rules) as [checks|e]; simpl; [|done].
    by rewrite app_assoc.
Qed.

(** C2, as amended: the compiled validator applies a declared rule exactly
    in these cases.  On a number field: [min] and [max] whose value is a
    number, as inclusive numeric bounds.  On a text, textarea, select or
    radio field: [min] and [max] whose value is a number, as bounds on the
    string length, and [regex] whose value is a string, as a pattern match.
    On a checkbox field: no declared rule.  Every other declared rule is
    ignored without an error.  The validator is the base type of the field
    with these checks in declaration order, wrapped as required or
    optional. *)
Theorem applied_rules field schema :
  FormField.type field <> Date ->
  buildZodSchema field = Ok schema ->
  exists checks,
    applied_checks (FormField.type field) (rules_of field) = Ok checks /\
    schema = wrap field (mkZod (base_def field) checks).
Proof.
  intros Hdate H.
  apply buildZodSchema_Ok_inv in H as (inner & Hinner & ->).
  unfold base_schema, base_def, z_string, z_coerce_number, z_boolean in *.
  destruct (FormField.type field) eqn:Ht; try done.
  1, 2, 4, 5:
    match type of Ht with
    | _ = ?t =>
        rewrite (forEach_applied string_rule t _ _
                   (fun d cs rule => string_rule_applied t d cs rule eq_refl))
          in Hinner
    end;
    apply bind_Ok_inv in Hinner as (checks & Hchecks & [= <-]); by exists checks.
  - rewrite (forEach_applied number_rule Number _ _ number_rule_applied) in Hinner.
    apply bind_Ok_inv in Hinner as (checks & Hchecks & [= <-]). by exists checks.
  - injection Hinner as <-. exists []. split; [|done].
    induction (rules_of field) as [|rule rules IH]; [done|].
    simpl. by rewrite IH.
Qed.

End AppliedRules.

Lemma applied_rules_witness :
  FormField.type Examples.age <> Date /\
  exists checks,
    applied_checks Number (rules_of Examples.age) = Ok checks /\
    Zod.refine is_present "age is required"
      (Zod.number_min (Fin 18) "Must be 18+" (Zod.z_coerce_number "age must be a number"))
    = wrap Examples.age (Zod.mkZod (base_def Examples.age) checks).
Proof.
  split; [discriminate|].
  apply (applied_rules Examples.age); [discriminate | reflexivity].
Defined.

(** C2, as stated, fails: select is given no legal rule kind, yet the
    validator of a select field applies a declared pattern. *)
Lemma select_applies_declared_rules :
  legal (FormField.type Examples.choice) ValidationRule.Regex = false /\
  check_field Examples.choice (JStr "b") = Ok (Invalid "Invalid format") /\
  check_field Examples.choice_without_rules (JStr "b") = Ok Valid.
Proof. repeat split; reflexivity. Qed.

(** ** Malformed patterns *)

Section MalformedPattern.

Context {engine : RegExpEngine}.

Lemma string_rule_throws s rule pattern e :
  ValidationRule.type rule = ValidationRule.Regex ->
  ValidationRule.value rule = JStr pattern ->
  RegExp_new pattern = Throw e ->
  string_rule s rule = Throw e.
Proof. unfold string_rule. by intros -> -> ->. Qed.

(** Apart from that, compiling a field never fails. *)
Lemma string_rule_compiles s rule :
  (forall pattern,
     ValidationRule.type rule = ValidationRule.Regex ->
     ValidationRule.value rule = JStr pattern ->
     exists r, RegExp_new pattern = Ok r) ->
  exists s', string_rule s rule = Ok s'.
Proof.
  intros Hrule. unfold string_rule.
  destruct (ValidationRule.type rule) eqn:Ht, (ValidationRule.value rule) eqn:Hv;
    simpl; eauto.
  destruct (Hrule s0 eq_refl eq_refl) as [r ->]. simpl. eauto.
Qed.

Lemma buildZodSchema_compiles field :
  (forall rule pattern,
     In rule (rules_of field) ->
     ValidationRule.type rule = ValidationRule.Regex ->
     ValidationRule.value rule = JStr pattern ->
     exists r, RegExp_new pattern = Ok r) ->
  exists schema, buildZodSchema field = Ok schema.
Proof.
  intros Hrules. rewrite buildZodSchema_unfold.
  assert (exists inner, base_schema field = Ok inner) as [inner ->];
    [|simpl; eauto].
  unfold base_schema.
  assert (forall s, exists s', forEach string_rule (rules_of field) s = Ok s') as Hstr.
  { revert Hrules. induction (rules_of field) as [|rule rules IH]; intros Hrules s;
      simpl; [eauto|].
    destruct (string_rule_compiles s rule) as [s' ->]; [by eauto using in_eq|].
    simpl. apply IH. eauto using in_cons. }
  destruct (FormField.type field); eauto using forEach_number_rule_total.
Qed.

(** C6, as amended: a field of type text, textarea, select or radio that
    declares a [regex] rule whose string pattern does not compile has no
    validator: [buildZodSchema] throws.  [handleSubmit] builds the validators
    before its [try] block, so when such a field is visible the submit
    attempt ends with an exception: no field error is recorded, nothing is
    submitted, and the only change of state is that the result banner is
    cleared. *)
Theorem malformed_pattern_throws field rule pattern e schema st :
  string_typed (FormField.type field) = true ->
  In rule (rules_of field) ->
  ValidationRule.type rule = ValidationRule.Regex ->
  ValidationRule.value rule = JStr pattern ->
  RegExp_new pattern = Throw e ->
  In field (FormSchema.fields schema) ->
  isFieldVisible (formData st) field = true ->
  (exists e', buildZodSchema field = Throw e') /\
  (exists e', handleSubmit schema st = Uncaught e' (setSubmitResult None st)).
Proof.
  intros Ht Hrule Hregex Hvalue Hnew Hfield Hvisible.
  assert (exists e', buildZodSchema field = Throw e') as Hbuild.
  { rewrite buildZodSchema_unfold. unfold base_schema.
    destruct (forEach_throws string_rule (rules_of field) rule Hrule
                (fun s => ex_intro _ e (string_rule_throws s _ _ _ Hregex Hvalue Hnew))
                Zod.z_string) as [e' He'].
    exists e'. destruct (FormField.type field); try discriminate; by rewrite He'. }
  split; [exact Hbuild|].
  unfold handleSubmit, build_shape. simpl.
  destruct (forEach_throws (add_field (formData st)) (FormSchema.fields schema) field
              Hfield) with (acc := (∅ : gmap string Zod.ZodType)) as [e' He'].
  { intros shape. unfold add_field. rewrite Hvisible.
    destruct Hbuild as [e' ->]. by exists e'. }
  rewrite He'. by exists e'.
Qed.

End MalformedPattern.

Lemma malformed_pattern_throws_witness :
  (exists e', buildZodSchema Examples.code = Throw e') /\
  (exists e', handleSubmit Examples.signup (mount Examples.signup)
              = Uncaught e' (setSubmitResult None (mount Examples.signup))).
Proof.
  apply (malformed_pattern_throws Examples.code
           (Examples.rule ValidationRule.Regex (JStr "(")) "("
           (SyntaxError "Invalid regular expression: /(/")).
  - reflexivity.
  - simpl. auto.
  - reflexivity.
  - reflexivity.
  - reflexivity.
  - simpl. auto.
  - reflexivity.
Defined.

(** C6, as stated, fails: with an unterminated group as its pattern the
    field has no validator at all, and the submit attempt of a form that
    shows it ends with the exception, before the empty required sibling is
    validated: no error is recorded for either field. *)
Lemma malformed_pattern_is_not_invalid_format :
  check_field Examples.code (JStr "x") <> Ok (Invalid "Invalid format") /\
  check_field Examples.code (JStr "x")
  = Throw (SyntaxError "Invalid regular expression: /(/") /\
  handleSubmit Examples.signup (mount Examples.signup)
  = Uncaught (SyntaxError "Invalid regular expression: /(/")
      (mkState ∅ ∅ false None).
Proof. split; [discriminate|]. split; reflexivity. Qed.

(** ** Visibility *)

Lemma append_cons c s t : (String c s +:+ t)%string = String c (s +:+ t).
Proof. reflexivity. Qed.

Lemma prefix_spec t : forall s,
  String.prefix t s = true <-> exists post, s = (t +:+ post)%string.
Proof.
  induction t as [|c t IH]; intros s.
  - split; [intros _; by exists s | intros _; by destruct s].
  - setoid_rewrite append_cons.
    destruct s as [|c' s]; [split; [done | by intros [post H]]|].
    simpl. destruct (Ascii.ascii_dec c c') as [->|Hne].
    + rewrite IH. split; intros [post Hpost]; exists post; congruence.
    + split; [done|]. intros [post H]. congruence.
Qed.

(** [s.includes(t)] holds exactly when [t] is a substring of [s]. *)
Lemma includes_spec s t :
  includes s t = true <-> exists pre post, s = (pre +:+ t +:+ post)%string.
Proof.
  induction s as [|c s IH]; cbn [includes].
  - rewrite orb_false_r, prefix_spec. split.
    + intros [post Hpost]. by exists ""%string, post.
    + intros (pre & post & H). destruct pre; [by exists post|discriminate].
  - rewrite orb_true_iff, prefix_spec, IH. split.
    + intros [[post Hpost] | (pre & post & ->)].
      * by exists ""%string, post.
      * by exists (String c pre), post.
    + intros (pre & post & H). destruct pre as [|c' pre].
      * left. by exists post.
      * right. rewrite append_cons in H. injection H as -> ->. by exists pre, post.
Qed.

Lemma number_lt_NaN_l n : number_lt NaN n = false.
Proof. by destruct n. Qed.

Lemma number_lt_NaN_r n : number_lt n NaN = false.
Proof. by destruct n. Qed.



(** For a target that is truthy, containment is decided on the string forms
    of target and comparand. *)
Lemma contains_truthy_target data field rule :
  FormField.conditional field = Some rule ->
  ConditionalRule.operator rule = ConditionalRule.Contains ->
  ToBoolean (get data (ConditionalRule.field rule)) = true ->
  isFieldVisible data field
  = includes (ToString (get data (ConditionalRule.field rule)))
      (ToString (ConditionalRule.value rule)).
Proof.
  intros Hrule Hop Htruthy. unfold isFieldVisible, or_else.
  by rewrite Hrule, Hop, Htruthy.
Qed.

(** Every falsy target, set or not, is replaced by the empty string. *)
Lemma contains_falsy_target data field rule :
  FormField.conditional field = Some rule ->
  ConditionalRule.operator rule = ConditionalRule.Contains ->
  ToBoolean (get data (ConditionalRule.field rule)) = false ->
  isFieldVisible data field = includes "" (ToString (ConditionalRule.value rule)).
Proof.
  intros Hrule Hop Hfalsy. unfold isFieldVisible, or_else.
  by rewrite Hrule, Hop, Hfalsy.
Qed.

(** C9, at the failing inputs: a target that is set to the number 0 or to
    [false] is replaced by the empty string before the test, so that the
    field stays hidden although the string form of the target contains the
    comparand. *)
Theorem contains_ignores_falsy_target :
  isFieldVisible {["count" := JNum (Fin 0)]}
    (Examples.dependent "count" ConditionalRule.Contains (JStr "0")) = false /\
  includes (ToString (JNum (Fin 0))) (ToString (JStr "0")) = true /\
  isFieldVisible {["agree" := JBool false]}
    (Examples.dependent "agree" ConditionalRule.Contains (JStr "false")) = false /\
  includes (ToString (JBool false)) (ToString (JStr "false")) = true.
Proof. repeat split; reflexivity. Qed.

(** ** Default values and the value map *)

Lemma fold_defaults_lookup fields : forall (values : gmap string JsValue) name,
  fold_left
    (fun values field =>
       if decide (FormField.defaultValue field = JUndefined) then values
       else <[FormField.name field := FormField.defaultValue field]> values)
    fields values !! name
  = match default_of fields name with
    | Some d => Some d
    | None => values !! name
    end.
Proof.
  induction fields as [|field fields IH]; intros values name; simpl; [done|].
  rewrite IH. destruct (default_of fields name) as [d|]; [done|].
  destruct (decide (FormField.defaultValue field = JUndefined)) as [Hd|Hd].
  - by destruct (decide (FormField.name field = name)).
  - destruct (decide (FormField.name field = name)) as [<-|Hne].
    + by rewrite lookup_insert_eq.
    + by rewrite lookup_insert_ne.
Qed.

Lemma getDefaultValues_lookup fields name :
  getDefaultValues fields !! name = default_of fields name.
Proof.
  unfold getDefaultValues. rewrite fold_defaults_lookup, lookup_empty.
  by destruct (default_of fields name).
Qed.

(** An entry exists under a name exactly when some field of that name has a
    defined default. *)
Lemma default_of_is_Some fields name :
  is_Some (default_of fields name) <->
  exists field, In field fields /\ FormField.name field = name /\
                FormField.defaultValue field <> JUndefined.
Proof.
  induction fields as [|f fields IH]; simpl.
  - split; [by intros [? [=]] | by intros (? & [] & _)].
  - destruct (default_of fields name) as [d|] eqn:Hd.
    + split; [|by eauto]. intros _.
      destruct (proj1 IH) as (field & Hin & Hname & Hdef); [by eauto|].
      exists field. auto.
    + split.
      * intros [d Hsome]. repeat case_decide; try done. exists f. auto.
      * intros (field & [<-|Hin] & Hname & Hdef).
        -- rewrite decide_True, decide_False by done. eauto.
        -- destruct (proj2 IH) as [? [=]]. eauto.
Qed.

Lemma default_of_unique fields field :
  NoDup (FormField.name <$> fields) ->
  In field fields ->
  default_of fields (FormField.name field)
  = if decide (FormField.defaultValue field = JUndefined) then None
    else Some (FormField.defaultValue field).
Proof.
  induction fields as [|f fields IH]; intros Hnodup Hin; [destruct Hin|].
  rewrite fmap_cons in Hnodup. apply NoDup_cons in Hnodup as [Hf Hnodup].
  simpl. destruct Hin as [->|Hin].
  - destruct (default_of fields (FormField.name field)) as [d|] eqn:Hd.
    + exfalso. apply Hf.
      destruct (proj1 (default_of_is_Some fields (FormField.name field)))
        as (g & Hg & Hname & _); [by eauto|].
      rewrite <- Hname. apply list_elem_of_In, in_map, Hg.
    + by rewrite decide_True.
  - rewrite (IH Hnodup Hin).
    destruct (decide (FormField.defaultValue field = JUndefined)); [|done].
    rewrite decide_False; [done|].
    intros Heq. apply Hf. rewrite Heq. apply list_elem_of_In, in_map, Hin.
Qed.

Lemma mount_formData schema :
  formData (mount schema) = getDefaultValues (FormSchema.fields schema).
Proof. unfold mount, schema_effect, initial. simpl. apply (idemp_L (∪)). Qed.

Lemma handleChange_formData name value st :
  formData (handleChange name value st) = <[name := value]> (formData st).
Proof.
  unfold handleChange. simpl.
  destruct (errors st !! name) as [e|]; [|done]. by destruct (String.eqb e "").
Qed.



(** C5, as amended: after a schema change the value map holds, under every
    name for which a field of the new schema declares a default value, that
    default (of the last such field), whatever was stored there before; every
    other entry is unchanged.  The errors, the submitting flag and the result
    banner are unchanged. *)
Theorem schema_change_reseeds_defaults schema st name :
  formData (schema_effect schema st) !! name
  = match default_of (FormSchema.fields schema) name with
    | Some d => Some d
    | None => formData st !! name
    end /\
  errors (schema_effect schema st) = errors st /\
  isSubmitting (schema_effect schema st) = isSubmitting st /\
  submitResult (schema_effect schema st) = submitResult st.
Proof.
  split; [|done]. unfold schema_effect. simpl.
  rewrite lookup_union, getDefaultValues_lookup.
  destruct (default_of (FormSchema.fields schema) name) as [d|];
    by destruct (formData st !! name).
Qed.

(** C5, as stated, fails: the user replaces the default of a field, the
    editor adds another field, and the edited value is the default again. *)
Lemma schema_change_overwrites_edit :
  let edited := run_events (mounted Examples.address_v1) [Edit "city" (JStr "Rome")] in
  formData (state edited) !! "city" = Some (JStr "Rome") /\
  formData (state (step edited (SetSchema Examples.address_v2))) !! "city"
  = Some (JStr "Paris").
Proof. split; reflexivity. Qed.

(** ** Submitting twice *)

Section Submission.

Context {engine : RegExpEngine}.

Lemma handleSubmit_isSubmitting schema st :
  match handleSubmit schema st with
  | Uncaught _ st' => isSubmitting st' = isSubmitting st
  | Rejected st' => isSubmitting st' = false
  | Awaiting st' => isSubmitting st' = true
  end.
Proof.
  unfold handleSubmit.
  destruct (build_shape _ _) as [shape|e]; [|done].
  by destruct (Zod.object_parse _ _).
Qed.

Lemma step_one_pending f ev :
  from_controls ev -> one_pending f -> one_pending (step f ev).
Proof.
  unfold one_pending. destruct ev as [name value| | |result|schema']; simpl;
    intros Hev Hf; try done.
  - unfold handleChange. simpl.
    destruct (errors (state f) !! name) as [e|]; [|done].
    by destruct (String.eqb e "").
  - unfold submit_disabled. destruct (isSubmitting (state f)) eqn:Hs; [by rewrite Hs|].
    unfold on_submit.
    pose proof (handleSubmit_isSubmitting (schema f) (state f)) as H.
    destruct (handleSubmit (schema f) (state f)); simpl;
      rewrite H, ?Hs, ?length_app, ?Hf; done.
  - destruct (pending f) as [|captured rest] eqn:Hp; [by rewrite Hp|]. simpl in *.
    destruct (isSubmitting (state f)); [by injection Hf as ->|done].
Qed.

(** X14: driven through its controls (edits, the submit button, the
    settling of a submission, a change of schema), the form has a submission
    pending exactly while [isSubmitting] is set, and never more than one. *)
Lemma controls_one_pending schema evs :
  Forall from_controls evs ->
  one_pending (run_events (mounted schema) evs).
Proof.
  unfold run_events. intros Hevs.
  assert (one_pending (mounted schema)) as Hinit by done.
  revert Hinit. generalize (mounted schema).
  induction Hevs as [|ev evs Hev Hevs IH]; intros f Hf; simpl; [done|].
  by apply IH, step_one_pending.
Qed.

(** C4, as amended: while a submission is in flight the submit control is
    disabled, so a second submit through the control changes nothing and the
    collaborator is not invoked again; the handler itself has no guard on
    the state: called while [isSubmitting] is set, on values that validate,
    it invokes the collaborator once more. *)
Theorem submit_guarded_by_control_only f :
  isSubmitting (state f) = true ->
  step f ClickSubmit = f /\
  (forall shape,
     build_shape (formData (state f)) (FormSchema.fields (schema f)) = Ok shape ->
     Zod.object_parse shape (formData (state f)) = [] ->
     calls (step f Submit) = S (calls f) /\
     pending (step f Submit) = pending f ++ [schema f]).
Proof.
  intros Hs. split.
  - simpl. unfold submit_disabled. by rewrite Hs.
  - intros shape Hshape Hparse. simpl. unfold on_submit, handleSubmit. simpl.
    by rewrite Hshape, Hparse.
Qed.

End Submission.

Lemma submit_guarded_by_control_only_witness :
  let f := step (mounted Examples.address_v1) ClickSubmit in
  isSubmitting (state f) = true /\ step f ClickSubmit = f.
Proof.
  split; [reflexivity|].
  apply (submit_guarded_by_control_only
           (step (mounted Examples.address_v1) ClickSubmit)).
  reflexivity.
Defined.

(** C4, as stated, fails: the handler called a second time while the first
    submission is in flight invokes the collaborator a second time. *)
Lemma second_submit_calls_again :
  let f := step (mounted Examples.address_v1) Submit in
  isSubmitting (state f) = true /\ calls f = 1%nat /\
  calls (step f Submit) = 2%nat /\ length (pending (step f Submit)) = 2%nat.
Proof. repeat split; reflexivity. Qed.

(** ** The errors recorded by a submit attempt *)

Section RecordedErrors.

Import Zod.

Lemma record_key_issues key iss : forall newErrors name,
  fold_left record_error ((fun i => (key, i)) <$> iss) newErrors !! name
  = if decide (name = key /\ key <> ""%string) then
      match last iss with
      | Some i => Some (message i)
      | None => newErrors !! name
      end
    else newErrors !! name.
Proof.
  induction iss as [|i iss IH]; intros newErrors name; simpl.
  - by case_decide.
  - rewrite IH. unfold record_error. simpl.
    destruct (String.eqb_spec key "") as [Hkey|Hkey].
    + subst key. by destruct (decide (name = ""%string /\ ""%string <> ""%string)) as [[_ []]|].
    + destruct (decide (name = key /\ key <> ""%string)) as [[-> _]|Hname].
      * destruct iss as [|j iss].
        -- by rewrite lookup_insert_eq.
        -- change (last (i :: j :: iss)) with (last (j :: iss)).
           destruct (last (j :: iss)) eqn:Hlast; [done|].
           by apply last_None in Hlast.
      * rewrite lookup_insert_ne; [done|]. intros <-. by apply Hname.
Qed.

Lemma record_entries_other data (entries : list (string * ZodType)) name :
  name ∉ entries.*1 ->
  forall newErrors,
  fold_left record_error (entries ≫= key_issues data) newErrors !! name
  = newErrors !! name.
Proof.
  induction entries as [|[key schema] entries IH]; intros Hname newErrors; [done|].
  rewrite fmap_cons in Hname. apply not_elem_of_cons in Hname as [Hne Hname].
  rewrite bind_cons, fold_left_app, (IH Hname).
  unfold key_issues. simpl. rewrite record_key_issues.
  by rewrite decide_False by (by intros [? _]).
Qed.

Lemma record_entries data (entries : list (string * ZodType)) name schema :
  NoDup entries.*1 ->
  (name, schema) ∈ entries ->
  forall newErrors,
  fold_left record_error (entries ≫= key_issues data) newErrors !! name
  = if decide (name = ""%string) then newErrors !! name
    else match last (issues (run schema (default JUndefined (data !! name)))) with
         | Some i => Some (message i)
         | None => newErrors !! name
         end.
Proof.
  induction entries as [|[key schema'] entries IH]; intros Hnodup Hin newErrors.
  - by apply elem_of_nil in Hin.
  - rewrite fmap_cons in Hnodup. apply NoDup_cons in Hnodup as [Hkey Hnodup].
    rewrite bind_cons, fold_left_app.
    apply elem_of_cons in Hin as [Heq|Hin].
    + injection Heq as <- <-.
      rewrite record_entries_other by done.
      unfold key_issues. simpl. rewrite record_key_issues.
      destruct (decide (name = ""%string)) as [->|Hname].
      * by rewrite (decide_False (P := ""%string = ""%string /\ ""%string <> ""%string))
          by (by intros [_ ?]).
      * by rewrite (decide_True (P := name = name /\ name <> ""%string)).
    + assert (name <> key) as Hne.
      { intros ->. apply Hkey. apply list_elem_of_fmap. by exists (key, schema). }
      rewrite (IH Hnodup Hin).
      unfold key_issues. simpl. rewrite record_key_issues.
      by rewrite (decide_False (P := name = key /\ key <> ""%string))
        by (by intros [? _]).
Qed.

(** The error shown next to a field after a rejected submit is the message
    of the last issue of its validator, which is what [check_with] reports. *)
Lemma collect_errors_lookup shape data name :
  collect_errors (object_parse shape data) !! name
  = match shape !! name with
    | Some schema =>
        if decide (name = ""%string) then None
        else match check_with schema (get data name) with
             | Invalid m => Some m
             | Valid => None
             end
    | None => None
    end.
Proof.
  unfold collect_errors, object_parse.
  change (fold_left _ ?l ∅) with (fold_left record_error l ∅).
  destruct (shape !! name) as [schema|] eqn:Hshape.
  - rewrite (record_entries _ _ _ schema);
      [ | apply NoDup_fst_map_to_list | by apply elem_of_map_to_list ].
    rewrite lookup_empty. case_decide; [done|].
    unfold check_with, report, get. by destruct (last _).
  - rewrite record_entries_other; [apply lookup_empty|].
    intros Hin. apply list_elem_of_fmap in Hin as ([k s'] & -> & Hin).
    apply elem_of_map_to_list in Hin. simpl in Hshape. congruence.
Qed.

End RecordedErrors.

Section SubmitReport.

Context {engine : RegExpEngine}.

Lemma add_fields_other data fields name : forall acc shape,
  forEach (add_field data) fields acc = Ok shape ->
  name ∉ FormField.name <$> fields ->
  shape !! name = acc !! name.
Proof.
  induction fields as [|f fields IH]; intros acc shape H Hname; simpl in H.
  - by injection H as <-.
  - rewrite fmap_cons in Hname. apply not_elem_of_cons in Hname as [Hne Hname].
    inv_bind H. rewrite (IH _ _ H Hname).
    unfold add_field in Ha. destruct (isFieldVisible data f).
    + inv_bind Ha. injection Ha as <-. by rewrite lookup_insert_ne.
    + by injection Ha as <-.
Qed.

(** The shape holds, under the name of every visible field, the validator of
    that field (the field names being distinct). *)
Lemma build_shape_lookup data fields field : forall acc shape,
  forEach (add_field data) fields acc = Ok shape ->
  NoDup (FormField.name <$> fields) ->
  In field fields ->
  isFieldVisible data field = true ->
  exists schema,
    buildZodSchema field = Ok schema /\ shape !! FormField.name field = Some schema.
Proof.
  induction fields as [|f fields IH]; intros acc shape H Hnodup Hin Hvisible;
    [destruct Hin|].
  rewrite fmap_cons in Hnodup. apply NoDup_cons in Hnodup as [Hf Hnodup].
  simpl in H. inv_bind H. destruct Hin as [->|Hin].
  - unfold add_field in Ha. rewrite Hvisible in Ha. inv_bind Ha.
    injection Ha as <-. exists a0. split; [done|].
    rewrite (add_fields_other _ _ _ _ _ H Hf). apply lookup_insert_eq.
  - by apply (IH a shape).
Qed.

(** X12: after a rejected submit, the error recorded for a visible field
    (with a name that is not empty, the names being distinct) is what the
    check of its validator reports on the field's value: the message of the
    last issue, or no error when the value is valid. *)
Lemma rejected_error_is_check schema st st' field :
  NoDup (FormField.name <$> FormSchema.fields schema) ->
  In field (FormSchema.fields schema) ->
  isFieldVisible (formData st) field = true ->
  FormField.name field <> ""%string ->
  handleSubmit schema st = Rejected st' ->
  exists validator,
    buildZodSchema field = Ok validator /\
    errors st' !! FormField.name field
    = match check_with validator (get (formData st) (FormField.name field)) with
      | Invalid m => Some m
      | Valid => None
      end.
Proof.
  intros Hnodup Hin Hvisible Hname. unfold handleSubmit. simpl.
  destruct (build_shape (formData st) (FormSchema.fields schema)) as [shape|e] eqn:Hshape;
    [|done].
  destruct (build_shape_lookup _ _ _ _ _ Hshape Hnodup Hin Hvisible)
    as (validator & Hbuild & Hlookup).
  pose proof (collect_errors_lookup shape (formData st) (FormField.name field)) as Herr.
  rewrite Hlookup, decide_False in Herr by done.
  destruct (Zod.object_parse shape (formData st)) as [|issue issues] eqn:Hparse; [done|].
  intros [= <-]. simpl. eauto.
Qed.

End SubmitReport.

(** ** JSON text: parsing what was printed *)

Section JsonRoundTrip.

Import JSON.

(** Evaluate the tests on characters that are known. *)
Ltac eval_chars :=
  repeat match goal with
         | |- context [Ascii.eqb ?a ?b] =>
             let r := eval vm_compute in (Ascii.eqb a b) in
             match r with
             | true => change (Ascii.eqb a b) with true
             | false => change (Ascii.eqb a b) with false
             end
         | |- context [is_ws ?a] =>
             let r := eval vm_compute in (is_ws a) in
             match r with
             | true => change (is_ws a) with true
             | false => change (is_ws a) with false
             end
         end;
  cbv iota.

Lemma parse_quote_char c k :
  parse_chars (quote_char c k)
  = match parse_chars k with
    | Some (t, r) => Some (String c t, r)
    | None => None
    end.
Proof.
  destruct c as [[] [] [] [] [] [] [] []]; reflexivity.
Qed.

Lemma parse_quote_chars s k :
  parse_chars (quote_chars s (String DQUOTE k)) = Some (s, k).
Proof.
  induction s as [|c s IH]; [reflexivity|].
  cbn [quote_chars]. by rewrite parse_quote_char, IH.
Qed.

Lemma parse_digits_print d k :
  ends_number k = true ->
  parse_digits (prepend (string_of_uint d) k) = (d, k).
Proof.
  intros Hk. induction d; cbn [string_of_uint prepend parse_digits];
    try (change (cons_digit _ Nil) with (Some (D0 Nil)) ||
         change (cons_digit _ Nil) with (Some (D1 Nil)) ||
         change (cons_digit _ Nil) with (Some (D2 Nil)) ||
         change (cons_digit _ Nil) with (Some (D3 Nil)) ||
         change (cons_digit _ Nil) with (Some (D4 Nil)) ||
         change (cons_digit _ Nil) with (Some (D5 Nil)) ||
         change (cons_digit _ Nil) with (Some (D6 Nil)) ||
         change (cons_digit _ Nil) with (Some (D7 Nil)) ||
         change (cons_digit _ Nil) with (Some (D8 Nil)) ||
         change (cons_digit _ Nil) with (Some (D9 Nil)));
    try (cbv iota beta; rewrite IHd; reflexivity).
  destruct k as [|c k]; [reflexivity|]. cbn [parse_digits].
  unfold ends_number, is_digit in Hk.
  by destruct (cons_digit c Nil).
Qed.

Lemma print_digits_head d k :
  d <> Nil ->
  exists c r, prepend (string_of_uint d) k = String c r /\ Ascii.eqb c "-" = false.
Proof. destruct d; [done|..]; intros _; by eexists _, _. Qed.

Lemma unorm_to_uint p : unorm (Pos.to_uint p) = Pos.to_uint p.
Proof.
  change (Pos.to_uint p) with (N.to_uint (Npos p)) at 2.
  by rewrite <- (DecimalPos.Unsigned.of_to p), DecimalPos.Unsigned.to_of.
Qed.

Lemma ends_number_fraction k : ends_number k = true -> starts_fraction k = false.
Proof.
  destruct k as [|c k]; [done|]. unfold ends_number.
  by destruct (starts_fraction (String c k)), (is_digit c).
Qed.

Lemma parse_unsigned_print p k :
  ends_number k = true ->
  parse_digits (prepend (string_of_uint (Pos.to_uint p)) k) = (Pos.to_uint p, k) /\
  Z.of_N (N.of_uint (Pos.to_uint p)) = Zpos p.
Proof.
  intros Hk. split; [by apply parse_digits_print|].
  unfold N.of_uint. by rewrite DecimalPos.Unsigned.of_to.
Qed.

Lemma parse_number_print z k :
  ends_number k = true ->
  parse_number (prepend (string_of_Z z) k) = Some (z, k).
Proof.
  intros Hk. pose proof (ends_number_fraction k Hk) as Hfrac.
  destruct z as [|p|p]; unfold parse_number, string_of_Z, string_of_N.
  - change (prepend "0" k) with (prepend (string_of_uint (D0 Nil)) k).
    cbn [prepend string_of_uint]. change (Ascii.eqb "0" "-") with false.
    cbv iota.
    change (String "0" k) with (prepend (string_of_uint (D0 Nil)) k).
    rewrite parse_digits_print by done. simpl. by rewrite Hfrac.
  - change (N.to_uint (Npos p)) with (Pos.to_uint p).
    destruct (print_digits_head (Pos.to_uint p) k) as (c & r & Heq & Hc);
      [apply DecimalPos.Unsigned.to_uint_nonnil|].
    rewrite Heq, Hc, <- Heq.
    destruct (parse_unsigned_print p k Hk) as [-> ->].
    by rewrite decide_True, Hfrac by apply unorm_to_uint.
  - change (N.to_uint (Npos p)) with (Pos.to_uint p).
    cbn [prepend]. change (Ascii.eqb "-" "-") with true. cbv iota.
    destruct (parse_unsigned_print p k Hk) as [-> ->].
    by rewrite decide_True, Hfrac by apply unorm_to_uint.
Qed.

Lemma skip_ws_spaces n k : skip_ws (spaces n k) = skip_ws k.
Proof. induction n as [|n IH]; [reflexivity | exact IH]. Qed.

Lemma skip_ws_newline level k : skip_ws (newline level k) = skip_ws k.
Proof. unfold newline. cbn [skip_ws]. apply skip_ws_spaces. Qed.

(** A printed value starts with a character that is neither white space nor
    a closing bracket. *)
Lemma print_head level j k :
  exists c r, print level j k = String c r /\
              is_ws c = false /\ Ascii.eqb c "]" = false.
Proof.
  destruct j as [|[]|z|s|[|x xs]|[|[key x] ms]]; try (by eexists _, _).
  destruct z as [|p|p]; try (by eexists _, _).
  cbn [print string_of_Z]. unfold string_of_N.
  change (N.to_uint (Npos p)) with (Pos.to_uint p).
  pose proof (DecimalPos.Unsigned.to_uint_nonnil p) as Hnil.
  destruct (Pos.to_uint p); [done|..]; by eexists _, _.
Qed.

Lemma skip_ws_print level j k : skip_ws (print level j k) = print level j k.
Proof.
  destruct (print_head level j k) as (c & r & -> & Hws & _).
  cbn [skip_ws]. by rewrite Hws.
Qed.

Lemma ends_number_items pr level k xs : ends_number (print_items pr level k xs) = true.
Proof. by destruct xs. Qed.

Lemma ends_number_members pr level k ms :
  ends_number (print_members pr level k ms) = true.
Proof. by destruct ms as [|[key y] ms]. Qed.

(** The items of an array, from the first one on. *)
Lemma parse_print_elements level k xs :
  Forall (fun x => forall level k fuel,
            size x <= fuel -> ends_number k = true ->
            parse_value fuel (print level x k) = Some (x, k))%nat xs ->
  forall x,
  (forall level k fuel,
     size x <= fuel -> ends_number k = true ->
     parse_value fuel (print level x k) = Some (x, k))%nat ->
  forall fuel,
  (list_sum (map (fun x => S (size x)) (x :: xs)) <= fuel)%nat ->
  parse_elements fuel
    (print (S level) x (print_items (fun y k' => print (S level) y k') level k xs))
  = Some (x :: xs, k).
Proof.
  induction 1 as [|y ys Hy Hys IH]; intros x Hx fuel Hfuel;
    (destruct fuel as [|fuel]; [simpl in Hfuel; lia|]);
    cbn [parse_elements]; simpl in Hfuel.
  - rewrite Hx by (first [lia | apply ends_number_items]).
    cbn [print_items mbind option_bind fst snd].
    rewrite skip_ws_newline. reflexivity.
  - rewrite Hx by (first [lia | apply ends_number_items]).
    cbn [print_items mbind option_bind fst snd skip_ws].
    eval_chars.
    rewrite skip_ws_newline, skip_ws_print.
    rewrite (IH y Hy fuel) by (simpl; lia).
    reflexivity.
Qed.

Lemma skip_ws_quote key k : skip_ws (quote key k) = quote key k.
Proof. reflexivity. Qed.

(** The members of an object, from the first one on. *)
Lemma parse_print_members level k ms :
  Forall (fun m => forall level k fuel,
            size m.2 <= fuel -> ends_number k = true ->
            parse_value fuel (print level m.2 k) = Some (m.2, k))%nat ms ->
  forall key x,
  (forall level k fuel,
     size x <= fuel -> ends_number k = true ->
     parse_value fuel (print level x k) = Some (x, k))%nat ->
  forall fuel,
  (list_sum (map (fun m => S (size m.2)) ((key, x) :: ms)) <= fuel)%nat ->
  parse_members fuel
    (quote key (prepend ": "
       (print (S level) x (print_members (fun y k' => print (S level) y k') level k ms))))
  = Some ((key, x) :: ms, k).
Proof.
  induction 1 as [|[key' y] ms Hy Hms IH]; intros key x Hx fuel Hfuel;
    (destruct fuel as [|fuel]; [simpl in Hfuel; lia|]);
    unfold quote; cbn [parse_members]; simpl in Hfuel;
    eval_chars;
    rewrite parse_quote_chars;
    cbn [mbind option_bind fst snd prepend skip_ws];
    eval_chars; cbn [skip_ws]; eval_chars;
    rewrite skip_ws_print.
  - rewrite Hx by (first [lia | apply ends_number_members]).
    cbn [print_members mbind option_bind fst snd].
    rewrite skip_ws_newline. reflexivity.
  - rewrite Hx by (first [lia | apply ends_number_members]).
    cbn [print_members mbind option_bind fst snd skip_ws].
    eval_chars.
    rewrite skip_ws_newline, skip_ws_quote.
    rewrite (IH key' y Hy fuel) by (simpl in *; lia).
    reflexivity.
Qed.

(** Parsing a printed value gives the value back, and what followed it. *)
Lemma parse_print j : forall level k fuel,
  (size j <= fuel)%nat ->
  ends_number k = true ->
  parse_value fuel (print level j k) = Some (j, k).
Proof.
  induction j as [|b|z|s|items IH|members IH] using json_ind;
    intros level k fuel Hfuel Hk;
    (destruct fuel as [|fuel]; [simpl in Hfuel; lia|]).
  - reflexivity.
  - by destruct b.
  - cbn [print].
    destruct (print_head level (Num z) k) as (c & r & Heq & _ & _).
    cbn [print] in Heq. rewrite Heq. cbn [parse_value]. rewrite <- Heq.
    rewrite parse_number_print by done.
    assert (Ascii.eqb c "n" = false /\ Ascii.eqb c "t" = false /\
            Ascii.eqb c "f" = false /\ Ascii.eqb c DQUOTE = false /\
            Ascii.eqb c "[" = false /\ Ascii.eqb c "{" = false)
      as (-> & -> & -> & -> & -> & ->); [|reflexivity].
    destruct z as [|p|p]; cbn [string_of_Z prepend] in Heq;
      unfold string_of_N in Heq;
      try change (N.to_uint (Npos p)) with (Pos.to_uint p) in Heq.
    + by injection Heq as <- _.
    + pose proof (DecimalPos.Unsigned.to_uint_nonnil p) as Hnil.
      destruct (Pos.to_uint p); [done|..]; by injection Heq as <- _.
    + by injection Heq as <- _.
  - cbn [print parse_value]. unfold quote. eval_chars.
    by rewrite parse_quote_chars.
  - destruct items as [|x xs]; [reflexivity|].
    cbn [print parse_value]. eval_chars.
    rewrite skip_ws_newline, skip_ws_print.
    destruct (print_head (S level) x
                (print_items (fun y k' => print (S level) y k') level k xs))
      as (c & r & Heq & _ & Hc).
    rewrite Heq, Hc, <- Heq.
    inversion IH as [|? ? Hx Hxs]; subst.
    rewrite (parse_print_elements level k xs Hxs x Hx) by (simpl in *; lia).
    reflexivity.
  - destruct members as [|[key x] ms]; [reflexivity|].
    cbn [print parse_value]. eval_chars.
    rewrite skip_ws_newline, skip_ws_quote. unfold quote at 1. eval_chars.
    change (String DQUOTE (quote_chars key (String DQUOTE ?r))) with (quote key r).
    inversion IH as [|? ? Hx Hxs]; subst.
    rewrite (parse_print_members level k ms Hxs key x Hx) by (simpl in *; lia).
    reflexivity.
Qed.

(** The text is at least as long as the value has nodes. *)
Lemma length_prepend s k :
  String.length (prepend s k) = (String.length s + String.length k)%nat.
Proof. induction s as [|c s IH]; simpl; [done | by rewrite IH]. Qed.

Lemma length_spaces n k : String.length (spaces n k) = (n + String.length k)%nat.
Proof. induction n as [|n IH]; simpl; [done | by rewrite IH]. Qed.

Lemma length_newline level k :
  (String.length k < String.length (newline level k))%nat.
Proof. unfold newline. simpl. rewrite length_spaces. lia. Qed.

Lemma length_quote_char c k :
  (String.length k < String.length (quote_char c k))%nat.
Proof. unfold quote_char. repeat case_match; simpl; lia. Qed.

Lemma length_quote_chars s k :
  (String.length k <= String.length (quote_chars s k))%nat.
Proof.
  induction s as [|c s IH]; simpl; [done|].
  pose proof (length_quote_char c (quote_chars s k)). lia.
Qed.

Lemma length_quote s k : (String.length k < String.length (quote s k))%nat.
Proof.
  unfold quote. simpl.
  pose proof (length_quote_chars s (String DQUOTE k)) as H. simpl in H. lia.
Qed.

Lemma length_string_of_Z z : (0 < String.length (string_of_Z z))%nat.
Proof.
  destruct z as [|p|p]; simpl; try lia. unfold string_of_N.
  change (N.to_uint (Npos p)) with (Pos.to_uint p).
  pose proof (DecimalPos.Unsigned.to_uint_nonnil p).
  destruct (Pos.to_uint p); simpl; try done; lia.
Qed.

Lemma length_print j : forall level k,
  (size j + String.length k <= String.length (print level j k))%nat.
Proof.
  induction j as [|b|z|s|items IH|members IH] using json_ind; intros level k.
  - simpl. lia.
  - destruct b; simpl; lia.
  - cbn [print size]. rewrite length_prepend.
    pose proof (length_string_of_Z z). lia.
  - cbn [print size]. pose proof (length_quote s k). lia.
  - destruct items as [|x xs]; [simpl; lia|].
    inversion IH as [|? ? Hx Hxs]; subst.
    cbn [print]. 
    assert (forall xs, Forall (fun x => forall level k,
              (size x + String.length k <= String.length (print level x k))%nat) xs ->
            (list_sum (map (fun x => S (size x)) xs) + S (String.length k)
             <= String.length
                  (print_items (fun y k' => print (S level) y k') level k xs))%nat)
      as Hitems.
    { clear. induction 1 as [|y ys Hy Hys IHys]; cbn [print_items].
      - pose proof (length_newline level (String "]" k)) as H. simpl in *. lia.
      - pose proof (length_newline (S level)
          (print (S level) y (print_items (fun y k' => print (S level) y k') level k ys))).
        pose proof (Hy (S level)
          (print_items (fun y k' => print (S level) y k') level k ys)).
        simpl in *. lia. }
    pose proof (Hitems xs Hxs).
    pose proof (length_newline (S level)
      (print (S level) x (print_items (fun y k' => print (S level) y k') level k xs))).
    pose proof (Hx (S level)
      (print_items (fun y k' => print (S level) y k') level k xs)).
    simpl in *. lia.
  - destruct members as [|[key x] ms]; [simpl; lia|].
    inversion IH as [|? ? Hx Hxs]; subst.
    cbn [print].
    assert (forall ms, Forall (fun m => forall level k,
              (size m.2 + String.length k <= String.length (print level m.2 k))%nat) ms ->
            (list_sum (map (fun m => S (size m.2)) ms) + S (String.length k)
             <= String.length
                  (print_members (fun y k' => print (S level) y k') level k ms))%nat)
      as Hmembers.
    { clear. induction 1 as [|[key y] ys Hy Hys IHys]; cbn [print_members].
      - pose proof (length_newline level (String "}" k)) as H. simpl in *. lia.
      - pose proof (length_newline (S level)
          (quote key (prepend ": " (print (S level) y
             (print_members (fun y k' => print (S level) y k') level k ys))))).
        pose proof (length_quote key (prepend ": " (print (S level) y
             (print_members (fun y k' => print (S level) y k') level k ys)))).
        pose proof (Hy (S level)
          (print_members (fun y k' => print (S level) y k') level k ys)).
        simpl in *. lia. }
    pose proof (Hmembers ms Hxs).
    pose proof (length_newline (S level)
      (quote key (prepend ": " (print (S level) x
         (print_members (fun y k' => print (S level) y k') level k ms))))).
    pose proof (length_quote key (prepend ": " (print (S level) x
         (print_members (fun y k' => print (S level) y k') level k ms)))).
    pose proof (Hx (S level)
      (print_members (fun y k' => print (S level) y k') level k ms)).
    simpl in *. lia.
Qed.

(** [JSON.parse(JSON.stringify(x, null, 2))] is [x]. *)
Lemma parse_stringify j : parse (stringify j) = Some j.
Proof.
  unfold parse, stringify. rewrite skip_ws_print.
  rewrite parse_print; [reflexivity | | reflexivity].
  pose proof (length_print j 0 ""). simpl in *. lia.
Qed.

End JsonRoundTrip.

(** ** Export and import *)

Section ExportImport.

Import JSON App.

Lemma member_app key l1 l2 :
  member key (l1 ++ l2)
  = match member key l2 with
    | Some y => Some y
    | None => member key l1
    end.
Proof.
  induction l1 as [|[key' x] l1 IH]; simpl.
  - by destruct (member key l2).
  - rewrite IH. by destruct (member key l2).
Qed.

Lemma member_prop key key' value :
  member key (prop key' value) = if String.eqb key key' then value else None.
Proof.
  destruct value as [x|]; simpl; by destruct (String.eqb key key').
Qed.

Lemma value_of_json_of_value v :
  finite_value v = true -> value_of_json (json_of_value v) = Some v.
Proof. by destruct v as [| |b|[|neg|z]|s]. Qed.

Lemma read_optional_fmap {A} (read : option json -> option A) (enc : A -> json)
  (o : option A) :
  (forall a, o = Some a -> read (Some (enc a)) = Some a) ->
  read_optional read (enc <$> o) = Some o.
Proof.
  destruct o as [a|]; [|done]. intros H. simpl. by rewrite (H a eq_refl).
Qed.

Lemma read_array_fmap {A} (read : json -> option A) (enc : A -> json) (l : list A) :
  Forall (fun a => read (enc a) = Some a) l ->
  read_array read (Some (Arr (enc <$> l))) = Some l.
Proof.
  unfold read_array. induction 1 as [|a l Ha Hl IH]; [done|].
  rewrite fmap_cons. cbn [mapM]. rewrite Ha. simpl. rewrite IH. done.
Qed.

Ltac read_members :=
  rewrite ?member_app, ?member_prop;
  repeat match goal with
         | |- context [String.eqb ?a ?b] =>
             let r := eval vm_compute in (String.eqb a b) in
             change (String.eqb a b) with r
         end;
  cbv iota.

Lemma rule_of_json_of_rule rule :
  finite_value (ValidationRule.value rule) = true ->
  rule_of_json (json_of_rule rule) = Some rule.
Proof.
  destruct rule as [type value message]. cbn [ValidationRule.value]. intros Hv.
  unfold rule_of_json, json_of_rule.
  cbn [ValidationRule.type ValidationRule.value ValidationRule.message].
  read_members.
  assert (forall o : option json,
    match o with Some y => Some y | None => None end = o) as Hid by (by intros []).
  rewrite !Hid, (value_of_json_of_value value Hv).
  rewrite (read_optional_fmap read_string Str message) by done.
  by destruct type.
Qed.

Lemma conditional_of_json_of_conditional rule :
  finite_value (ConditionalRule.value rule) = true ->
  conditional_of_json (Some (json_of_conditional rule)) = Some rule.
Proof.
  destruct rule as [field operator value]. cbn [ConditionalRule.value]. intros Hv.
  unfold conditional_of_json, json_of_conditional.
  cbn [ConditionalRule.field ConditionalRule.operator ConditionalRule.value].
  read_members.
  assert (forall o : option json,
    match o with Some y => Some y | None => None end = o) as Hid by (by intros []).
  rewrite !Hid, (value_of_json_of_value value Hv).
  by destruct operator.
Qed.

Lemma option_of_json_of_option option :
  option_of_json (json_of_option option) = Some option.
Proof. by destruct option. Qed.

Lemma field_of_json_of_field field :
  finite_field field = true -> field_of_json (json_of_field field) = Some field.
Proof.
  destruct field as [id name label type helpText placeholder required defaultValue
                       validation conditional options].
  unfold finite_field.
  cbn [FormField.defaultValue FormField.validation FormField.conditional].
  intros H. apply andb_true_iff in H as [H Hc]. apply andb_true_iff in H as [Hd Hv].
  unfold field_of_json, json_of_field.
  cbn [FormField.id FormField.name FormField.label FormField.type FormField.helpText
       FormField.placeholder FormField.required FormField.defaultValue
       FormField.validation FormField.conditional FormField.options].
  read_members.
  assert (forall o : option json,
    match o with Some y => Some y | None => None end = o) as Hid by (by intros []).
  rewrite !Hid, (value_of_json_of_value defaultValue Hd).
  rewrite (read_optional_fmap read_string Str helpText) by done.
  rewrite (read_optional_fmap read_string Str placeholder) by done.
  rewrite (read_optional_fmap read_bool Bool required) by done.
  rewrite (read_optional_fmap (read_array rule_of_json)
             (fun rules => Arr (json_of_rule <$> rules)) validation).
  2: { intros rules ->. apply read_array_fmap, Forall_forall. simpl in Hv.
       intros rule Hin. apply rule_of_json_of_rule.
       by apply (proj1 (forallb_forall _ _) Hv), list_elem_of_In. }
  rewrite (read_optional_fmap conditional_of_json json_of_conditional conditional).
  2: { intros rule ->. by apply conditional_of_json_of_conditional. }
  rewrite (read_optional_fmap (read_array option_of_json)
             (fun options => Arr (json_of_option <$> options)) options).
  2: { intros opts _. apply read_array_fmap, Forall_forall.
       intros o _. apply option_of_json_of_option. }
  by destruct type.
Qed.

Lemma schema_of_json_of_schema schema :
  finite_schema schema = true ->
  schema_of_json (json_of_schema schema) = Some schema.
Proof.
  destruct schema as [title description fields]. unfold finite_schema.
  cbn [FormSchema.fields]. intros Hfields.
  unfold schema_of_json, json_of_schema.
  cbn [FormSchema.title FormSchema.description FormSchema.fields].
  read_members.
  assert (forall o : option json,
    match o with Some y => Some y | None => None end = o) as Hid by (by intros []).
  rewrite !Hid.
  rewrite (read_optional_fmap read_string Str description) by done.
  rewrite (read_array_fmap field_of_json json_of_field fields).
  - reflexivity.
  - apply Forall_forall. intros field Hin. apply field_of_json_of_field.
    by apply (proj1 (forallb_forall _ _) Hfields), list_elem_of_In.
Qed.


End ExportImport.



(* ===================================================================== *)
(** * Further properties                                                  *)
(* ===================================================================== *)

(** ** Which values a validator accepts *)

Section Validity.

Context {engine : RegExpEngine}.

Import Zod.

(** While the parse is not aborted every check runs on the value and adds
    its issues. *)
Lemma runChecks_issues cs : forall p,
  issues (runChecks cs p false)
  = issues p ++ flat_map (fun c => run_check c (value p)) cs.
Proof.
  induction cs as [|c cs IH]; intros p; simpl; [by rewrite app_nil_r|].
  pose proof (run_check_continuable c (value p)) as Hc.
  destruct (when c) as [w|] eqn:Hw; simpl.
  - destruct (w (value p)) eqn:Hwv.
    + destruct (run_check c (value p)) as [|i l] eqn:Hr.
      * rewrite IH. simpl. by rewrite app_nil_r.
      * rewrite Hc. rewrite IH. simpl. by rewrite <- app_assoc.
    + assert (run_check c (value p) = []) as ->.
      { destruct c; try discriminate; simpl in *; injection Hw as <-;
          by destruct (value p). }
      by rewrite IH.
  - destruct (run_check c (value p)) as [|i l] eqn:Hr.
    + rewrite IH. simpl. by rewrite app_nil_r.
    + rewrite Hc. rewrite IH. simpl. by rewrite <- app_assoc.
Qed.

(** The checks only add issues. *)
Lemma runChecks_issues_prefix cs : forall p a,
  exists more, issues (runChecks cs p a) = issues p ++ more.
Proof.
  induction cs as [|c cs IH]; intros p a; simpl; [exists []; by rewrite app_nil_r|].
  destruct (match when c with Some w => w (value p) | None => negb a end).
  - destruct (IH (mkPayload (value p) (issues p ++ run_check c (value p)))
               (match run_check c (value p) with
                | [] => a | _ :: _ => a || aborted (run_check c (value p)) end))
      as [more ->].
    simpl. rewrite <- app_assoc. eauto.
  - apply IH.
Qed.

Lemma check_with_Valid schema v :
  check_with schema v = Valid <-> issues (run schema v) = [].
Proof.
  unfold check_with, report. destruct (last _) eqn:Hl.
  - split; [done|]. intros H. by rewrite H in Hl.
  - by apply last_None in Hl.
Qed.

Lemma flat_map_nil_app {A B} (f : A -> list B) l1 l2 :
  flat_map f (l1 ++ l2) = [] <-> flat_map f l1 = [] /\ flat_map f l2 = [].
Proof.
  rewrite flat_map_app. split.
  - intros H. by apply app_eq_nil in H.
  - by intros [-> ->].
Qed.

(** A value passes when its type is the expected one and no check reports. *)
Lemma run_unaborted d cs parsed v :
  (run (mkZod d cs) v = runChecks cs parsed (aborted (issues parsed))) ->
  issues (run (mkZod d cs) v) = [] <->
  issues parsed = [] /\ flat_map (fun c => run_check c (value parsed)) cs = [].
Proof.
  intros ->. destruct (issues parsed) as [|i iss] eqn:Hi.
  - simpl. rewrite runChecks_issues, Hi. simpl. tauto.
  - destruct (runChecks_issues_prefix cs parsed (aborted (i :: iss))) as [more ->].
    rewrite Hi. simpl. split; [done | by intros [? _]].
Qed.

Lemma run_string_ok cs v :
  issues (run (mkZod DefString cs) v) = [] <->
  exists s, v = JStr s /\ flat_map (fun c => run_check c (JStr s)) cs = [].
Proof.
  destruct v as [| |b|n|s];
    match goal with
    | |- context [run _ (JStr ?s)] =>
        rewrite (run_unaborted _ _ (mkPayload (JStr s) [])) by reflexivity
    | |- context [run _ ?v] =>
        rewrite (run_unaborted _ _ (mkPayload v [invalid_type "string" None v]))
          by reflexivity
    end; simpl; split; try (by intros [? _]); try (by intros (? & ? & _)).
  - intros [_ H]. eauto.
  - by intros (s' & [= <-] & H).
Qed.

Lemma run_number_ok cs msg v :
  issues (run (mkZod (DefNumber true msg) cs) v) = [] <->
  exists z, ToNumber v = Fin z /\
            flat_map (fun c => run_check c (JNum (Fin z))) cs = [].
Proof.
  destruct (ToNumber v) as [|neg|z] eqn:Hn.
  - rewrite (run_unaborted _ _ (mkPayload (JNum NaN) [invalid_type "number" msg (JNum NaN)]))
      by (cbn [run]; by rewrite Hn).
    simpl. split; [by intros [? _] | by intros (? & ? & _)].
  - rewrite (run_unaborted _ _
               (mkPayload (JNum (Infinity neg))
                  [invalid_type "number" msg (JNum (Infinity neg))]))
      by (cbn [run]; by rewrite Hn).
    simpl. split; [by intros [? _] | by intros (? & ? & _)].
  - rewrite (run_unaborted _ _ (mkPayload (JNum (Fin z)) []))
      by (cbn [run]; by rewrite Hn).
    simpl. split; [intros [_ H]; eauto | by intros (z' & [= <-] & H)].
Qed.

Lemma run_boolean_ok cs v :
  issues (run (mkZod DefBoolean cs) v) = [] <->
  exists b, v = JBool b /\ flat_map (fun c => run_check c (JBool b)) cs = [].
Proof.
  destruct v as [| |b|n|s];
    match goal with
    | |- context [run _ (JBool ?b)] =>
        rewrite (run_unaborted _ _ (mkPayload (JBool b) [])) by reflexivity
    | |- context [run _ ?v] =>
        rewrite (run_unaborted _ _ (mkPayload v [invalid_type "boolean" None v]))
          by reflexivity
    end; simpl; split; try (by intros [? _]); try (by intros (? & ? & _)).
  - intros [_ H]. eauto.
  - by intros (s' & [= <-] & H).
Qed.

(** The validator of a field: [undefined] passes when the field is not
    required; otherwise the base type is parsed and its checks run, the
    required refinement last. *)
Lemma run_wrap_ok field d cs v :
  issues (run (wrap field (mkZod d cs)) v) = [] <->
  if is_required field then
    issues (run (mkZod d
      (cs ++ [CheckCustom
                (if decide (FormField.type field = Checkbox) then is_true else is_present)
                (required_message field)])) v) = []
  else v = JUndefined \/ issues (run (mkZod d cs) v) = [].
Proof.
  unfold wrap. destruct (is_required field).
  - by case_decide.
  - unfold optional. cbn [run]. destruct v; cbn [runChecks issues];
      try (split; [by right | by intros [?|?]]).
    split; [by left | done].
Qed.

Lemma applied_number_checks_ok z rules : forall checks,
  applied_checks Number rules = Ok checks ->
  flat_map (fun c => run_check c (JNum (Fin z))) checks = [] <->
  forallb (fun rule => number_rule_holds rule z) rules = true.
Proof.
  induction rules as [|rule rules IH]; intros checks H; simpl in H.
  - by injection H as <-.
  - inv_bind H. inv_bind H. injection H as <-.
    rewrite flat_map_nil_app, (IH _ Ha0). cbn [forallb]. rewrite andb_true_iff.
    assert (flat_map (fun c => run_check c (JNum (Fin z))) a = []
            <-> number_rule_holds rule z = true) as ->; [|done].
    unfold applied_check in Ha. unfold number_rule_holds.
    destruct (ValidationRule.type rule), (ValidationRule.value rule);
      injection Ha as <-; simpl; try done;
      match goal with |- context [number_le ?a ?b] => by destruct (number_le a b) end.
Qed.

Lemma applied_string_checks_ok t s rules : forall checks,
  string_typed t = true ->
  applied_checks t rules = Ok checks ->
  flat_map (fun c => run_check c (JStr s)) checks = [] <->
  forallb (fun rule => string_rule_holds rule s) rules = true.
Proof.
  induction rules as [|rule rules IH]; intros checks Ht H; simpl in H.
  - by injection H as <-.
  - inv_bind H. inv_bind H. injection H as <-.
    rewrite flat_map_nil_app, (IH _ Ht Ha0). cbn [forallb]. rewrite andb_true_iff.
    assert (flat_map (fun c => run_check c (JStr s)) a = []
            <-> string_rule_holds rule s = true) as ->; [|done].
    unfold applied_check in Ha. unfold string_rule_holds.
    destruct t; try discriminate;
      destruct (ValidationRule.type rule), (ValidationRule.value rule);
      try (injection Ha as <-; simpl; try done;
           match goal with
           | |- context [number_le ?a ?b] => by destruct (number_le a b)
           | |- context [number_ge ?a ?b] => by destruct (number_ge a b)
           end);
      (destruct (RegExp_new _) as [r|e]; [|discriminate]; injection Ha as <-; simpl;
       by destruct (RegExp_test r s)).
Qed.

Lemma number_schema_inv field schema :
  FormField.type field = Number ->
  buildZodSchema field = Ok schema ->
  exists checks,
    applied_checks Number (rules_of field) = Ok checks /\
    schema = wrap field
      (mkZod (DefNumber true (Some (FormField.label field +:+ " must be a number")))
         checks).
Proof.
  intros Ht H. apply buildZodSchema_Ok_inv in H as (inner & Hinner & ->).
  unfold base_schema, z_coerce_number in Hinner. rewrite Ht in Hinner.
  rewrite (forEach_applied number_rule Number _ _ number_rule_applied) in Hinner.
  apply bind_Ok_inv in Hinner as (checks & Hchecks & [= <-]). by exists checks.
Qed.

Lemma string_schema_inv field schema :
  string_typed (FormField.type field) = true ->
  buildZodSchema field = Ok schema ->
  exists checks,
    applied_checks (FormField.type field) (rules_of field) = Ok checks /\
    schema = wrap field (mkZod DefString checks).
Proof.
  intros Ht H. apply buildZodSchema_Ok_inv in H as (inner & Hinner & ->).
  unfold base_schema, z_string in Hinner.
  assert (forEach string_rule (rules_of field) (mkZod DefString []) = Ok inner) as H
    by (destruct (FormField.type field); done).
  rewrite (forEach_applied string_rule (FormField.type field) _ _
             (fun d cs rule => string_rule_applied _ d cs rule Ht)) in H.
  apply bind_Ok_inv in H as (checks & Hchecks & [= <-]). by exists checks.
Qed.


(** X2: the validator of a text, textarea, select or radio field accepts a
    value exactly when the field is not required and the value is
    [undefined], or when the value is a string that satisfies every applied
    rule (a pattern given as a string, a length bound given as a number) and,
    if the field is required, is not empty. *)
Theorem string_field_valid_iff field schema input :
  string_typed (FormField.type field) = true ->
  buildZodSchema field = Ok schema ->
  check_with schema input = Valid <->
  (is_required field = false /\ input = JUndefined) \/
  exists s, input = JStr s /\
            (is_required field = true -> s <> "") /\
            forallb (fun rule => string_rule_holds rule s) (rules_of field) = true.
Proof.
  intros Ht H. pose proof (string_schema_inv _ _ Ht H) as (checks & Hchecks & ->).
  rewrite check_with_Valid, run_wrap_ok.
  destruct (is_required field).
  - rewrite decide_False by (by destruct (FormField.type field)).
    rewrite run_string_ok. setoid_rewrite flat_map_nil_app.
    setoid_rewrite (applied_string_checks_ok _ _ _ _ Ht Hchecks).
    split.
    + intros (s & -> & Hrules & Hreq). right. exists s. repeat split; [|done].
      intros _ ->. done.
    + intros [[? _]|(s & -> & Hne & Hrules)]; [done|]. exists s. repeat split; [done|].
      simpl. unfold is_present. simpl.
      destruct (String.eqb_spec s ""); [by destruct Hne|done].
  - rewrite run_string_ok. setoid_rewrite (applied_string_checks_ok _ _ _ _ Ht Hchecks).
    split.
    + intros [->|(s & -> & Hrules)]; [by left|]. right. exists s. by repeat split.
    + intros [[_ ->]|(s & -> & _ & Hrules)]; [by left|]. right. eauto.
Qed.

(** X3: a date field always has a validator, and it accepts a value exactly
    when the field is not required and the value is [undefined], or when the
    value is a string of the form [dddd-dd-dd].  The rules that the field
    declares play no part, and neither does the calendar. *)
Theorem date_field_valid_iff field input :
  FormField.type field = Date ->
  exists schema,
    buildZodSchema field = Ok schema /\
    (check_with schema input = Valid <->
     (is_required field = false /\ input = JUndefined) \/
     exists s, input = JStr s /\ date_pattern_test s = true).
Proof.
  intros Ht.
  exists (wrap field (mkZod DefString [CheckRegex date_pattern_test "Invalid date format"])).
  split.
  - rewrite buildZodSchema_unfold. unfold base_schema. by rewrite Ht.
  - rewrite check_with_Valid, run_wrap_ok.
    destruct (is_required field).
    + rewrite decide_False by (by rewrite Ht). rewrite run_string_ok. split.
      * intros (s & -> & H). right. exists s. split; [done|].
        simpl in H. by destruct (date_pattern_test s).
      * intros [[? _]|(s & -> & Hs)]; [done|]. exists s. split; [done|].
        simpl. rewrite Hs. simpl. by destruct s.
    + rewrite run_string_ok. split.
      * intros [->|(s & -> & H)]; [by left|]. right. exists s. split; [done|].
        simpl in H. by destruct (date_pattern_test s).
      * intros [[_ ->]|(s & -> & Hs)]; [by left|]. right. exists s. split; [done|].
        simpl. by rewrite Hs.
Qed.

(** X4: a checkbox field always has a validator.  When the field is required
    it accepts [true] only; otherwise it accepts [undefined] and the two
    booleans. *)
Theorem checkbox_field_valid_iff field input :
  FormField.type field = Checkbox ->
  exists schema,
    buildZodSchema field = Ok schema /\
    (check_with schema input = Valid <->
     if is_required field then input = JBool true
     else input = JUndefined \/ exists b, input = JBool b).
Proof.
  intros Ht. exists (wrap field (mkZod DefBoolean [])).
  split.
  - rewrite buildZodSchema_unfold. unfold base_schema. by rewrite Ht.
  - rewrite check_with_Valid, run_wrap_ok.
    destruct (is_required field).
    + rewrite decide_True by done. rewrite run_boolean_ok. split.
      * intros (b & -> & H). simpl in H. by destruct b.
      * intros ->. by exists true.
    + rewrite run_boolean_ok. split.
      * intros [->|(b & -> & _)]; eauto.
      * intros [->|(b & ->)]; [by left|]. right. by exists b.
Qed.

(** ** Which message is displayed *)

Lemma applied_checks_app t l1 : forall l2 checks,
  applied_checks t (l1 ++ l2) = Ok checks ->
  exists c1 c2,
    applied_checks t l1 = Ok c1 /\ applied_checks t l2 = Ok c2 /\ checks = c1 ++ c2.
Proof.
  induction l1 as [|rule l1 IH]; intros l2 checks H.
  - exists [], checks. by repeat split.
  - simpl in H. inv_bind H. inv_bind H. injection H as <-.
    destruct (IH _ _ Ha0) as (c1 & c2 & H1 & H2 & ->).
    exists (a ++ c1), c2. simpl. rewrite Ha, H1. simpl. by rewrite app_assoc.
Qed.

Lemma failing_string_rule t rule s c rest :
  string_typed t = true ->
  applied_checks t (rule :: rest) = Ok c ->
  string_rule_holds rule s = false ->
  exists c', applied_checks t rest = Ok c' /\
    flat_map (fun c => run_check c (JStr s)) c
    = mkIssue (match ValidationRule.type rule with
               | ValidationRule.Regex => "invalid_format"
               | ValidationRule.Min => "too_small"
               | _ => "too_big"
               end) (rule_message t rule) true
      :: flat_map (fun c => run_check c (JStr s)) c'.
Proof.
  intros Ht H Hfails. simpl in H. inv_bind H. inv_bind H. injection H as <-.
  exists a0. split; [done|]. rewrite flat_map_app.
  unfold applied_check in Ha. unfold string_rule_holds in Hfails. unfold rule_message.
  destruct t; try discriminate;
    destruct (ValidationRule.type rule), (ValidationRule.value rule); try discriminate;
    try (injection Ha as <-; simpl; by rewrite Hfails);
    (destruct (RegExp_new _) as [r|e]; [|discriminate]; injection Ha as <-; simpl;
     by rewrite Hfails).
Qed.

Lemma failing_number_rule rule z c rest :
  applied_checks Number (rule :: rest) = Ok c ->
  number_rule_holds rule z = false ->
  exists c', applied_checks Number rest = Ok c' /\
    flat_map (fun c => run_check c (JNum (Fin z))) c
    = mkIssue (match ValidationRule.type rule with
               | ValidationRule.Min => "too_small"
               | _ => "too_big"
               end) (rule_message Number rule) true
      :: flat_map (fun c => run_check c (JNum (Fin z))) c'.
Proof.
  intros H Hfails. simpl in H. inv_bind H. inv_bind H. injection H as <-.
  exists a0. split; [done|]. rewrite flat_map_app.
  unfold applied_check in Ha. unfold number_rule_holds in Hfails. unfold rule_message.
  destruct (ValidationRule.type rule), (ValidationRule.value rule); try discriminate;
    injection Ha as <-; simpl; simpl in Hfails; by rewrite Hfails.
Qed.

Lemma applied_number_checks_when rules : forall checks,
  applied_checks Number rules = Ok checks ->
  Forall (fun c => when c = None) checks.
Proof.
  induction rules as [|rule rules IH]; intros checks H; simpl in H.
  - injection H as <-. constructor.
  - inv_bind H. inv_bind H. injection H as <-.
    apply Forall_app. split; [|by apply IH].
    unfold applied_check in Ha.
    destruct (ValidationRule.type rule), (ValidationRule.value rule);
      injection Ha as <-; by repeat constructor.
Qed.




(** X8: a required field reports "<label> is required" on the empty string
    when its type is text, textarea, select, radio or date, whatever its
    rules report before, and a required checkbox reports it on [false]. *)
Theorem required_reports_required_message field schema :
  is_required field = true ->
  buildZodSchema field = Ok schema ->
  (FormField.type field <> Number -> FormField.type field <> Checkbox ->
   check_with schema (JStr "") = Invalid (required_message field)) /\
  (FormField.type field = Checkbox ->
   check_with schema (JBool false) = Invalid (required_message field)).
Proof.
  intros Hreq H. split.
  - intros Hnum Hcb. by apply required_string_empty.
  - intros Hcb. by apply required_checkbox_false.
Qed.

Lemma forEach_string_rule_throws rules : forall s e,
  forEach string_rule rules s = Throw e ->
  exists rule pattern,
    In rule rules /\
    ValidationRule.type rule = ValidationRule.Regex /\
    ValidationRule.value rule = JStr pattern /\
    RegExp_new pattern = Throw e.
Proof.
  induction rules as [|rule rules IH]; intros s e H; simpl in H; [done|].
  destruct (string_rule s rule) as [s'|e'] eqn:Hrule; simpl in H.
  - destruct (IH _ _ H) as (r & p & Hin & ?). exists r, p. split; [by right|done].
  - injection H as ->. exists rule. unfold string_rule in Hrule.
    destruct (ValidationRule.type rule) eqn:Hty, (ValidationRule.value rule) eqn:Hv;
      simpl in Hrule; try done; try (by repeat case_decide).
    destruct (RegExp_new s0) as [r|e''] eqn:Hnew; simpl in Hrule.
    + done.
    + injection Hrule as ->. exists s0. by repeat split; [left|..].
Qed.

(** X10: building a validator fails in one way only: the field is a text,
    textarea, select or radio field and one of its [regex] rules has a
    string pattern that [new RegExp] refuses; the exception is that of the
    pattern.  Number, checkbox and date fields always get a validator. *)
Theorem buildZodSchema_throws_only_on_pattern field e :
  buildZodSchema field = Throw e ->
  string_typed (FormField.type field) = true /\
  exists rule pattern,
    In rule (rules_of field) /\
    ValidationRule.type rule = ValidationRule.Regex /\
    ValidationRule.value rule = JStr pattern /\
    RegExp_new pattern = Throw e.
Proof.
  rewrite buildZodSchema_unfold. intros H.
  destruct (base_schema field) as [inner|e'] eqn:Hbase; [done|].
  injection H as ->. unfold base_schema in Hbase.
  destruct (FormField.type field) eqn:Ht; try done;
    try (split; [done|]; by eapply forEach_string_rule_throws).
  destruct (forEach_number_rule_total (rules_of field)
              (z_coerce_number (FormField.label field +:+ " must be a number")))
    as [s' Hs']. congruence.
Qed.

End Validity.


Lemma string_field_valid_iff_witness :
  exists schema,
    buildZodSchema Examples.username = Ok schema /\
    check_with schema (JStr "grace") = Valid.
Proof.
  eexists. split; [reflexivity|].
  apply (string_field_valid_iff Examples.username); [reflexivity | reflexivity |].
  right. exists "grace". split; [reflexivity|]. split; [discriminate | reflexivity].
Defined.

Lemma date_field_valid_iff_witness :
  exists schema,
    buildZodSchema Examples.birthday = Ok schema /\
    (check_with schema (JStr "1990-02-31") = Valid <->
     (is_required Examples.birthday = false /\ JStr "1990-02-31" = JUndefined) \/
     exists s, JStr "1990-02-31" = JStr s /\ date_pattern_test s = true).
Proof. apply (date_field_valid_iff Examples.birthday). reflexivity. Defined.

Lemma checkbox_field_valid_iff_witness :
  exists schema,
    buildZodSchema Examples.terms = Ok schema /\
    (check_with schema (JBool true) = Valid <-> JBool true = JBool true).
Proof. apply (checkbox_field_valid_iff Examples.terms). reflexivity. Defined.




Lemma required_reports_required_message_witness :
  exists schema,
    buildZodSchema Examples.username = Ok schema /\
    check_with schema (JStr "") = Invalid "username is required".
Proof.
  eexists. split; [reflexivity|].
  apply (required_reports_required_message Examples.username);
    [reflexivity | reflexivity | | ]; discriminate.
Defined.

Lemma required_never_reports_on_number_witness :
  exists schema,
    buildZodSchema Examples.age = Ok schema /\
    Forall (fun i => Zod.code i <> "custom") (Zod.issues (Zod.run schema JUndefined)).
Proof.
  eexists. split; [reflexivity|]. apply List.Forall_forall.
  apply (required_never_reports_on_number Examples.age); reflexivity.
Defined.

Lemma buildZodSchema_throws_only_on_pattern_witness :
  string_typed (FormField.type Examples.code) = true /\
  exists rule pattern,
    In rule (rules_of Examples.code) /\
    ValidationRule.type rule = ValidationRule.Regex /\
    ValidationRule.value rule = JStr pattern /\
    RegExp_new pattern = Throw (SyntaxError "Invalid regular expression: /(/").
Proof.
  apply (buildZodSchema_throws_only_on_pattern Examples.code). reflexivity.
Defined.

(** ** A submit attempt as a whole *)

Section SubmitAttempt.

Context {engine : RegExpEngine}.

Import Zod.

(** Every entry of the shape is the validator of a visible field. *)
Lemma build_shape_entries data fields : forall acc shape key validator,
  forEach (add_field data) fields acc = Ok shape ->
  shape !! key = Some validator ->
  acc !! key = Some validator \/
  exists field,
    In field fields /\ isFieldVisible data field = true /\
    FormField.name field = key /\ buildZodSchema field = Ok validator.
Proof.
  induction fields as [|f fields IH]; intros acc shape key validator H Hkey;
    simpl in H.
  - injection H as <-. by left.
  - inv_bind H. destruct (IH _ _ _ _ H Hkey) as [Ha'|(field & Hin & ?)].
    + unfold add_field in Ha. destruct (isFieldVisible data f) eqn:Hvis.
      * inv_bind Ha. injection Ha as <-.
        destruct (decide (FormField.name f = key)) as [Heq|Hne].
        -- rewrite <- Heq, lookup_insert_eq in Ha'. injection Ha' as ->.
           right. exists f. by repeat split; [left|..].
        -- rewrite lookup_insert_ne in Ha' by done. by left.
      * injection Ha as <-. by left.
    + right. exists field. split; [by right|done].
Qed.

Lemma build_shape_total data fields : forall acc,
  (forall field, In field fields -> isFieldVisible data field = true ->
     exists validator, buildZodSchema field = Ok validator) ->
  exists shape, forEach (add_field data) fields acc = Ok shape.
Proof.
  induction fields as [|f fields IH]; intros acc Hall; cbn [forEach]; [eauto|].
  assert (exists acc', add_field data acc f = Ok acc') as [acc' ->].
  { unfold add_field. destruct (isFieldVisible data f) eqn:Hvis; [|eauto].
    destruct (Hall f (or_introl eq_refl) Hvis) as [validator ->]. simpl. eauto. }
  simpl. apply IH. intros field Hin. apply Hall. by right.
Qed.

Lemma object_parse_nil shape data :
  object_parse shape data = [] <->
  forall key validator, shape !! key = Some validator ->
    issues (run validator (get data key)) = [].
Proof.
  unfold object_parse. split.
  - intros H key validator Hkey. apply elem_of_map_to_list in Hkey.
    revert H. generalize (map_to_list shape) Hkey. clear.
    induction l as [|entry l IH]; intros Hin H; [by apply elem_of_nil in Hin|].
    rewrite bind_cons in H. apply app_eq_nil in H as [Hentry Hrest].
    apply elem_of_cons in Hin as [<-|Hin]; [|by apply IH].
    unfold key_issues in Hentry. simpl in Hentry.
    by apply fmap_nil_inv in Hentry.
  - intros H.
    assert (forall entry, entry ∈ map_to_list shape ->
              issues (run entry.2 (get data entry.1)) = []) as Hall.
    { intros [key validator] Hin. apply elem_of_map_to_list in Hin. by apply H. }
    revert Hall. generalize (map_to_list shape). clear.
    induction l as [|entry l IH]; intros Hall; [done|].
    rewrite bind_cons, IH by (intros e He; apply Hall; by right).
    unfold key_issues. unfold get in Hall. rewrite (Hall entry) by left. done.
Qed.

(** X11: with distinct field names, a submit attempt goes on to call
    [submitForm] exactly when every visible field has a validator that
    accepts the field's current value.  Hidden fields play no part. *)
Theorem submit_proceeds_iff_valid schema st :
  NoDup (FormField.name <$> FormSchema.fields schema) ->
  (exists st', handleSubmit schema st = Awaiting st') <->
  (forall field,
     In field (FormSchema.fields schema) ->
     isFieldVisible (formData st) field = true ->
     check_field field (get (formData st) (FormField.name field)) = Ok Valid).
Proof.
  intros Hnodup. unfold handleSubmit. simpl. split.
  - intros [st' H] field Hin Hvis.
    destruct (build_shape (formData st) (FormSchema.fields schema)) as [shape|e] eqn:Hshape;
      [|done].
    destruct (object_parse shape (formData st)) as [|i iss] eqn:Hparse; [|done].
    destruct (build_shape_lookup _ _ _ _ _ Hshape Hnodup Hin Hvis)
      as (validator & Hbuild & Hlookup).
    unfold check_field. rewrite Hbuild. simpl. f_equal.
    apply check_with_Valid. by eapply object_parse_nil.
  - intros Hall.
    destruct (build_shape_total (formData st) (FormSchema.fields schema) ∅) as [shape Hshape].
    { intros field Hin Hvis. specialize (Hall field Hin Hvis). unfold check_field in Hall.
      destruct (buildZodSchema field) as [validator|e]; [eauto|done]. }
    unfold build_shape. rewrite Hshape.
    assert (object_parse shape (formData st) = []) as ->; [|eauto].
    apply object_parse_nil. intros key validator Hkey.
    destruct (build_shape_entries _ _ _ _ _ _ Hshape Hkey)
      as [Hempty|(field & Hin & Hvis & <- & Hbuild)]; [by rewrite lookup_empty in Hempty|].
    specialize (Hall field Hin Hvis). unfold check_field in Hall.
    rewrite Hbuild in Hall. simpl in Hall. injection Hall as Hall.
    by apply check_with_Valid.
Qed.

(** X13: a rejected submit records no error under a name whose fields are
    all hidden: a hidden field is not validated. *)
Theorem hidden_field_records_no_error schema st st' name :
  (forall field, In field (FormSchema.fields schema) ->
     FormField.name field = name -> isFieldVisible (formData st) field = false) ->
  handleSubmit schema st = Rejected st' ->
  errors st' !! name = None.
Proof.
  intros Hhidden. unfold handleSubmit. simpl.
  destruct (build_shape (formData st) (FormSchema.fields schema)) as [shape|e] eqn:Hshape;
    [|done].
  pose proof (collect_errors_lookup shape (formData st) name) as Herr.
  destruct (shape !! name) as [validator|] eqn:Hname.
  - destruct (build_shape_entries _ _ _ _ _ _ Hshape Hname)
      as [Hempty|(field & Hin & Hvis & Heq & _)]; [by rewrite lookup_empty in Hempty|].
    rewrite (Hhidden field Hin Heq) in Hvis. done.
  - destruct (object_parse shape (formData st)); [done|]. by intros [= <-].
Qed.

(** X16: an edit stores the value under the field's name, clears the result
    banner and the error recorded for that field, and touches nothing else:
    the values and errors of the other names, the submitting flag, and the
    visibility of every field whose condition watches another name stay as
    they were. *)
Theorem edit_leaves_other_fields name value st :
  formData (handleChange name value st) !! name = Some value /\
  isSubmitting (handleChange name value st) = isSubmitting st /\
  submitResult (handleChange name value st) = None /\
  (forall e, errors st !! name = Some e -> e <> "" ->
     errors (handleChange name value st) !! name = None) /\
  (forall other, other <> name ->
     formData (handleChange name value st) !! other = formData st !! other /\
     errors (handleChange name value st) !! other = errors st !! other) /\
  (forall field rule,
     FormField.conditional field = Some rule ->
     ConditionalRule.field rule <> name ->
     isFieldVisible (formData (handleChange name value st)) field
     = isFieldVisible (formData st) field).
Proof.
  rewrite handleChange_formData.
  split; [apply lookup_insert_eq|].
  assert (forall other, other <> name -> <[name:=value]> (formData st) !! other
                                          = formData st !! other) as Hother.
  { intros other Hne. by rewrite lookup_insert_ne. }
  unfold handleChange. cbn [errors setFormData].
  destruct (errors st !! name) as [e|] eqn:He.
  - destruct (String.eqb_spec e "") as [->|Hne]; cbn.
    + repeat split; try done.
      * by intros e [= <-].
      * by apply Hother.
      * intros field rule Hrule Htarget. unfold isFieldVisible, get.
        by rewrite Hrule, Hother.
    + repeat split; try done.
      * intros _ _ _. apply lookup_delete_eq.
      * by apply Hother.
      * by rewrite lookup_delete_ne.
      * intros field rule Hrule Htarget. unfold isFieldVisible, get.
        by rewrite Hrule, Hother.
  - cbn. repeat split; try done.
    + by apply Hother.
    + intros field rule Hrule Htarget. unfold isFieldVisible, get.
      by rewrite Hrule, Hother.
Qed.

Lemma handleChange_isSubmitting name value st :
  isSubmitting (handleChange name value st) = isSubmitting st.
Proof.
  unfold handleChange. simpl.
  destruct (errors st !! name) as [e|]; [|done]. by destruct (String.eqb e "").
Qed.

(** After edits only, nothing is pending. *)
Lemma edits_keep_idle s (edits : list (string * JsValue)) :
  let f := run_events (mounted s) ((fun e => Edit e.1 e.2) <$> edits) in
  schema f = s /\ pending f = [] /\ isSubmitting (state f) = false.
Proof.
  unfold run_events.
  assert (schema (mounted s) = s /\ pending (mounted s) = [] /\
          isSubmitting (state (mounted s)) = false) as Hinit by done.
  revert Hinit. generalize (mounted s).
  induction edits as [|[name value] edits IH]; intros f Hf; [done|].
  rewrite fmap_cons. cbn [fold_left]. apply IH. cbn [step fst snd].
  destruct Hf as (? & ? & ?). repeat split; try done.
  cbn [state]. by rewrite handleChange_isSubmitting.
Qed.

(** X15: a form that was mounted and edited, and whose submit went through,
    ends the submission as follows: nothing is pending, the submitting flag
    and the errors are cleared, the banner shows the result, and the values
    are those of the freshly mounted form when the submission succeeded and
    those that were entered when it failed. *)
Theorem settled_submission s (edits : list (string * JsValue)) result :
  let f := run_events (mounted s) ((fun e => Edit e.1 e.2) <$> edits) in
  let f' := step (step f ClickSubmit) (Settle result) in
  pending (step f ClickSubmit) <> [] ->
  pending f' = [] /\
  isSubmitting (state f') = false /\
  errors (state f') = ∅ /\
  submitResult (state f') = Some result /\
  formData (state f')
  = if success result then formData (mount s) else formData (state f).
Proof.
  intros f f'. subst f'.
  destruct (edits_keep_idle s edits) as (Hschema & Hpending & Hidle).
  fold f in Hschema, Hpending, Hidle.
  cbn [step]. unfold submit_disabled. rewrite Hidle. unfold on_submit.
  rewrite Hschema, Hpending. unfold handleSubmit.
  destruct (build_shape _ _) as [shape|e]; [|done].
  destruct (Zod.object_parse _ _); [|done].
  intros _. rewrite mount_formData. cbn. repeat split.
  all: by destruct (success result).
Qed.

End SubmitAttempt.

Lemma submit_proceeds_iff_valid_witness :
  exists st', handleSubmit Examples.address_v2 (mount Examples.address_v2) = Awaiting st'.
Proof.
  apply (submit_proceeds_iff_valid Examples.address_v2 (mount Examples.address_v2)).
  - apply (bool_decide_unpack _). vm_compute. exact I.
  - intros field [<-|[<-|[]]] _; reflexivity.
Defined.

Lemma rejected_error_is_check_witness :
  exists validator,
    buildZodSchema Examples.full_name = Ok validator /\
    errors Examples.survey_rejected !! FormField.name Examples.full_name
    = match check_with validator
              (get (formData (mount Examples.survey)) (FormField.name Examples.full_name)) with
      | Invalid m => Some m
      | Valid => None
      end.
Proof.
  apply (rejected_error_is_check Examples.survey (mount Examples.survey)
           Examples.survey_rejected Examples.full_name).
  - apply (bool_decide_unpack _). vm_compute. exact I.
  - simpl. auto.
  - reflexivity.
  - discriminate.
  - vm_compute. reflexivity.
Defined.

Lemma hidden_field_records_no_error_witness :
  errors Examples.guarded_rejected !! "dependent" = None.
Proof.
  apply (hidden_field_records_no_error Examples.guarded (mount Examples.guarded)
           Examples.guarded_rejected).
  - intros field [<-|[<-|[]]]; [discriminate | reflexivity].
  - vm_compute. reflexivity.
Defined.

Lemma controls_one_pending_witness :
  one_pending (run_events (mounted Examples.address_v1) [ClickSubmit; ClickSubmit]).
Proof.
  apply (controls_one_pending Examples.address_v1 [ClickSubmit; ClickSubmit]).
  repeat constructor.
Defined.

Lemma settled_submission_witness :
  let f := run_events (mounted Examples.address_v1)
             ((fun e => Edit e.1 e.2) <$> [("city", JStr "Rome")]) in
  let f' := step (step f ClickSubmit) (Settle (mkResult true "Form submitted successfully!")) in
  pending f' = [] /\
  isSubmitting (state f') = false /\
  errors (state f') = ∅ /\
  submitResult (state f') = Some (mkResult true "Form submitted successfully!") /\
  formData (state f') = formData (mount Examples.address_v1).
Proof.
  apply (settled_submission Examples.address_v1 [("city", JStr "Rome")]
           (mkResult true "Form submitted successfully!")).
  vm_compute. discriminate.
Defined.

(** ** Conditions between the editor and the form *)

Lemma digit_facts c :
  is_digit c = true ->
  is_white_space c = false /\ Ascii.eqb c "-" = false /\ Ascii.eqb c "+" = false.
Proof.
  destruct c as [[] [] [] [] [] [] [] []]; try discriminate; by intros _.
Qed.

Lemma uint_of_string_dash s : uint_of_string (String "-" s) = None.
Proof. simpl. by destruct (uint_of_string s). Qed.

Lemma uint_of_string_None c s :
  uint_of_string s = None -> uint_of_string (String c s) = None.
Proof. simpl. by intros ->. Qed.

(** A date as the date input gives it, [yyyy-mm-dd], is not a numeric
    literal. *)
Lemma date_is_not_a_number s :
  date_pattern_test s = true -> ToNumber (JStr s) = NaN.
Proof.
  unfold date_pattern_test.
  destruct s as [|y1 [|y2 [|y3 [|y4 [|h1 [|m1 [|m2 [|h2 [|d1 [|d2 [|more s]]]]]]]]]]];
    try discriminate.
  cbn [list_ascii_of_string forallb]. intros H.
  repeat (apply andb_true_iff in H as [H ?]).
  repeat match goal with
         | H : _ && _ = true |- _ => apply andb_true_iff in H as [? ?]
         end.
  repeat match goal with
         | H : Ascii.eqb _ _ = true |- _ => apply Ascii.eqb_eq in H; subst
         end.
  destruct (digit_facts y1) as (Hws & Hminus & Hplus); [done|].
  destruct (digit_facts d2) as (Hws2 & _ & _); [done|].
  unfold ToNumber, StringToNumber, trim. cbn [trim_start]. rewrite Hws.
  cbn [trim_end]. rewrite Hws2. cbv iota. rewrite Hminus, Hplus.
  unfold unsigned_literal.
  destruct (String.eqb_spec
              (String y1 (String y2 (String y3 (String y4 (String "-"
                 (String m1 (String m2 (String "-" (String d1 (String d2 ""))))))))))
              "Infinity") as [Heq|_];
    [apply (f_equal String.length) in Heq; discriminate|].
  by rewrite !uint_of_string_None
    by (repeat first [apply uint_of_string_dash | apply uint_of_string_None]).
Qed.

(** X17: when the target is truthy, a [contains] condition shows the field
    exactly when the string form of the comparand is a substring of the
    string form of the target. *)
Theorem contains_is_substring data field rule :
  FormField.conditional field = Some rule ->
  ConditionalRule.operator rule = ConditionalRule.Contains ->
  ToBoolean (get data (ConditionalRule.field rule)) = true ->
  isFieldVisible data field = true <->
  exists pre post,
    ToString (get data (ConditionalRule.field rule))
    = pre +:+ ToString (ConditionalRule.value rule) +:+ post.
Proof.
  intros Hrule Hop Htruthy.
  rewrite (contains_truthy_target _ _ _ Hrule Hop Htruthy). apply includes_spec.
Qed.

(** X18: the conditional editor offers [greaterThan] and [lessThan] for a
    date field and stores the comparand as the text of its date input, but a
    date [yyyy-mm-dd] is not a numeric literal: whenever the comparand or
    the value of the target is such a date, the two comparisons are false
    and the field is hidden. *)
Theorem date_comparison_never_shows available value text data field rule s :
  (ConditionalEditor.selectedType available value = Some Date ->
   In ConditionalRule.GreaterThan (ConditionalEditor.offered_operators available value) /\
   In ConditionalRule.LessThan (ConditionalEditor.offered_operators available value) /\
   ConditionalRule.value (ConditionalEditor.onValueChange available text value)
   = JStr text) /\
  (FormField.conditional field = Some rule ->
   ConditionalRule.operator rule = ConditionalRule.GreaterThan \/
   ConditionalRule.operator rule = ConditionalRule.LessThan ->
   date_pattern_test s = true ->
   get data (ConditionalRule.field rule) = JStr s \/ ConditionalRule.value rule = JStr s ->
   isFieldVisible data field = false).
Proof.
  split.
  - intros Hsel. unfold ConditionalEditor.offered_operators,
      ConditionalEditor.onValueChange, ConditionalEditor.entered_value.
    rewrite Hsel. repeat split; simpl; auto.
  - intros Hrule Hop Hs Hdate. unfold isFieldVisible. rewrite Hrule.
    apply date_is_not_a_number in Hs.
    destruct Hdate as [-> | ->], Hop as [-> | ->]; rewrite Hs; unfold number_gt;
      first [apply number_lt_NaN_l | apply number_lt_NaN_r].
Qed.

(** X19: for a number field as target the conditional editor stores the
    comparand as a number, while the form stores what is typed into a number
    input as text.  Strict equality of a text and a number is false: once
    the user has typed into the target, an [equals] condition hides the
    field and a [notEquals] condition shows it, whatever was typed. *)
Theorem number_equality_never_matches_text available rule text dependent typed st :
  ConditionalEditor.selectedType available rule = Some Number ->
  FormField.conditional dependent
  = Some (ConditionalEditor.onValueChange available text rule) ->
  let data := formData (handleChange (ConditionalRule.field rule) (JStr typed) st) in
  (ConditionalRule.operator rule = ConditionalRule.Equals ->
   isFieldVisible data dependent = false) /\
  (ConditionalRule.operator rule = ConditionalRule.NotEquals ->
   isFieldVisible data dependent = true).
Proof.
  intros Hsel Hcond. unfold isFieldVisible. rewrite Hcond.
  unfold ConditionalEditor.onValueChange, ConditionalEditor.entered_value.
  rewrite Hsel. cbn [ConditionalRule.field ConditionalRule.operator ConditionalRule.value].
  rewrite handleChange_formData. unfold get. rewrite lookup_insert_eq.
  split; by intros ->.
Qed.

(** X20: for a checkbox as target the conditional editor stores the
    comparand as a boolean, and the form stores the state of the box: after
    the user has set the box, an [equals] condition shows the field exactly
    when the box is in the state chosen in the editor. *)
Theorem checkbox_condition_follows_box available rule text dependent checked st :
  ConditionalEditor.selectedType available rule = Some Checkbox ->
  ConditionalRule.operator rule = ConditionalRule.Equals ->
  FormField.conditional dependent
  = Some (ConditionalEditor.onValueChange available text rule) ->
  isFieldVisible
    (formData (handleChange (ConditionalRule.field rule) (JBool checked) st)) dependent
  = Bool.eqb checked (String.eqb text "true").
Proof.
  intros Hsel Hop Hcond. unfold isFieldVisible. rewrite Hcond.
  unfold ConditionalEditor.onValueChange, ConditionalEditor.entered_value.
  rewrite Hsel. cbn [ConditionalRule.field ConditionalRule.operator ConditionalRule.value].
  rewrite Hop, handleChange_formData. unfold get. by rewrite lookup_insert_eq.
Qed.

Lemma contains_is_substring_witness :
  isFieldVisible {["city" := JStr "Paris"]}
    (Examples.dependent "city" ConditionalRule.Contains (JStr "ar")) = true <->
  exists pre post, "Paris" = pre +:+ "ar" +:+ post.
Proof.
  exact (contains_is_substring {["city" := JStr "Paris"]}
           (Examples.dependent "city" ConditionalRule.Contains (JStr "ar"))
           (ConditionalRule.mk "city" ConditionalRule.Contains (JStr "ar"))
           eq_refl eq_refl eq_refl).
Defined.

Lemma number_equality_never_matches_text_witness :
  isFieldVisible
    (formData (handleChange "age" (JStr "18") (mount Examples.address_v1)))
    (Examples.dependent "age" ConditionalRule.Equals (JNum (Fin 18)))
  = false.
Proof.
  apply (number_equality_never_matches_text [Examples.age]
           (ConditionalRule.mk "age" ConditionalRule.Equals (JStr "")) "18"
           (Examples.dependent "age" ConditionalRule.Equals (JNum (Fin 18)))
           "18" (mount Examples.address_v1));
    reflexivity.
Defined.

Lemma checkbox_condition_follows_box_witness :
  isFieldVisible
    (formData (handleChange "terms" (JBool true) (mount Examples.address_v1)))
    (Examples.dependent "terms" ConditionalRule.Equals (JBool true))
  = Bool.eqb true (String.eqb "true" "true").
Proof.
  apply (checkbox_condition_follows_box [Examples.terms]
           (ConditionalRule.mk "terms" ConditionalRule.Equals (JStr "")) "true"
           (Examples.dependent "terms" ConditionalRule.Equals (JBool true))
           true (mount Examples.address_v1));
    reflexivity.
Defined.

(** ** The editors *)

Section Editors.

Context {engine : RegExpEngine}.

Import Builtins.

(** Filtering out one index deletes the element at it. *)
Lemma filter_from_delete {A} (index : nat) (l : list A) : forall i,
  filter_from (fun _ j => negb (j =? index)%nat) i l
  = if decide (i <= index)%nat then delete (index - i)%nat l else l.
Proof.
  induction l as [|x l IH]; intros i; simpl.
  - by case_decide.
  - rewrite IH. destruct (Nat.eqb_spec i index) as [->|Hne]; simpl.
    + rewrite decide_False by lia. rewrite decide_True by lia.
      by rewrite Nat.sub_diag.
    + destruct (decide (i <= index)%nat).
      * rewrite decide_True by lia.
        replace (index - i)%nat with (S (index - S i)) by lia. done.
      * by rewrite decide_False by lia.
Qed.

Lemma filter_index_delete {A} (index : nat) (l : list A) :
  filter_index (fun _ j => negb (j =? index)%nat) l = delete index l.
Proof.
  unfold filter_index. rewrite filter_from_delete, decide_True by lia.
  by rewrite Nat.sub_0_r.
Qed.

Lemma find_index_Some {A} (p : A -> bool) l : forall i,
  find_index p l = Some i ->
  exists x, l !! i = Some x /\ p x = true.
Proof.
  induction l as [|y l IH]; intros i H; simpl in H; [done|].
  destruct (p y) eqn:Hy.
  - injection H as <-. by exists y.
  - destruct (find_index p l) as [j|]; [|done]. injection H as <-.
    by apply IH.
Qed.

Lemma find_index_is_Some {A} (p : A -> bool) l x :
  In x l -> p x = true -> is_Some (find_index p l).
Proof.
  induction l as [|y l IH]; intros Hin Hx; [destruct Hin|]. simpl.
  destruct (p y) eqn:Hy; [by eexists|].
  destruct Hin as [->|Hin]; [congruence|].
  destruct (IH Hin Hx) as [j ->]. by eexists.
Qed.

Lemma relative_start_in (i len : nat) :
  (i <= len)%nat -> relative_start (Z.of_nat i) len = i.
Proof.
  intros Hi. unfold relative_start.
  destruct (Z.ltb_spec (Z.of_nat i) 0); [lia|]. lia.
Qed.

(** The array with [x] put in at [j]. *)
Lemma insert_at_spec {A} (x : A) (l : list A) (j : nat) :
  (j <= length l)%nat ->
  (take j l ++ x :: drop j l) !! j = Some x /\
  delete j (take j l ++ x :: drop j l) = l /\
  take j l ++ x :: drop j l ≡ₚ x :: l.
Proof.
  intros Hj. pose proof (length_take_le l j Hj) as Hlen. repeat split.
  - rewrite lookup_app_r by lia. rewrite Hlen. by rewrite Nat.sub_diag.
  - rewrite delete_take_drop.
    rewrite take_app_length' by done.
    replace (S j) with (length (take j l) + 1)%nat by lia.
    rewrite <- drop_drop, drop_app_length. simpl. rewrite drop_0. apply take_drop.
  - rewrite <- Permutation_middle. by rewrite take_drop.
Qed.

(** X21: dragging the field with id [active] onto the field with id [over]
    (both ids of fields of the list, and different) moves one field and
    keeps the others: the array given to [onChange] holds the dragged field
    at the position that the other field had, has the remaining fields in
    their order, and is a permutation of the list; it holds no
    [undefined]. *)
Theorem drag_moves_one_field fields active over :
  active <> over ->
  (exists f, In f fields /\ FormField.id f = active) ->
  (exists f, In f fields /\ FormField.id f = over) ->
  exists i j dragged moved,
    fields !! i = Some dragged /\ FormField.id dragged = active /\
    (exists target, fields !! j = Some target /\ FormField.id target = over) /\
    FieldEditor.handleDragEnd fields active (Some over) = Some (Some <$> moved) /\
    moved !! j = Some dragged /\
    delete j moved = delete i fields /\
    moved ≡ₚ fields.
Proof.
  intros Hne (fa & Hfa & Hida) (fo & Hfo & Hido).
  destruct (find_index_is_Some (fun f => String.eqb (FormField.id f) active) fields fa)
    as [i Hi]; [done | by apply String.eqb_eq |].
  destruct (find_index_is_Some (fun f => String.eqb (FormField.id f) over) fields fo)
    as [j Hj]; [done | by apply String.eqb_eq |].
  destruct (find_index_Some _ _ _ Hi) as (dragged & Hdragged & Hd).
  destruct (find_index_Some _ _ _ Hj) as (target & Htarget & Ht).
  apply String.eqb_eq in Hd, Ht.
  pose proof (lookup_lt_Some _ _ _ Hdragged) as Hilen.
  pose proof (lookup_lt_Some _ _ _ Htarget) as Hjlen.
  set (rest := delete i fields).
  assert (length rest = (length fields - 1)%nat) as Hrest
    by (unfold rest; rewrite length_delete; eauto).
  exists i, j, dragged, (take j rest ++ dragged :: drop j rest).
  destruct (insert_at_spec dragged rest j) as (Hat & Hdel & Hperm); [lia|].
  repeat split; try done; [by eauto | | ].
  - unfold FieldEditor.handleDragEnd.
    destruct (String.eqb_spec active over) as [?|_]; [done|].
    unfold findIndex. rewrite Hi, Hj. f_equal.
    unfold DndKit.arrayMove, splice_one, splice_insert.
    destruct (Z.ltb_spec (Z.of_nat j) 0) as [?|_]; [lia|].
    rewrite length_fmap, (relative_start_in i) by lia.
    rewrite list_lookup_fmap, Hdragged. cbn [fmap option_fmap option_map mjoin option_join].
    rewrite <- list_fmap_delete. fold rest.
    rewrite length_fmap, (relative_start_in j) by lia.
    by rewrite fmap_app, fmap_cons, fmap_take, fmap_drop.
  - rewrite Hperm. unfold rest. symmetry. by apply delete_Permutation.
Qed.

Lemma string_of_uint_inj d : forall d', string_of_uint d = string_of_uint d' -> d = d'.
Proof.
  induction d; intros d' H; destruct d'; simpl in H; try discriminate; try done;
    injection H as H; f_equal; by apply IHd.
Qed.

Lemma string_of_positive_inj (n m : nat) :
  ToString (JNum (Fin (Z.of_nat n + 1))) = ToString (JNum (Fin (Z.of_nat m + 1))) ->
  n = m.
Proof.
  simpl. intros H.
  replace (Z.of_nat n + 1) with (Zpos (Pos.of_succ_nat n)) in H by lia.
  replace (Z.of_nat m + 1) with (Zpos (Pos.of_succ_nat m)) in H by lia.
  simpl in H. unfold string_of_N in H. apply string_of_uint_inj in H.
  apply DecimalN.Unsigned.to_uint_inj in H. lia.
Qed.

Lemma append_inj_r s : forall t u, s +:+ t = s +:+ u -> t = u.
Proof.
  induction s as [|c s IH]; intros t u H; [done|].
  rewrite !append_cons in H. injection H as H. by apply IH.
Qed.

Lemma added_names (times : list Z) : forall fields,
  FormField.name <$> fields = nth_name <$> seq 0 (length fields) ->
  let fields' := fold_left (fun fields now => FieldEditor.addField now fields) times fields in
  FormField.name <$> fields' = nth_name <$> seq 0 (length fields').
Proof.
  induction times as [|now times IH]; intros fields Hfields; [done|].
  cbn [fold_left]. apply IH.
  unfold FieldEditor.addField. rewrite fmap_app, length_app, Hfields.
  cbn [length fmap list_fmap FormField.name].
  by rewrite Nat.add_1_r, seq_S, fmap_app.
Qed.

(** X22: the fields that [addField] adds one after another to an empty form
    are named [field_1], [field_2], ... and so have distinct names, whatever
    the clock says.  (The name is made from the number of fields, so a name
    can come back after a field was deleted.) *)
Theorem added_fields_have_distinct_names (times : list Z) :
  NoDup (FormField.name <$>
           fold_left (fun fields now => FieldEditor.addField now fields) times []).
Proof.
  rewrite (added_names times []) by done.
  apply NoDup_fmap_2; [|apply NoDup_seq].
  intros n m H. unfold nth_name in H. apply append_inj_r in H.
  by apply string_of_positive_inj.
Qed.


(** The validator depends on the type, the label, the required flag and the
    rules of the field. *)
Lemma buildZodSchema_ext f g :
  FormField.type f = FormField.type g ->
  FormField.label f = FormField.label g ->
  FormField.required f = FormField.required g ->
  (forall s, forEach string_rule (rules_of f) s = forEach string_rule (rules_of g) s) ->
  (forall s, forEach number_rule (rules_of f) s = forEach number_rule (rules_of g) s) ->
  buildZodSchema f = buildZodSchema g.
Proof.
  intros Ht Hl Hr Hs Hn. unfold buildZodSchema, is_required, required_message.
  by rewrite Ht, Hl, Hr, Hs, Hn.
Qed.

Lemma forEach_app {A B} (f : A -> B -> result A) l1 l2 acc :
  forEach f (l1 ++ l2) acc = (acc' ← forEach f l1 acc; forEach f l2 acc').
Proof.
  revert acc. induction l1 as [|x l1 IH]; intros acc; simpl; [done|].
  destruct (f acc x); simpl; [apply IH | done].
Qed.

(** A rule that the body of the loop ignores can be deleted. *)
Lemma forEach_inert {A B} (f : A -> B -> result A) l index x :
  (forall acc, f acc x = Ok acc) ->
  (index < length l)%nat ->
  forall acc, forEach f (<[index := x]> l) acc = forEach f (delete index l) acc.
Proof.
  intros Hx. revert index. induction l as [|y l IH]; intros index Hi acc;
    simpl in Hi; [lia|].
  destruct index as [|index]; simpl.
  - by rewrite Hx.
  - destruct (f acc y); simpl; [apply IH; lia | done].
Qed.

(** X26: on a text or textarea field the validation editor stores what is
    typed as the value of a [min] or [max] rule as text, and the validator
    applies a length bound only when its value is a number: the field
    validates as if the rule had been deleted. *)
Theorem text_length_rule_is_inert field index text rule :
  FormField.type field = Text \/ FormField.type field = Textarea ->
  rules_of field !! index = Some rule ->
  ValidationRule.type rule = ValidationRule.Min \/
  ValidationRule.type rule = ValidationRule.Max ->
  buildZodSchema
    (FieldEditor.onValidationChange
       (Some (ValidationEditor.onValueChange (FormField.type field) index text
                (FormField.validation field))) field)
  = buildZodSchema
      (FieldEditor.onValidationChange
         (ValidationEditor.deleteRule index (FormField.validation field)) field).
Proof.
  intros Ht Hrule Htype.
  assert (rules_of
            (FieldEditor.onValidationChange
               (ValidationEditor.deleteRule index (FormField.validation field)) field)
          = delete index (rules_of field)) as Hdel.
  { unfold rules_of, FieldEditor.onValidationChange, FieldEditor.set_validation,
      ValidationEditor.deleteRule, ValidationEditor.rules.
    cbn [FormField.validation]. rewrite filter_index_delete.
    destruct (delete index (default [] (FormField.validation field))); done. }
  set (rule' := ValidationEditor.merge rule
                  (ValidationEditor.mkUpdates None (Some (JStr text)) None)).
  assert (rules_of
            (FieldEditor.onValidationChange
               (Some (ValidationEditor.onValueChange (FormField.type field) index text
                        (FormField.validation field))) field)
          = <[index := rule']> (rules_of field)) as Hset.
  { unfold rules_of in *. unfold FieldEditor.onValidationChange, FieldEditor.set_validation,
      ValidationEditor.onValueChange, ValidationEditor.updateRule, ValidationEditor.rules.
    cbn [FormField.validation default]. rewrite Hrule.
    unfold ValidationEditor.entered_value.
    destruct Ht as [-> | ->]; simpl; by rewrite orb_true_r. }
  pose proof (lookup_lt_Some _ _ _ Hrule) as Hlen.
  apply buildZodSchema_ext; try done; intros s; rewrite Hset, Hdel;
    apply forEach_inert; try lia; intros acc; subst rule'.
  - unfold string_rule. simpl. by destruct Htype as [-> | ->].
  - unfold number_rule. simpl. done.
Qed.

(** X27: the rule that [addRule] appends has the empty string as its value,
    so on a number field (whose bounds need a number) and on a date field
    (whose rules are not read) the validator is the same as before, until a
    value is entered. *)
Theorem new_rule_is_inert field :
  FormField.type field = Number \/ FormField.type field = Date ->
  buildZodSchema
    (FieldEditor.onValidationChange
       (Some (ValidationEditor.addRule (FormField.type field) (FormField.validation field)))
       field)
  = buildZodSchema field.
Proof.
  intros Ht.
  assert (rules_of
            (FieldEditor.onValidationChange
               (Some (ValidationEditor.addRule (FormField.type field)
                        (FormField.validation field))) field)
          = rules_of field
            ++ [ValidationRule.mk
                  (if decide (FormField.type field = Number)
                   then ValidationRule.Min else ValidationRule.Regex)
                  (JStr "") (Some "")]) as Hadd by done.
  unfold buildZodSchema, is_required, required_message. rewrite Hadd.
  cbn [FieldEditor.onValidationChange FieldEditor.set_validation FormField.type
       FormField.required FormField.label].
  destruct Ht as [-> | ->]; [|done].
  rewrite forEach_app. cbn [forEach].
  by destruct (forEach number_rule _ _).
Qed.

(** X28: deleting the rule that [addRule] has just appended gives the rules
    back as they were; when there were none the property is [undefined]
    again and not an empty array. *)
Theorem deleting_the_added_rule_restores fieldType value :
  ValidationEditor.rules
    (ValidationEditor.deleteRule (length (ValidationEditor.rules value))
       (Some (ValidationEditor.addRule fieldType value)))
  = ValidationEditor.rules value /\
  (ValidationEditor.rules value = [] ->
   ValidationEditor.deleteRule (length (ValidationEditor.rules value))
     (Some (ValidationEditor.addRule fieldType value)) = None).
Proof.
  unfold ValidationEditor.deleteRule, ValidationEditor.addRule, ValidationEditor.rules.
  change (default [] (Some ?x)) with x. rewrite filter_index_delete.
  set (l := default [] value).
  assert (forall (x : ValidationRule.t) l, delete (length l) (l ++ [x]) = l) as Hd.
  { intros x l'. induction l' as [|y l' IH]; [done|]. simpl. by rewrite IH. }
  rewrite Hd. split; [by destruct l | by intros ->].
Qed.

End Editors.

(** ** The text of the options *)

Section OptionsText.

Import Builtins.

Lemma includes_char c s : includes s (String c "") = occurs c s.
Proof.
  induction s as [|c' s IH]; [done|].
  cbn [includes occurs]. rewrite IH. f_equal.
  simpl. destruct (Ascii.ascii_dec c c') as [->|Hne].
  - rewrite Ascii.eqb_refl. by destruct s.
  - symmetry. apply Ascii.eqb_neq. congruence.
Qed.

Lemma occurs_app c a b : occurs c (a +:+ b) = occurs c a || occurs c b.
Proof.
  induction a as [|c' a IH]; [done|].
  rewrite append_cons. cbn [occurs]. by rewrite IH, orb_assoc.
Qed.

Lemma split_nonempty sep s : split sep s <> [].
Proof.
  destruct s as [|c s]; [done|]. simpl.
  destruct (Ascii.eqb c sep); [done|]. by destruct (split sep s).
Qed.

Lemma split_without sep s : occurs sep s = false -> split sep s = [s].
Proof.
  induction s as [|c s IH]; [done|]. cbn [occurs split].
  intros H. apply orb_false_iff in H as [-> H]. by rewrite (IH H).
Qed.

Lemma split_app sep a b :
  occurs sep a = false ->
  split sep (a +:+ String sep b) = a :: split sep b.
Proof.
  induction a as [|c a IH]; intros H.
  - change ("" +:+ String sep b) with (String sep b). cbn [split].
    by rewrite Ascii.eqb_refl.
  - rewrite append_cons. cbn [occurs] in H. apply orb_false_iff in H as [Hc H].
    cbn [split]. by rewrite Hc, (IH H).
Qed.

(** Joining the pieces of a string gives the string back. *)
Lemma join_split sep s : join sep (split sep s) = s.
Proof.
  induction s as [|c s IH]; [done|]. cbn [split].
  destruct (Ascii.eqb_spec c sep) as [->|Hne].
  - pose proof (split_nonempty sep s).
    destruct (split sep s) as [|p ps] eqn:Hs; [done|].
    cbn [join]. cbn [join] in IH. by rewrite IH.
  - destruct (split sep s) as [|p ps] eqn:Hs; [by destruct (split_nonempty sep s)|].
    destruct ps as [|q ps]; cbn [join] in *; [by rewrite IH|].
    by rewrite append_cons, IH.
Qed.

Lemma split_join sep pieces :
  pieces <> [] ->
  Forall (fun p => occurs sep p = false) pieces ->
  split sep (join sep pieces) = pieces.
Proof.
  intros Hne Hall. induction Hall as [|p ps Hp Hps IH]; [done|].
  destruct ps as [|q ps]; cbn [join]; [by apply split_without|].
  rewrite (split_app sep p _ Hp). f_equal. by apply IH.
Qed.

Lemma length_trim_start s : (String.length (trim_start s) <= String.length s)%nat.
Proof.
  induction s as [|c s IH]; [done|]. cbn [trim_start].
  destruct (is_white_space c); simpl in *; lia.
Qed.

Lemma length_trim_end s : (String.length (trim_end s) <= String.length s)%nat.
Proof.
  induction s as [|c s IH]; [done|]. cbn [trim_end].
  destruct (trim_end s); [destruct (is_white_space c)|]; simpl in *; lia.
Qed.

Lemma trim_fixed_head s :
  trim s = s -> s <> "" ->
  exists c s', s = String c s' /\ is_white_space c = false.
Proof.
  intros H Hne. destruct s as [|c s]; [done|]. exists c, s. split; [done|].
  destruct (is_white_space c) eqn:Hc; [|done]. exfalso.
  apply (f_equal String.length) in H. unfold trim in H. cbn [trim_start] in H.
  rewrite Hc in H. pose proof (length_trim_end (trim_start s)).
  pose proof (length_trim_start s). simpl in H. lia.
Qed.

Lemma trim_fixed_end s : trim s = s -> trim_end s = s.
Proof.
  intros H. destruct s as [|c s]; [done|].
  destruct (trim_fixed_head _ H) as (c' & s' & [= <- <-] & Hc); [done|].
  unfold trim in H. cbn [trim_start] in H. by rewrite Hc in H.
Qed.

Lemma trim_end_app a b :
  trim_end b = b -> b <> "" -> trim_end (a +:+ b) = a +:+ b.
Proof.
  intros Hb Hne. induction a as [|c a IH]; [done|].
  rewrite append_cons. cbn [trim_end]. rewrite IH.
  destruct (a +:+ b) eqn:Hab; [|done].
  destruct a; [by destruct Hne|done].
Qed.

Lemma trim_line l v :
  trim l = l -> l <> "" -> trim v = v -> v <> "" ->
  trim (l +:+ ":" +:+ v) = l +:+ ":" +:+ v.
Proof.
  intros Hl Hlne Hv Hvne.
  destruct (trim_fixed_head l Hl Hlne) as (c & l' & -> & Hc).
  assert (trim_end (":" +:+ v) = ":" +:+ v) as Hb
    by (apply trim_end_app; [by apply trim_fixed_end | done]).
  unfold trim. rewrite append_cons. cbn [trim_start]. rewrite Hc, <- append_cons.
  apply trim_end_app; [done|]. by rewrite append_cons.
Qed.

Lemma or_string_nonempty a b : b <> "" -> or_string a b <> "".
Proof.
  unfold or_string. destruct (String.eqb_spec a ""); done.
Qed.

Lemma trim_end_idemp s : trim_end (trim_end s) = trim_end s.
Proof.
  induction s as [|c s IH]; [done|]. cbn [trim_end].
  destruct (trim_end s) as [|d r] eqn:Hs.
  - destruct (is_white_space c) eqn:Hc; [done|]. cbn [trim_end]. by rewrite Hc.
  - cbn [trim_end]. cbn [trim_end] in IH. by rewrite IH.
Qed.

Lemma trim_idemp s : trim (trim s) = trim s.
Proof.
  unfold trim.
  assert (forall t, (t = "" \/ exists c t', t = String c t' /\ is_white_space c = false) ->
            trim_start (trim_end t) = trim_end t) as Hhead.
  { intros t [->|(c & t' & -> & Hc)]; [done|].
    cbn [trim_end]. destruct (trim_end t').
    - rewrite Hc. cbn [trim_start]. by rewrite Hc.
    - cbn [trim_start]. by rewrite Hc. }
  rewrite Hhead; [apply trim_end_idemp|].
  induction s as [|c s IH]; [by left|]. cbn [trim_start].
  destruct (is_white_space c) eqn:Hc; [done|]. right. by exists c, s.
Qed.

(** X24: whatever text the area of the options holds, every option parsed
    from it has a label and a value that are not empty and have no white
    space around them; blank lines give no option. *)
Theorem parsed_options_are_nonempty text :
  Forall (fun o =>
            FieldOption.label o <> "" /\ FieldOption.value o <> "" /\
            trim (FieldOption.label o) = FieldOption.label o /\
            trim (FieldOption.value o) = FieldOption.value o)
    (FieldEditor.parse_options text).
Proof.
  unfold FieldEditor.parse_options. apply Forall_fmap, Forall_forall.
  intros line Hin. apply list_elem_of_In, filter_In in Hin as [_ Hline].
  apply negb_true_iff in Hline. apply String.eqb_neq in Hline.
  unfold compose, FieldEditor.option_of_line. cbv beta zeta.
  assert (forall a b, trim a = a -> trim b = b -> trim (or_string a b) = or_string a b)
    as Hor by (intros a b; unfold or_string; by destruct (String.eqb a "")).
  pose proof (trim_idemp line) as Hidem.
  destruct (includes (trim line) ":"); [|by repeat split].
  destruct (split ":" (trim line)) as [|label valueParts]; [by repeat split|].
  cbn [FieldOption.label FieldOption.value].
  repeat split.
  - by apply or_string_nonempty, or_string_nonempty.
  - by apply or_string_nonempty, or_string_nonempty.
  - apply Hor; [apply trim_idemp|]. apply Hor; [apply trim_idemp|done].
  - apply Hor; [apply trim_idemp|]. apply Hor; [apply trim_idemp|done].
Qed.

(** X25: the text with which the area of the options starts parses back to
    the options of the field, in their order, provided every option fits on
    one line: label and value are not empty, have no white space around
    them and no line feed, and the label has no colon (the value may have
    one). *)
Theorem options_text_round_trip options :
  Forall on_one_line options ->
  FieldEditor.parse_options (FieldEditor.optionsText options) = options.
Proof.
  intros Hall. unfold FieldEditor.parse_options, FieldEditor.optionsText.
  set (line := fun o => FieldOption.label o +:+ ":" +:+ FieldOption.value o).
  assert (Forall (fun o => trim (line o) = line o /\ line o <> "" /\
                           occurs LINE_FEED (line o) = false /\
                           FieldEditor.option_of_line (line o) = o) options) as Hlines.
  { eapply Forall_impl; [exact Hall|]. intros [l v] (Hl & Htl & Hcolon & Hlf & Hv & Htv & Hvlf).
    unfold line. cbn [FieldOption.label FieldOption.value] in *.
    pose proof (trim_line l v Htl Hl Htv Hv) as Htrim.
    repeat split; try done.
    - destruct l; [done|]. by rewrite append_cons.
    - change (l +:+ ":" +:+ v) with (l +:+ (":" +:+ v)).
      rewrite occurs_app, Hlf. change (":" +:+ v) with (String ":" v).
      cbn [occurs]. by rewrite Hvlf.
    - unfold FieldEditor.option_of_line. rewrite Htrim.
      change (l +:+ ":" +:+ v) with (l +:+ String ":" v).
      rewrite includes_char, occurs_app. cbn [occurs]. rewrite Ascii.eqb_refl, orb_true_r.
      rewrite (split_app ":" l v Hcolon), join_split, Htl, Htv.
      unfold or_string.
      destruct (String.eqb_spec l ""); [done|]. by destruct (String.eqb_spec v ""). }
  destruct options as [|o options]; [done|].
  rewrite split_join.
  - clear Hall. induction Hlines as [|p ps (Htrim & Hne & _ & Hopt) _ IH]; [done|].
    rewrite fmap_cons. cbn [List.filter]. fold line. rewrite Htrim.
    destruct (String.eqb_spec (line p) ""); [done|]. cbn [negb].
    rewrite fmap_cons. by rewrite Hopt, IH.
  - done.
  - apply Forall_fmap. eapply Forall_impl; [exact Hlines|]. by intros p (_ & _ & ? & _).
Qed.

End OptionsText.

Lemma drag_moves_one_field_witness :
  exists i j dragged moved,
    [Examples.city; Examples.street] !! i = Some dragged /\
    FormField.id dragged = "field-city" /\
    (exists target,
       [Examples.city; Examples.street] !! j = Some target /\
       FormField.id target = "field-street") /\
    FieldEditor.handleDragEnd [Examples.city; Examples.street] "field-city"
      (Some "field-street") = Some (Some <$> moved) /\
    moved !! j = Some dragged /\
    delete j moved = delete i [Examples.city; Examples.street] /\
    moved ≡ₚ [Examples.city; Examples.street].
Proof.
  apply (drag_moves_one_field [Examples.city; Examples.street] "field-city" "field-street").
  - discriminate.
  - exists Examples.city. split; [simpl; auto | reflexivity].
  - exists Examples.street. split; [simpl; auto | reflexivity].
Defined.


Lemma options_text_round_trip_witness :
  FieldEditor.parse_options
    (FieldEditor.optionsText [FieldOption.mk "Free" "free"; FieldOption.mk "Pro" "pro"])
  = [FieldOption.mk "Free" "free"; FieldOption.mk "Pro" "pro"].
Proof.
  apply (options_text_round_trip [FieldOption.mk "Free" "free"; FieldOption.mk "Pro" "pro"]).
  repeat constructor; try discriminate.
Defined.

Lemma text_length_rule_is_inert_witness :
  buildZodSchema
    (FieldEditor.onValidationChange
       (Some (ValidationEditor.onValueChange Text 0 "5"
                (FormField.validation Examples.full_name))) Examples.full_name)
  = buildZodSchema
      (FieldEditor.onValidationChange
         (ValidationEditor.deleteRule 0 (FormField.validation Examples.full_name))
         Examples.full_name).
Proof.
  apply (text_length_rule_is_inert Examples.full_name 0 "5"
           (Examples.rule ValidationRule.Min (JNum (Fin 3)))).
  - left. reflexivity.
  - reflexivity.
  - left. reflexivity.
Defined.

Lemma new_rule_is_inert_witness :
  buildZodSchema
    (FieldEditor.onValidationChange
       (Some (ValidationEditor.addRule Number (FormField.validation Examples.age)))
       Examples.age)
  = buildZodSchema Examples.age.
Proof.
  apply (new_rule_is_inert Examples.age). left. reflexivity.
Defined.

(** ** Saving and loading *)

Section CompactRoundTrip.

Import JSON.

(** Evaluate the tests on characters that are known. *)
Ltac eval_chars :=
  repeat match goal with
         | |- context [Ascii.eqb ?a ?b] =>
             let r := eval vm_compute in (Ascii.eqb a b) in
             match r with
             | true => change (Ascii.eqb a b) with true
             | false => change (Ascii.eqb a b) with false
             end
         | |- context [is_ws ?a] =>
             let r := eval vm_compute in (is_ws a) in
             match r with
             | true => change (is_ws a) with true
             | false => change (is_ws a) with false
             end
         end;
  cbv iota.

Lemma compact_head j k :
  exists c r, compact j k = String c r /\
              is_ws c = false /\ Ascii.eqb c "]" = false.
Proof.
  destruct j as [|[]|z|s|[|x xs]|[|[key x] ms]]; try (by eexists _, _).
  destruct z as [|p|p]; try (by eexists _, _).
  cbn [compact string_of_Z]. unfold string_of_N.
  change (N.to_uint (Npos p)) with (Pos.to_uint p).
  pose proof (DecimalPos.Unsigned.to_uint_nonnil p) as Hnil.
  destruct (Pos.to_uint p); [done|..]; by eexists _, _.
Qed.

Lemma skip_ws_compact j k : skip_ws (compact j k) = compact j k.
Proof.
  destruct (compact_head j k) as (c & r & -> & Hws & _).
  cbn [skip_ws]. by rewrite Hws.
Qed.

Lemma ends_number_compact_items pr k xs : ends_number (compact_items pr k xs) = true.
Proof. by destruct xs. Qed.

Lemma ends_number_compact_members pr k ms :
  ends_number (compact_members pr k ms) = true.
Proof. by destruct ms as [|[key y] ms]. Qed.

Lemma parse_compact_elements k xs :
  Forall (fun x => forall k fuel,
            size x <= fuel -> ends_number k = true ->
            parse_value fuel (compact x k) = Some (x, k))%nat xs ->
  forall x,
  (forall k fuel,
     size x <= fuel -> ends_number k = true ->
     parse_value fuel (compact x k) = Some (x, k))%nat ->
  forall fuel,
  (list_sum (map (fun x => S (size x)) (x :: xs)) <= fuel)%nat ->
  parse_elements fuel
    (compact x (compact_items (fun y k' => compact y k') k xs))
  = Some (x :: xs, k).
Proof.
  induction 1 as [|y ys Hy Hys IH]; intros x Hx fuel Hfuel;
    (destruct fuel as [|fuel]; [simpl in Hfuel; lia|]);
    cbn [parse_elements]; simpl in Hfuel.
  - rewrite Hx by (first [lia | apply ends_number_compact_items]).
    reflexivity.
  - rewrite Hx by (first [lia | apply ends_number_compact_items]).
    cbn [compact_items mbind option_bind fst snd skip_ws].
    eval_chars.
    rewrite skip_ws_compact.
    rewrite (IH y Hy fuel) by (simpl; lia).
    reflexivity.
Qed.

Lemma parse_compact_members k ms :
  Forall (fun m => forall k fuel,
            size m.2 <= fuel -> ends_number k = true ->
            parse_value fuel (compact m.2 k) = Some (m.2, k))%nat ms ->
  forall key x,
  (forall k fuel,
     size x <= fuel -> ends_number k = true ->
     parse_value fuel (compact x k) = Some (x, k))%nat ->
  forall fuel,
  (list_sum (map (fun m => S (size m.2)) ((key, x) :: ms)) <= fuel)%nat ->
  parse_members fuel
    (quote key (String ":"
       (compact x (compact_members (fun y k' => compact y k') k ms))))
  = Some ((key, x) :: ms, k).
Proof.
  induction 1 as [|[key' y] ms Hy Hms IH]; intros key x Hx fuel Hfuel;
    (destruct fuel as [|fuel]; [simpl in Hfuel; lia|]);
    unfold quote; cbn [parse_members]; simpl in Hfuel;
    eval_chars;
    rewrite parse_quote_chars;
    cbn [mbind option_bind fst snd skip_ws];
    eval_chars;
    rewrite skip_ws_compact.
  - rewrite Hx by (first [lia | apply ends_number_compact_members]).
    reflexivity.
  - rewrite Hx by (first [lia | apply ends_number_compact_members]).
    cbn [compact_members mbind option_bind fst snd skip_ws].
    eval_chars.
    rewrite skip_ws_quote.
    rewrite (IH key' y Hy fuel) by (simpl in *; lia).
    reflexivity.
Qed.

(** Parsing a value printed without a gap gives the value back. *)
Lemma parse_compact j : forall k fuel,
  (size j <= fuel)%nat ->
  ends_number k = true ->
  parse_value fuel (compact j k) = Some (j, k).
Proof.
  induction j as [|b|z|s|items IH|members IH] using json_ind;
    intros k fuel Hfuel Hk;
    (destruct fuel as [|fuel]; [simpl in Hfuel; lia|]).
  - reflexivity.
  - by destruct b.
  - exact (parse_print (Num z) 0 k (S fuel) Hfuel Hk).
  - exact (parse_print (Str s) 0 k (S fuel) Hfuel Hk).
  - destruct items as [|x xs]; [reflexivity|].
    cbn [compact parse_value]. eval_chars.
    rewrite skip_ws_compact.
    destruct (compact_head x (compact_items (fun y k' => compact y k') k xs))
      as (c & r & Heq & _ & Hc).
    rewrite Heq, Hc, <- Heq.
    inversion IH as [|? ? Hx Hxs]; subst.
    rewrite (parse_compact_elements k xs Hxs x Hx) by (simpl in *; lia).
    reflexivity.
  - destruct members as [|[key x] ms]; [reflexivity|].
    cbn [compact parse_value]. eval_chars.
    rewrite skip_ws_quote. unfold quote at 1. eval_chars.
    change (String DQUOTE (quote_chars key (String DQUOTE ?r))) with (quote key r).
    inversion IH as [|? ? Hx Hxs]; subst.
    rewrite (parse_compact_members k ms Hxs key x Hx) by (simpl in *; lia).
    reflexivity.
Qed.

Lemma length_compact j : forall k,
  (size j + String.length k <= String.length (compact j k))%nat.
Proof.
  induction j as [|b|z|s|items IH|members IH] using json_ind; intros k.
  - simpl. lia.
  - destruct b; simpl; lia.
  - exact (length_print (Num z) 0 k).
  - exact (length_print (Str s) 0 k).
  - destruct items as [|x xs]; [simpl; lia|].
    inversion IH as [|? ? Hx Hxs]; subst.
    cbn [compact].
    assert (forall xs, Forall (fun x => forall k,
              (size x + String.length k <= String.length (compact x k))%nat) xs ->
            (list_sum (map (fun x => S (size x)) xs) + S (String.length k)
             <= String.length (compact_items (fun y k' => compact y k') k xs))%nat)
      as Hitems.
    { clear. induction 1 as [|y ys Hy Hys IHys]; cbn [compact_items].
      - simpl. lia.
      - pose proof (Hy (compact_items (fun y k' => compact y k') k ys)).
        simpl in *. lia. }
    pose proof (Hitems xs Hxs).
    pose proof (Hx (compact_items (fun y k' => compact y k') k xs)).
    simpl in *. lia.
  - destruct members as [|[key x] ms]; [simpl; lia|].
    inversion IH as [|? ? Hx Hxs]; subst.
    cbn [compact].
    assert (forall ms, Forall (fun m => forall k,
              (size m.2 + String.length k <= String.length (compact m.2 k))%nat) ms ->
            (list_sum (map (fun m => S (size m.2)) ms) + S (String.length k)
             <= String.length (compact_members (fun y k' => compact y k') k ms))%nat)
      as Hmembers.
    { clear. induction 1 as [|[key y] ys Hy Hys IHys]; cbn [compact_members].
      - simpl. lia.
      - pose proof (length_quote key (String ":" (compact y
             (compact_members (fun y k' => compact y k') k ys)))).
        pose proof (Hy (compact_members (fun y k' => compact y k') k ys)).
        simpl in *. lia. }
    pose proof (Hmembers ms Hxs).
    pose proof (length_quote key (String ":" (compact x
         (compact_members (fun y k' => compact y k') k ms)))).
    pose proof (Hx (compact_members (fun y k' => compact y k') k ms)).
    simpl in *. lia.
Qed.

(** [JSON.parse(JSON.stringify(x))] is [x]. *)
Lemma parse_stringify_compact j : parse (stringify_compact j) = Some j.
Proof.
  unfold parse, stringify_compact. rewrite skip_ws_compact.
  rewrite parse_compact; [reflexivity | | reflexivity].
  pose proof (length_compact j ""). simpl in *. lia.
Qed.

Lemma compact_nonempty j k : compact j k <> "".
Proof. by destruct (compact_head j k) as (c & r & -> & _). Qed.

End CompactRoundTrip.

Section Persistence.

Import JSON App.


End Persistence.

